(** * FicTrac: frame source (CVSource.cpp) and calibration GUI (ConfigGUI.cpp)

    A shallow embedding of the two translation units.

    Conventions.
    - [int] values are [Z]; [double] values are rationals.  The doubles the
      calibration code handles are integers and integers plus one half, on
      which this is exact.  The pacing arithmetic of [grab] is carried out in
      exact rationals as well (no rounding; a division by zero gives zero, not
      infinity); no statement below depends on its value.
    - The OpenCV objects the code drives ([cv::Mat], [cv::VideoCapture],
      [cv::imread], [cv::waitKey]), the clocks and the console are
      collaborators; they are modelled by small records of observable
      behaviour, and the calls the code makes on them are recorded in an
      event trace.
    - Rendering ([cvtColor] of the display frame, the draw calls, [imshow],
      the zoom window) has no effect on the state the code keeps and is left
      out; the frame to draw on is taken to be loaded. *)

From Stdlib Require Import ZArith QArith Qround String Ascii List Bool Lia.
From stdpp Require Import base gmap strings list.
Import ListNotations.

Local Open Scope Z_scope.

(** ** Doubles *)

Definition double := Q.

Definition dlt (a b : double) : bool := (Qnum a * QDen b <? Qnum b * QDen a)%Z.
Definition dle (a b : double) : bool := Qle_bool a b.

(** [static_cast<int>(d)]: truncation toward zero. *)
Definition static_cast_int (d : double) : Z := Z.quot (Qnum d) (QDen d).

(** [round(d)] of <cmath>: nearest integer, halves away from zero. *)
Definition round (d : double) : Z :=
  if dle 0%Q d then Qfloor (d + (1 # 2))%Q else Qceiling (d - (1 # 2))%Q.

(** ** Event trace *)

Inductive LogLevel := DBG | INF | WRN | ERR.

Inductive PropId :=
| CAP_PROP_POS_MSEC | CAP_PROP_POS_FRAMES | CAP_PROP_FRAME_WIDTH
| CAP_PROP_FRAME_HEIGHT | CAP_PROP_FPS | CAP_PROP_FOURCC | CAP_PROP_CONVERT_RGB.

Inductive Event :=
| Log (lvl : LogLevel) (fmt : string)
| Printf (fmt : string)
| CapOpenCamera (id : Z)
| CapOpenFile (fn : string)
| CapRead
| CapGet (p : PropId)
| CapSet (p : PropId) (v : double)
| ImRead (fn : string)
| ImWrite (fn : string) (ok : bool)
| Sleep (ms : Z).

Definition is_backend_call (e : Event) : bool :=
  match e with
  | CapRead | CapGet _ | CapSet _ _ => true
  | _ => false
  end.

Definition is_cap_read (e : Event) : bool :=
  match e with CapRead => true | _ => false end.

(** ** OpenCV collaborators *)

Module cv.

(** A matrix header with its pixel buffer (row-major, interleaved
    channels). *)
Record Mat := {
  rows : Z;
  cols : Z;
  channels : Z;
  buf : list Z
}.

Definition Mat0 : Mat := {| rows := 0; cols := 0; channels := 1; buf := [] |}.

Definition empty (m : Mat) : bool := (rows m * cols m =? 0).

(** [Mat::reshape(cn, new_rows)] called with [cn] equal to the current
    channel count: only the header changes.  [None] is a thrown
    [cv::Exception]. *)
Definition reshape (m : Mat) (new_cn new_rows : Z) : option Mat :=
  let new_cn := if new_cn =? 0 then channels m else new_cn in
  let total_width := cols m * channels m in
  let new_rows :=
    if ((total_width <? new_cn) || negb (Z.rem total_width new_cn =? 0))
         && (new_rows =? 0)
    then Z.quot (rows m * total_width) new_cn else new_rows in
  let step :=
    if negb (new_rows =? 0) && negb (new_rows =? rows m) then
      let total_size := total_width * rows m in
      if total_size <? new_rows then None
      else
        let tw := Z.quot total_size new_rows in
        if negb (tw * new_rows =? total_size) then None
        else Some (new_rows, tw)
    else Some (rows m, total_width) in
  match step with
  | None => None
  | Some (r, tw) =>
      let new_width := Z.quot tw new_cn in
      if negb (new_width * new_cn =? tw) then None
      else Some {| rows := r; cols := new_width; channels := new_cn;
                   buf := buf m |}
  end.

Fixpoint rows_of {A} (r w : nat) (l : list A) : list (list A) :=
  match r with
  | O => []
  | S r' => take w l :: rows_of r' w (drop w l)
  end.

(** [cv::flip(src, dst, 0)]: flip around the x axis (rows reversed). *)
Definition flip0 (m : Mat) : Mat :=
  {| rows := rows m; cols := cols m; channels := channels m;
     buf := concat (rev (rows_of (Z.to_nat (rows m))
                                 (Z.to_nat (cols m * channels m)) (buf m))) |}.

Inductive ColorConversionCodes :=
| COLOR_BayerBG2BGR | COLOR_BayerGB2BGR | COLOR_BayerGR2BGR
| COLOR_BayerRG2BGR | COLOR_GRAY2BGR.

(** A capture device or container as the code can observe it. *)
Record VideoCapture := {
  isOpened : bool;
  pending : list Mat;                    (* frames still to be delivered *)
  props : PropId -> double;              (* what [get] reports *)
  accepts : PropId -> double -> bool;    (* whether a [set] is honoured *)
  reported : PropId -> double -> double  (* value reported after such a set *)
}.

Definition PropId_eqb (a b : PropId) : bool :=
  match a, b with
  | CAP_PROP_POS_MSEC, CAP_PROP_POS_MSEC
  | CAP_PROP_POS_FRAMES, CAP_PROP_POS_FRAMES
  | CAP_PROP_FRAME_WIDTH, CAP_PROP_FRAME_WIDTH
  | CAP_PROP_FRAME_HEIGHT, CAP_PROP_FRAME_HEIGHT
  | CAP_PROP_FPS, CAP_PROP_FPS
  | CAP_PROP_FOURCC, CAP_PROP_FOURCC
  | CAP_PROP_CONVERT_RGB, CAP_PROP_CONVERT_RGB => true
  | _, _ => false
  end.

(** [VideoCapture::read(image)]; also [cap >> image]. *)
Definition read (c : VideoCapture) : bool * Mat * VideoCapture :=
  if isOpened c then
    match pending c with
    | [] => (false, Mat0, c)
    | f :: rest =>
        (negb (empty f), f,
         {| isOpened := true; pending := rest; props := props c;
            accepts := accepts c; reported := reported c |})
    end
  else (false, Mat0, c).

Definition get (c : VideoCapture) (p : PropId) : double :=
  if isOpened c then props c p else 0%Q.

Definition set (c : VideoCapture) (p : PropId) (v : double)
  : bool * VideoCapture :=
  if isOpened c && accepts c p v then
    (true,
     {| isOpened := isOpened c; pending := pending c;
        props := fun q => if PropId_eqb q p then reported c p v else props c q;
        accepts := accepts c; reported := reported c |})
  else (false, c).

(** What the machine offers: cameras by index, containers and still images by
    path, and the colour conversions. *)
Record World := {
  camera : Z -> VideoCapture;
  file : string -> VideoCapture;
  imread : string -> Mat;
  cvtColor : ColorConversionCodes -> Mat -> Mat
}.

End cv.

(** ** [std::stoi] *)

Definition isspace (c : ascii) : bool :=
  let n := Z.of_nat (nat_of_ascii c) in ((9 <=? n) && (n <=? 13)) || (n =? 32).

Definition digit_of (c : ascii) : option Z :=
  let n := Z.of_nat (nat_of_ascii c) in
  if (48 <=? n) && (n <=? 57) then Some (n - 48) else None.

Fixpoint skip_space (s : list ascii) : list ascii :=
  match s with
  | c :: s' => if isspace c then skip_space s' else s
  | [] => []
  end.

(** Longest digit prefix: its value and how many digits it has. *)
Fixpoint digits (s : list ascii) (acc : Z) (n : nat) : Z * nat :=
  match s with
  | c :: s' =>
      match digit_of c with
      | Some d => digits s' (10 * acc + d) (S n)
      | None => (acc, n)
      end
  | [] => (acc, n)
  end.

Definition INT_MAX : Z := 2147483647.
Definition INT_MIN : Z := -2147483648.

(** [None] is a thrown [std::invalid_argument] or [std::out_of_range]. *)
Definition stoi (str : string) : option Z :=
  let s := skip_space (list_ascii_of_string str) in
  let '(neg, s) :=
    match s with
    | "-"%char :: s' => (true, s')
    | "+"%char :: s' => (false, s')
    | _ => (false, s)
    end in
  let '(v, n) := digits s 0 O in
  match n with
  | O => None
  | _ =>
      let v := if neg then - v else v in
      if (INT_MIN <=? v) && (v <=? INT_MAX) then Some v else None
  end.

(** ** CVSource.cpp *)

Module CVSource.

Inductive BAYER_TYPE := BAYER_NONE | BAYER_RGGB | BAYER_GRBG | BAYER_GBRG | BAYER_BGGR.

(** The function-local statics of [grab]. *)
Record Pacing := { prev_ts : double; av_fps : double; sleep_ms : double }.

Record t := {
  _open : bool;
  _live : bool;
  _is_image : bool;
  _bayerType : BAYER_TYPE;
  _width : Z;
  _height : Z;
  _timestamp : double;
  _ms_since_midnight : double;
  _fps : double;
  _cap : option cv.VideoCapture;      (* shared_ptr; [None] is null *)
  _frame_cap : cv.Mat;
  _frame_flp : cv.Mat;
  statics : option Pacing             (* [None] until first initialised *)
}.

Definition with_open (s : t) (b : bool) : t :=
  {| _open := b; _live := _live s; _is_image := _is_image s;
     _bayerType := _bayerType s; _width := _width s; _height := _height s;
     _timestamp := _timestamp s; _ms_since_midnight := _ms_since_midnight s;
     _fps := _fps s; _cap := _cap s; _frame_cap := _frame_cap s;
     _frame_flp := _frame_flp s; statics := statics s |}.

Definition with_live (s : t) (b : bool) : t :=
  {| _open := _open s; _live := b; _is_image := _is_image s;
     _bayerType := _bayerType s; _width := _width s; _height := _height s;
     _timestamp := _timestamp s; _ms_since_midnight := _ms_since_midnight s;
     _fps := _fps s; _cap := _cap s; _frame_cap := _frame_cap s;
     _frame_flp := _frame_flp s; statics := statics s |}.

Definition with_is_image (s : t) (b : bool) : t :=
  {| _open := _open s; _live := _live s; _is_image := b;
     _bayerType := _bayerType s; _width := _width s; _height := _height s;
     _timestamp := _timestamp s; _ms_since_midnight := _ms_since_midnight s;
     _fps := _fps s; _cap := _cap s; _frame_cap := _frame_cap s;
     _frame_flp := _frame_flp s; statics := statics s |}.

Definition with_bayerType (s : t) (b : BAYER_TYPE) : t :=
  {| _open := _open s; _live := _live s; _is_image := _is_image s;
     _bayerType := b; _width := _width s; _height := _height s;
     _timestamp := _timestamp s; _ms_since_midnight := _ms_since_midnight s;
     _fps := _fps s; _cap := _cap s; _frame_cap := _frame_cap s;
     _frame_flp := _frame_flp s; statics := statics s |}.

Definition with_wh (s : t) (w h : Z) : t :=
  {| _open := _open s; _live := _live s; _is_image := _is_image s;
     _bayerType := _bayerType s; _width := w; _height := h;
     _timestamp := _timestamp s; _ms_since_midnight := _ms_since_midnight s;
     _fps := _fps s; _cap := _cap s; _frame_cap := _frame_cap s;
     _frame_flp := _frame_flp s; statics := statics s |}.

Definition with_times (s : t) (ts day : double) : t :=
  {| _open := _open s; _live := _live s; _is_image := _is_image s;
     _bayerType := _bayerType s; _width := _width s; _height := _height s;
     _timestamp := ts; _ms_since_midnight := day;
     _fps := _fps s; _cap := _cap s; _frame_cap := _frame_cap s;
     _frame_flp := _frame_flp s; statics := statics s |}.

Definition with_fps (s : t) (f : double) : t :=
  {| _open := _open s; _live := _live s; _is_image := _is_image s;
     _bayerType := _bayerType s; _width := _width s; _height := _height s;
     _timestamp := _timestamp s; _ms_since_midnight := _ms_since_midnight s;
     _fps := f; _cap := _cap s; _frame_cap := _frame_cap s;
     _frame_flp := _frame_flp s; statics := statics s |}.

Definition with_cap (s : t) (c : option cv.VideoCapture) : t :=
  {| _open := _open s; _live := _live s; _is_image := _is_image s;
     _bayerType := _bayerType s; _width := _width s; _height := _height s;
     _timestamp := _timestamp s; _ms_since_midnight := _ms_since_midnight s;
     _fps := _fps s; _cap := c; _frame_cap := _frame_cap s;
     _frame_flp := _frame_flp s; statics := statics s |}.

Definition with_frame_cap (s : t) (m : cv.Mat) : t :=
  {| _open := _open s; _live := _live s; _is_image := _is_image s;
     _bayerType := _bayerType s; _width := _width s; _height := _height s;
     _timestamp := _timestamp s; _ms_since_midnight := _ms_since_midnight s;
     _fps := _fps s; _cap := _cap s; _frame_cap := m;
     _frame_flp := _frame_flp s; statics := statics s |}.

Definition with_frame_flp (s : t) (m : cv.Mat) : t :=
  {| _open := _open s; _live := _live s; _is_image := _is_image s;
     _bayerType := _bayerType s; _width := _width s; _height := _height s;
     _timestamp := _timestamp s; _ms_since_midnight := _ms_since_midnight s;
     _fps := _fps s; _cap := _cap s; _frame_cap := _frame_cap s;
     _frame_flp := m; statics := statics s |}.

Definition with_statics (s : t) (p : option Pacing) : t :=
  {| _open := _open s; _live := _live s; _is_image := _is_image s;
     _bayerType := _bayerType s; _width := _width s; _height := _height s;
     _timestamp := _timestamp s; _ms_since_midnight := _ms_since_midnight s;
     _fps := _fps s; _cap := _cap s; _frame_cap := _frame_cap s;
     _frame_flp := _frame_flp s; statics := p |}.

(** *** Constructor *)

(** One [try] block: it either runs to its end or throws, and what it
    assigned before throwing stays assigned. *)
Inductive Trial :=
| Done (s : t) (tr : list Event)
| Thrown (s : t) (tr : list Event).

(* lines 32-42 *)
Definition try_camera (w : cv.World) (input : string) (s : t) : Trial :=
  let tr := [Log DBG "Trying source as camera id..."] in
  if 2 <? Z.of_nat (String.length input) then Thrown s tr
  else
    match stoi input with
    | None => Thrown s tr
    | Some id =>
        let cap := cv.camera w id in
        let s := with_cap s (Some cap) in
        let tr := tr ++ [CapOpenCamera id] in
        if negb (cv.isOpened cap) then Thrown s tr
        else
          let '(_, test_frame, cap) := cv.read cap in
          let s := with_cap s (Some cap) in
          let tr := tr ++ [CapRead] in
          if cv.empty test_frame then Thrown s tr
          else Done (with_live (with_open s true) true)
                    (tr ++ [Log INF "Using source type: camera id."])
    end.

(* lines 46-54 *)
Definition try_video (w : cv.World) (input : string) (s : t) : Trial :=
  let tr := [Log DBG "Trying source as video file..."] in
  let cap := cv.file w input in
  let s := with_cap s (Some cap) in
  let tr := tr ++ [CapOpenFile input] in
  if negb (cv.isOpened cap) then Thrown s tr
  else
    let '(_, test_frame, cap) := cv.read cap in
    let s := with_cap s (Some cap) in
    let tr := tr ++ [CapRead] in
    if cv.empty test_frame then Thrown s tr
    else Done (with_live (with_open s true) false)
              (tr ++ [Log INF "Using source type: video file."]).

(* lines 58-65 *)
Definition try_image (w : cv.World) (input : string) (s : t) : Trial :=
  let tr := [Log DBG "Trying source as image file..."; ImRead input] in
  let s := with_frame_cap s (cv.imread w input) in
  if cv.empty (_frame_cap s) then Thrown s tr
  else Done (with_is_image (with_live (with_open s true) false) true)
            (tr ++ [Log INF "Using source type: image file."]).

(* lines 31-72: the nested try/catch chain *)
Definition resolve (w : cv.World) (input : string) (s : t) : t * list Event :=
  match try_camera w input s with
  | Done s tr => (s, tr)
  | Thrown s tr1 =>
      match try_video w input s with
      | Done s tr2 => (s, tr1 ++ tr2)
      | Thrown s tr2 =>
          match try_image w input s with
          | Done s tr3 => (s, tr1 ++ tr2 ++ tr3)
          | Thrown s tr3 =>
              (with_open s false,
               tr1 ++ tr2 ++ tr3
                 ++ [Log ERR "Could not interpret source type (%s)!"])
          end
      end
  end.

(** [_cap->get(p)] in the constructor, where the pointer is not null: the
    source is open and not an image, so one of the two capture probes has
    assigned it. *)
Definition cap_get (s : t) (p : PropId) : double :=
  match _cap s with
  | Some c => cv.get c p
  | None => 0%Q
  end.

Definition getFPS (s : t) : double * list Event :=
  match _cap s with
  | Some c => if _open s then (cv.get c CAP_PROP_FPS, [CapGet CAP_PROP_FPS])
              else (_fps s, [])
  | None => (_fps s, [])
  end.

(** [CVSource::CVSource(input)].  [base] is the object as the header's
    default member initialisers leave it (the header is not part of the
    sources); the member-initialiser list then clears [_is_image]. *)
Definition new (w : cv.World) (base : t) (input : string) : t * list Event :=
  let s := with_is_image base false in
  let '(s, tr) := resolve w input s in
  let tr := Log DBG "Source is: %s" :: tr in
  if _open s then
    let '(s, tr) :=
      if _is_image s then
        (with_wh s (cv.cols (_frame_cap s)) (cv.rows (_frame_cap s)), tr)
      else
        (with_wh s (static_cast_int (cap_get s CAP_PROP_FRAME_WIDTH))
                   (static_cast_int (cap_get s CAP_PROP_FRAME_HEIGHT)),
         tr ++ [CapGet CAP_PROP_FRAME_WIDTH; CapGet CAP_PROP_FRAME_HEIGHT]) in
    if _live s then
      let '(f, trf) := getFPS s in
      (with_fps s f,
       tr ++ trf ++ [Log INF "OpenCV camera source initialised (%dx%d @ %.3f fps)!"])
    else if _is_image s then
      (s, tr ++ [Log INF "OpenCV image source initialised (%dx%d)!"])
    else
      (s, tr ++ [Log INF "OpenCV video source initialised (%dx%d)!"])
  else (s, tr).

(** The classification the constructor announces. *)
Inductive SourceType := CameraId | VideoFile | ImageFile.

Definition announces (e : Event) : option SourceType :=
  match e with
  | Log INF "Using source type: camera id." => Some CameraId
  | Log INF "Using source type: video file." => Some VideoFile
  | Log INF "Using source type: image file." => Some ImageFile
  | _ => None
  end.

Definition classifications (tr : list Event) : list SourceType :=
  omap announces tr.

(** *** Rate, size, rewind *)

(* lines 117-132 *)
Definition setFPS (s : t) (fps : double) : bool * t * list Event :=
  let ret := false in
  match _cap s with
  | Some c =>
      if _open s && dlt 0%Q fps then
        let '(ok, c) := cv.set c CAP_PROP_FPS fps in
        let s := with_cap s (Some c) in
        let tr := [CapSet CAP_PROP_FPS fps] in
        if negb ok then
          (ret, with_fps s fps,
           tr ++ [Log WRN "Warning! Failed to set device fps (attempted to set fps=%.2f).";
                  Log INF "Playback frame rate is now %.2f"])
        else
          let '(f, trf) := getFPS s in
          (ret, with_fps s f,
           tr ++ trf ++ [Log INF "Device frame rate is now %.2f"])
      else (ret, s, [])
  | None => (ret, s, [])
  end.

(* lines 137-166 *)
Definition setWH (s : t) (width height : Z) : bool * t * list Event :=
  let ret := false in
  match _cap s with
  | Some c =>
      if _open s && (0 <? width) && (0 <? height) then
        let fourcc := 1195528775%Z in       (* fourcc('G','R','B','G') *)
        let '(codec_set, c) := cv.set c CAP_PROP_FOURCC (inject_Z fourcc) in
        let '(_, c) := cv.set c CAP_PROP_CONVERT_RGB 0%Q in
        let s := with_bayerType s BAYER_GRBG in
        let '(width_set, c) := cv.set c CAP_PROP_FRAME_WIDTH (inject_Z width) in
        let '(height_set, c) := cv.set c CAP_PROP_FRAME_HEIGHT (inject_Z height) in
        let s := with_cap s (Some c) in
        let tr := [Log INF "Backend is %s";
                   CapSet CAP_PROP_FOURCC (inject_Z fourcc);
                   CapSet CAP_PROP_CONVERT_RGB 0%Q;
                   CapSet CAP_PROP_FRAME_WIDTH (inject_Z width);
                   CapSet CAP_PROP_FRAME_HEIGHT (inject_Z height)] in
        if negb (width_set && height_set) then
          (ret, with_wh s width height,
           tr ++ [Log WRN "Warning! Failed to set the device width/heigth (attempted to set %dx%d";
                  Log INF "Playback dimensions are now %dx%d"])
        else
          let s := with_wh s (static_cast_int (cv.get c CAP_PROP_FRAME_WIDTH))
                             (static_cast_int (cv.get c CAP_PROP_FRAME_HEIGHT)) in
          let tr := tr ++ [CapGet CAP_PROP_FRAME_WIDTH; CapGet CAP_PROP_FRAME_HEIGHT;
                           Log INF "Device dimension is now %dx%d"] in
          if (_width s =? width) && (_height s =? height) then (true, s, tr)
          else (ret, s, tr)
      else (ret, s, [])
  | None => (ret, s, [])
  end.

(* lines 172-181 *)
Definition rewind (s : t) : bool * t * list Event :=
  let ret := false in
  match _cap s with
  | Some c =>
      if _open s then
        let '(ok, c) := cv.set c CAP_PROP_POS_FRAMES 0%Q in
        let s := with_cap s (Some c) in
        if negb ok then
          (ret, s, [CapSet CAP_PROP_POS_FRAMES 0%Q;
                    Log WRN "Warning! Failed to rewind source."])
        else (true, s, [CapSet CAP_PROP_POS_FRAMES 0%Q])
      else (ret, s, [])
  | None => (ret, s, [])
  end.

(** *** grab *)

(** The two clocks of timing.h read at one call. *)
Record Clock := { ts_ms : double; ms_since_midnight : double }.

Inductive GrabResult :=
| Returned (ret : bool) (frame : cv.Mat) (s : t) (tr : list Event)
| Threw (s : t) (tr : list Event)     (* a cv::Exception leaves grab *)
| NullDeref (tr : list Event).        (* [_cap] dereferenced while null *)

Definition bayer_code (b : BAYER_TYPE) : cv.ColorConversionCodes :=
  match b with
  | BAYER_BGGR => cv.COLOR_BayerBG2BGR
  | BAYER_GBRG => cv.COLOR_BayerGB2BGR
  | BAYER_GRBG => cv.COLOR_BayerGR2BGR
  | BAYER_RGGB => cv.COLOR_BayerRG2BGR
  | BAYER_NONE => cv.COLOR_GRAY2BGR
  end.

(* lines 189-192 *)
Inductive ReadStep :=
| ReadSkipped (s : t)       (* image source: the cached decode is kept *)
| ReadOk (s : t)
| ReadFailed (s : t)
| ReadNull.

Definition grab_read (s : t) : ReadStep :=
  if _is_image s then ReadSkipped s
  else
    match _cap s with
    | None => ReadNull
    | Some c =>
        let '(ok, f, c) := cv.read c in
        let s := with_frame_cap (with_cap s (Some c)) f in
        if negb ok then ReadFailed s else ReadOk s
    end.

(* lines 200-203 *)
Definition grab_reshape (s : t) : option (t * list Event) :=
  if cv.rows (_frame_cap s) =? 1 then
    match cv.reshape (_frame_cap s) (cv.channels (_frame_cap s)) 240 with
    | None => None
    | Some m =>
        Some (with_frame_cap s m,
              [Log DBG "reshape image returned from camera to %dx%d[%d]"])
    end
  else Some (s, []).

(* lines 205-226 *)
Definition grab_colour (w : cv.World) (s : t) : t :=
  if cv.channels (_frame_cap s) =? 1 then
    with_frame_flp s (cv.cvtColor w (bayer_code (_bayerType s)) (_frame_cap s))
  else with_frame_flp s (_frame_cap s).

(* lines 229-237 *)
Definition grab_pace (s : t) (ts : double) : t * list Event :=
  if negb (_live s) && dlt 0%Q (_fps s) then
    let p := match statics s with
             | Some p => p
             | None => {| prev_ts := (ts - 1000 / _fps s)%Q;
                          av_fps := _fps s;
                          sleep_ms := (1000 / _fps s)%Q |}
             end in
    let av := (0.15 * av_fps p + 0.85 * (1000 / (ts - prev_ts p)))%Q in
    let sl := (sleep_ms p * (0.25 * (av / _fps s) + 0.75))%Q in
    (with_statics s (Some {| prev_ts := ts; av_fps := av; sleep_ms := sl |}),
     [Sleep (round sl)])
  else (s, []).

(* lines 186-244 *)
Definition grab (w : cv.World) (clk : Clock) (s : t) (frame : cv.Mat)
  : GrabResult :=
  if negb (_open s) then Returned false frame s []
  else
    match grab_read s with
    | ReadNull => NullDeref []
    | ReadFailed s =>
        Returned false frame s [CapRead; Log ERR "Error grabbing image frame!"]
    | ReadSkipped s | ReadOk s =>
        let tr := if _is_image s then [] else [CapRead] in
        let ts := ts_ms clk in
        match _cap s with
        | None => NullDeref tr
        | Some c =>
            let s := with_times s (cv.get c CAP_PROP_POS_MSEC)
                                  (ms_since_midnight clk) in
            let tr := tr ++ [CapGet CAP_PROP_POS_MSEC;
                             Log DBG "Frame captured %dx%d[%d] @ %f (t_sys: %f ms, t_day: %f ms)"] in
            let s := if dle (_timestamp s) 0%Q
                     then with_times s ts (_ms_since_midnight s) else s in
            match grab_reshape s with
            | None => Threw s tr
            | Some (s, tr1) =>
                let s := grab_colour w s in
                let '(s, tr2) := grab_pace s ts in
                Returned true (cv.flip0 (_frame_flp s)) s (tr ++ tr1 ++ tr2)
            end
        end
    end.

End CVSource.

(** ** ConfigGUI.cpp *)

Module Point2d.
Record t := mk { x : double; y : double }.
(** [Point2d(int, int)] *)
Definition of_ints (a b : Z) : t := mk (inject_Z a) (inject_Z b).
End Point2d.

(** The store behind [_cfg]. *)
Module ConfigParser.

Inductive Value :=
| VStr (s : string)
| VVecInt (v : list Z)
| VVecDbl (v : list double)
| VVVecInt (v : list (list Z)).

(** Modelled from the spec: the config parser class is not part of the
    sources.  A keyed store with typed values (spec, "External
    interfaces"), an in-memory table that [add] updates and a durable copy
    that a successful [write] replaces. *)
Record t := {
  mem : gmap string Value;
  disk : gmap string Value;
  nwrites : nat                 (* calls of [write] so far *)
}.

Definition add (k : string) (v : Value) (p : t) : t :=
  {| mem := <[k := v]> (mem p); disk := disk p; nwrites := nwrites p |}.

(** [write()]: the return value comes from the file system; positive means
    the file was written. *)
Definition write (result : nat -> Z) (p : t) : Z * t :=
  let ret := result (nwrites p) in
  (ret, {| mem := mem p;
           disk := if 0 <? ret then mem p else disk p;
           nwrites := S (nwrites p) |}).

Definition getVecInt (k : string) (p : t) : option (list Z) :=
  match mem p !! k with Some (VVecInt v) => Some v | _ => None end.

Definition getVVecInt (k : string) (p : t) : option (list (list Z)) :=
  match mem p !! k with Some (VVVecInt v) => Some v | _ => None end.

Definition getVecDbl (k : string) (p : t) : option (list double) :=
  match mem p !! k with Some (VVecDbl v) => Some v | _ => None end.

(** Every stored value has a textual form; only that of a string is
    looked at by the code. *)
Definition getStr (k : string) (p : t) : option string :=
  match mem p !! k with
  | Some (VStr s) => Some s
  | Some _ => Some EmptyString
  | None => None
  end.

End ConfigParser.

Module ConfigGui.

Inductive INPUT_MODE :=
| CIRC_INIT | CIRC_PTS | IGNR_INIT | IGNR_PTS
| R_INIT | R_SLCT | R_XY | R_YZ | R_XZ | R_EXT | EXIT.

Definition INPUT_MODE_eqb (a b : INPUT_MODE) : bool :=
  match a, b with
  | CIRC_INIT, CIRC_INIT | CIRC_PTS, CIRC_PTS | IGNR_INIT, IGNR_INIT
  | IGNR_PTS, IGNR_PTS | R_INIT, R_INIT | R_SLCT, R_SLCT | R_XY, R_XY
  | R_YZ, R_YZ | R_XZ, R_XZ | R_EXT, R_EXT | EXIT, EXIT => true
  | _, _ => false
  end.

Record INPUT_DATA := {
  newEvent : bool;
  cursorPt : Point2d.t;
  circPts : list Point2d.t;
  ignrPts : list (list Point2d.t);
  sqrPts : list Point2d.t;
  mode : INPUT_MODE
}.

Definition set_newEvent (b : bool) (d : INPUT_DATA) : INPUT_DATA :=
  {| newEvent := b; cursorPt := cursorPt d; circPts := circPts d;
     ignrPts := ignrPts d; sqrPts := sqrPts d; mode := mode d |}.
Definition set_cursorPt (p : Point2d.t) (d : INPUT_DATA) : INPUT_DATA :=
  {| newEvent := newEvent d; cursorPt := p; circPts := circPts d;
     ignrPts := ignrPts d; sqrPts := sqrPts d; mode := mode d |}.
Definition set_circPts (l : list Point2d.t) (d : INPUT_DATA) : INPUT_DATA :=
  {| newEvent := newEvent d; cursorPt := cursorPt d; circPts := l;
     ignrPts := ignrPts d; sqrPts := sqrPts d; mode := mode d |}.
Definition set_ignrPts (l : list (list Point2d.t)) (d : INPUT_DATA) : INPUT_DATA :=
  {| newEvent := newEvent d; cursorPt := cursorPt d; circPts := circPts d;
     ignrPts := l; sqrPts := sqrPts d; mode := mode d |}.
Definition set_sqrPts (l : list Point2d.t) (d : INPUT_DATA) : INPUT_DATA :=
  {| newEvent := newEvent d; cursorPt := cursorPt d; circPts := circPts d;
     ignrPts := ignrPts d; sqrPts := l; mode := mode d |}.
Definition set_mode (m : INPUT_MODE) (d : INPUT_DATA) : INPUT_DATA :=
  {| newEvent := newEvent d; cursorPt := cursorPt d; circPts := circPts d;
     ignrPts := ignrPts d; sqrPts := sqrPts d; mode := m |}.

(** *** std::vector operations the callback uses *)

Definition push_back {A} (a : A) (v : list A) : list A := v ++ [a].
Definition pop_back {A} (v : list A) : list A := removelast v.

(** [v.back() = f(v.back())] on a non-empty vector. *)
Fixpoint on_back {A} (f : A -> A) (v : list A) : list A :=
  match v with
  | [] => []
  | [a] => [f a]
  | a :: v' => a :: on_back f v'
  end.

Definition back_empty {A} (v : list (list A)) : bool :=
  match last v with
  | Some [] => true
  | _ => false
  end.

(** Modelled from the spec: [INPUT_DATA::addPoly] lives in the header, which
    is not part of the sources; the spec has commit "start a new empty
    polygon". *)
Definition addPoly (d : INPUT_DATA) : INPUT_DATA :=
  set_ignrPts (push_back [] (ignrPts d)) d.

(** *** onMouseEvent (lines 48-122) *)

Inductive MouseEventTypes :=
| CV_EVENT_MOUSEMOVE | CV_EVENT_LBUTTONDOWN | CV_EVENT_RBUTTONDOWN
| CV_EVENT_MBUTTONDOWN | CV_EVENT_LBUTTONUP | CV_EVENT_RBUTTONUP
| CV_EVENT_MBUTTONUP | CV_EVENT_LBUTTONDBLCLK | CV_EVENT_RBUTTONDBLCLK
| CV_EVENT_MBUTTONDBLCLK.

Definition onMouseEvent (event : MouseEventTypes) (x y : Z) (f : Z)
    (pdata : INPUT_DATA) : INPUT_DATA :=
  match event with
  | CV_EVENT_LBUTTONDOWN => pdata
  | CV_EVENT_LBUTTONUP =>
      match mode pdata with
      | CIRC_PTS =>
          set_newEvent true
            (set_circPts (push_back (Point2d.of_ints x y) (circPts pdata)) pdata)
      | IGNR_PTS =>
          (* ensure there is at least one active ignore region *)
          let pdata :=
            match ignrPts pdata with
            | [] => set_ignrPts (push_back [] (ignrPts pdata)) pdata
            | _ => pdata
            end in
          (* add click to the active ignore region *)
          set_newEvent true
            (set_ignrPts (on_back (push_back (Point2d.of_ints x y)) (ignrPts pdata))
                         pdata)
      | R_XY | R_YZ | R_XZ =>
          set_newEvent true
            (set_sqrPts (push_back (Point2d.of_ints x y) (sqrPts pdata)) pdata)
      | _ => pdata
      end
  | CV_EVENT_RBUTTONUP =>
      match mode pdata with
      | CIRC_PTS =>
          let pdata :=
            if (0 <? length (circPts pdata))%nat
            then set_circPts (pop_back (circPts pdata)) pdata else pdata in
          set_newEvent true pdata
      | IGNR_PTS =>
          let pdata :=
            match ignrPts pdata with
            | [] => pdata
            | _ =>
                (* if the active ignore region is empty, remove it *)
                if back_empty (ignrPts pdata)
                then set_ignrPts (pop_back (ignrPts pdata)) pdata
                (* otherwise remove points from the active ignore region *)
                else set_ignrPts (on_back pop_back (ignrPts pdata)) pdata
            end in
          set_newEvent true pdata
      | R_XY | R_YZ | R_XZ =>
          let pdata :=
            if (0 <? length (sqrPts pdata))%nat
            then set_sqrPts (pop_back (sqrPts pdata)) pdata else pdata in
          set_newEvent true pdata
      | _ => pdata
      end
  | CV_EVENT_MOUSEMOVE => set_cursorPt (Point2d.of_ints x y) pdata
  | _ => pdata
  end.

(** *** Collaborators of [run] *)

Definition Mat64 := list double.       (* a CV_64F matrix, row-major; [[]] is [Mat()] *)
Definition CmPoint := (double * double * double)%type.

Inductive RefCnrs := XY_CNRS | YZ_CNRS | XZ_CNRS.

(** Geometry, file system and platform, as [run] sees them. *)
Record World := {
  WIN32 : bool;
  circleFit_camModel : list Point2d.t -> CmPoint * double -> CmPoint * double;
  computeRtFromSquare :
    RefCnrs -> list Point2d.t -> Mat64 * Mat64 -> bool * (Mat64 * Mat64);
  omegaToMatrix : CmPoint -> Mat64;
  matrixToOmega : Mat64 -> CmPoint;
  write_result : nat -> Z;       (* what the n-th [_cfg.write()] returns *)
  imwrite : string -> bool
}.

(** One call of [cv::waitKey]: the mouse callbacks it dispatches, then the
    key code it returns (-1 for none). *)
Record Tick := {
  mouse : list (MouseEventTypes * Z * Z * Z);
  pressed : Z
}.

(** The object's members, the locals of [run], and the console. *)
Record Session := {
  _open : bool;
  _config_fn : string;
  _cfg : ConfigParser.t;
  _input_data : INPUT_DATA;
  R : Mat64;
  t : Mat64;
  c : CmPoint;
  r : double;
  key : Z;
  cfg_r_src : string;
  stdin : list Z;
  ticks : list Tick;
  out : list Event
}.

Definition set_open (b : bool) (s : Session) : Session :=
  {| _open := b; _config_fn := _config_fn s; _cfg := _cfg s;
     _input_data := _input_data s; R := R s; t := t s; c := c s; r := r s;
     key := key s; cfg_r_src := cfg_r_src s; stdin := stdin s;
     ticks := ticks s; out := out s |}.
Definition set_cfg (p : ConfigParser.t) (s : Session) : Session :=
  {| _open := _open s; _config_fn := _config_fn s; _cfg := p;
     _input_data := _input_data s; R := R s; t := t s; c := c s; r := r s;
     key := key s; cfg_r_src := cfg_r_src s; stdin := stdin s;
     ticks := ticks s; out := out s |}.
Definition set_input (d : INPUT_DATA) (s : Session) : Session :=
  {| _open := _open s; _config_fn := _config_fn s; _cfg := _cfg s;
     _input_data := d; R := R s; t := t s; c := c s; r := r s;
     key := key s; cfg_r_src := cfg_r_src s; stdin := stdin s;
     ticks := ticks s; out := out s |}.
Definition set_Rt (R' t' : Mat64) (s : Session) : Session :=
  {| _open := _open s; _config_fn := _config_fn s; _cfg := _cfg s;
     _input_data := _input_data s; R := R'; t := t'; c := c s; r := r s;
     key := key s; cfg_r_src := cfg_r_src s; stdin := stdin s;
     ticks := ticks s; out := out s |}.
Definition set_cr (c' : CmPoint) (r' : double) (s : Session) : Session :=
  {| _open := _open s; _config_fn := _config_fn s; _cfg := _cfg s;
     _input_data := _input_data s; R := R s; t := t s; c := c'; r := r';
     key := key s; cfg_r_src := cfg_r_src s; stdin := stdin s;
     ticks := ticks s; out := out s |}.
Definition set_key (k : Z) (s : Session) : Session :=
  {| _open := _open s; _config_fn := _config_fn s; _cfg := _cfg s;
     _input_data := _input_data s; R := R s; t := t s; c := c s; r := r s;
     key := k; cfg_r_src := cfg_r_src s; stdin := stdin s;
     ticks := ticks s; out := out s |}.
Definition set_src (src : string) (s : Session) : Session :=
  {| _open := _open s; _config_fn := _config_fn s; _cfg := _cfg s;
     _input_data := _input_data s; R := R s; t := t s; c := c s; r := r s;
     key := key s; cfg_r_src := src; stdin := stdin s;
     ticks := ticks s; out := out s |}.
Definition set_stdin (l : list Z) (s : Session) : Session :=
  {| _open := _open s; _config_fn := _config_fn s; _cfg := _cfg s;
     _input_data := _input_data s; R := R s; t := t s; c := c s; r := r s;
     key := key s; cfg_r_src := cfg_r_src s; stdin := l;
     ticks := ticks s; out := out s |}.
Definition set_ticks (l : list Tick) (s : Session) : Session :=
  {| _open := _open s; _config_fn := _config_fn s; _cfg := _cfg s;
     _input_data := _input_data s; R := R s; t := t s; c := c s; r := r s;
     key := key s; cfg_r_src := cfg_r_src s; stdin := stdin s;
     ticks := l; out := out s |}.
Definition emit (e : Event) (s : Session) : Session :=
  {| _open := _open s; _config_fn := _config_fn s; _cfg := _cfg s;
     _input_data := _input_data s; R := R s; t := t s; c := c s; r := r s;
     key := key s; cfg_r_src := cfg_r_src s; stdin := stdin s;
     ticks := ticks s; out := out s ++ [e] |}.

(** *** Console and window *)

Definition EOF : Z := -1.
Definition exit_key : Z := 27.                               (* 0x1b *)
Definition enter_key (w : World) : Z := if WIN32 w then 13 else 10.

(** Assignment of an [int] to a [char]. *)
Definition to_char (z : Z) : Z := (z + 128) mod 256 - 128.

Definition getchar (s : Session) : Z * Session :=
  match stdin s with
  | [] => (EOF, s)
  | ch :: rest => (ch, set_stdin rest s)
  end.

(** What one [std::getline] extracts from the characters left: the line
    without its newline, what is left behind it, and whether the end of the
    input was hit before a newline (this sets the stream's eofbit). *)
Fixpoint read_line (l : list Z) : list Z * list Z * bool :=
  match l with
  | [] => ([], [], true)
  | ch :: rest =>
      if ch =? 10 then ([], rest, false)
      else let '(a, b, e) := read_line rest in (ch :: a, b, e)
  end.

Definition string_of_chars (l : list Z) : string :=
  string_of_list_ascii (map (fun z => ascii_of_nat (Z.to_nat z)) l).

(** [std::getline(std::cin, str)].  [eof] is the eofbit of [std::cin].  On
    a stream whose eofbit is set the call fails before it touches [str],
    which keeps the line read before; otherwise [str] is replaced by the
    line extracted. *)
Definition getline (eof : bool) (str : string) (s : Session)
    : string * bool * Session :=
  if eof then (str, true, s)
  else
    let '(a, b, e) := read_line (stdin s) in
    (string_of_chars a, e, set_stdin b s).

Definition apply_mouse (evs : list (MouseEventTypes * Z * Z * Z))
    (d : INPUT_DATA) : INPUT_DATA :=
  fold_left (fun d '(e, x, y, f) => onMouseEvent e x y f d) evs d.

Definition waitKey (s : Session) : Z * Session :=
  match ticks s with
  | [] => (-1, s)
  | tk :: rest =>
      (pressed tk,
       set_ticks rest (set_input (apply_mouse (mouse tk) (_input_data s)) s))
  end.

(* lines 364-369 *)
Definition changeState (new_state : INPUT_MODE) (s : Session) : Session :=
  let s := set_input (set_newEvent true (_input_data s)) s in
  let s := emit (Log DBG "New state: %s") s in
  set_input (set_mode new_state (_input_data s)) s.

(** *** Loading points (lines 417-419, 547-549, 687-689) *)

Definition UINT_MAX : Z := 4294967295.

(** [for (unsigned int i = 1; i < cfg_pts.size(); i += 2)]; [None] when
    the loop never ends. *)
Fixpoint load_loop (fuel : nat) (cfg_pts : list Z) (i : Z)
    (pts : list Point2d.t) : option (list Point2d.t) :=
  match fuel with
  | O => None
  | S fuel =>
      if i <? Z.of_nat (length cfg_pts) then
        load_loop fuel cfg_pts ((i + 2) mod (UINT_MAX + 1))
          (push_back (Point2d.of_ints (nth (Z.to_nat (i - 1)) cfg_pts 0)
                                      (nth (Z.to_nat i) cfg_pts 0)) pts)
      else Some pts
  end.

Definition load_points (cfg_pts : list Z) : option (list Point2d.t) :=
  load_loop (S (length cfg_pts)) cfg_pts 1 [].

(** [for (auto poly : cfg_polys)], lines 545-551. *)
Fixpoint load_polys (cfg_polys : list (list Z))
    (acc : list (list Point2d.t)) : option (list (list Point2d.t)) :=
  match cfg_polys with
  | [] => Some acc
  | poly :: rest =>
      match load_points poly with
      | None => None
      | Some tmp =>
          load_polys rest (match tmp with [] => acc | _ => push_back tmp acc end)
      end
  end.

(** *** Dumping points (lines 509-512, 638-644, 278-281) *)

Definition dump_points (pts : list Point2d.t) : list Z :=
  flat_map (fun p => [static_cast_int (Point2d.x p + 0.5)%Q;
                      static_cast_int (Point2d.y p + 0.5)%Q]) pts.

(** *** The keep-existing prompts (lines 436-460, 570-594, 733-757) *)

(** One pass of the [while (true)] input loop per unit of fuel; [None] when
    the loop never ends. *)
Fixpoint keep_prompt (fuel : nat) (question : string) (next : INPUT_MODE)
    (s : Session) : option Session :=
  match fuel with
  | O => None
  | S fuel =>
      let '(_, s) := waitKey s in
      let s := emit (Printf question) s in
      let '(in_, s) := getchar s in
      if (in_ =? 121) || (in_ =? 89) then            (* 'y', 'Y' *)
        let '(_, s) := getchar s in                  (* discard \n *)
        Some (changeState next s)
      else if in_ =? 10 then                         (* '\n' *)
        Some (changeState next s)
      else if (in_ =? 110) || (in_ =? 78) then       (* 'n', 'N' *)
        let '(_, s) := getchar s in                  (* discard \n *)
        Some s
      else
        let s := emit (Log WRN "Invalid input!") s in
        let '(_, s) := getchar s in                  (* discard \n *)
        keep_prompt fuel question next s
  end.

(** Every pass that loops consumes input, and at end of input it loops for
    ever, so this much fuel separates the two. *)
Definition ask_keep (question : string) (next : INPUT_MODE) (s : Session)
    : option Session :=
  keep_prompt (S (length (stdin s))) question next s.

(** *** The stages of [run] (lines 406-1028) *)

Definition write_cfg (w : World) (s : Session) : Z * Session :=
  let '(ret, p) := ConfigParser.write (write_result w) (_cfg s) in
  (ret, set_cfg p s).

Definition cfg_add (k : string) (v : ConfigParser.Value) (s : Session) : Session :=
  set_cfg (ConfigParser.add k v (_cfg s)) s.

(* lines 409-470 *)
Definition stage_CIRC_INIT (w : World) (s : Session) : option Session :=
  s ← match ConfigParser.getVecInt "roi_circ" (_cfg s) with
      | Some cfg_pts =>
          pts ← load_points cfg_pts;
          let s := set_input (set_circPts pts (_input_data s)) s in
          if (3 <=? length pts)%nat then
            let '(c', r') := circleFit_camModel w pts (c s, r s) in
            let s := set_cr c' r' s in
            if dlt 0%Q r' then
              let '(_, s) := waitKey s in
              let s := emit (Printf "Sphere circumference points were found in the config file.") s in
              ask_keep "Would you like to keep the existing circumference points ([y]/n)? "
                       IGNR_INIT s
            else Some s
          else Some s
      | None => Some s
      end;
  if INPUT_MODE_eqb (mode (_input_data s)) CIRC_INIT then
    let s := set_input (set_circPts [] (_input_data s)) s in
    let s := emit (Printf "Define the circumference of the track ball.") s in
    Some (changeState CIRC_PTS s)
  else Some s.

(* lines 473-534 *)
Definition stage_CIRC_PTS (w : World) (s : Session) : option Session :=
  let s :=
    if newEvent (_input_data s) then
      let s :=
        if (3 <=? length (circPts (_input_data s)))%nat then
          let '(c', r') := circleFit_camModel w (circPts (_input_data s)) (c s, r s) in
          set_cr c' r' s
        else set_cr (c s) (-1)%Q s in
      set_input (set_newEvent false (_input_data s)) s
    else s in
  let '(k, s) := waitKey s in
  let s := set_key (to_char k) s in
  if key s =? enter_key w then
    if (3 <=? length (circPts (_input_data s)))%nat then
      let cfg_pts := dump_points (circPts (_input_data s)) in
      let s := emit (Log INF "Adding roi_circ to config file and writing to disk (%s) ...") s in
      let s := cfg_add "roi_circ" (ConfigParser.VVecInt cfg_pts) s in
      let '(ret, s) := write_cfg w s in
      let s :=
        if ret <=? 0 then
          set_open false (emit (Log ERR "Error writing to config file (%s)!") s)
        else s in
      Some (changeState IGNR_INIT s)
    else
      Some (emit (Log WRN "You must select at least 3 circumference points (you have selected %d points)!") s)
  else Some s.

(* lines 537-602 *)
Definition stage_IGNR_INIT (w : World) (s : Session) : option Session :=
  s ← match ConfigParser.getVVecInt "roi_ignr" (_cfg s) with
      | Some cfg_polys =>
          polys ← load_polys cfg_polys [];
          let s := set_input (set_ignrPts polys (_input_data s)) s in
          let '(_, s) := waitKey s in
          let s := emit (Printf "Ignore region points were found in the config file.") s in
          ask_keep "Would you like to keep the existing ignore regions ([y]/n)? "
                   R_INIT s
      | None => Some s
      end;
  if INPUT_MODE_eqb (mode (_input_data s)) IGNR_INIT then
    let s := set_input (set_ignrPts [] (_input_data s)) s in
    let s := emit (Printf "Define ignore regions.") s in
    Some (changeState IGNR_PTS s)
  else Some s.

(* lines 605-669 *)
Definition stage_IGNR_PTS (w : World) (s : Session) : option Session :=
  let '(k, s) := waitKey s in
  let s := set_key (to_char k) s in
  if key s =? enter_key w then
    (* if current poly is empty, assume we've finished *)
    if match ignrPts (_input_data s) with
       | [] => true
       | _ => back_empty (ignrPts (_input_data s))
       end
    then
      let s :=
        match ignrPts (_input_data s) with
        | [] => s
        | _ => set_input (set_ignrPts (pop_back (ignrPts (_input_data s)))
                                      (_input_data s)) s
        end in
      let cfg_polys := map dump_points (ignrPts (_input_data s)) in
      let s := emit (Log INF "Adding roi_ignr to config file and writing to disk (%s) ...") s in
      let s := cfg_add "roi_ignr" (ConfigParser.VVVecInt cfg_polys) s in
      let '(ret, s) := write_cfg w s in
      let s :=
        if ret <=? 0 then
          set_open false (emit (Log ERR "Error writing to config file (%s)!") s)
        else s in
      Some (changeState R_INIT s)
    else
      (* otherwise, start a new poly *)
      Some (emit (Log INF "New ignore region added!")
                 (set_input (addPoly (_input_data s)) s))
  else Some s.

Definition vec3 (v : list double) : CmPoint :=
  (nth 0 v 0%Q, nth 1 v 0%Q, nth 2 v 0%Q).

(* lines 672-763 *)
Definition stage_R_INIT (w : World) (s : Session) : option Session :=
  match ConfigParser.getStr "c2a_src" (_cfg s) with
  | Some src =>
      let s := set_src src s in
      let s := emit (Log DBG "Found c2a_src: %s") s in
      match ConfigParser.getVecInt (cfg_r_src s) (_cfg s) with
      | None =>
          let s := emit (Log DBG "Error reading %s from config file! Re-running configuration ...") s in
          Some (changeState R_SLCT s)
      | Some cfg_pts =>
          pts ← load_points cfg_pts;
          let s := set_input (set_sqrPts pts (_input_data s)) s in
          match ConfigParser.getVecDbl "c2a_r" (_cfg s) with
          | None =>
              let s := emit (Log DBG "Error reading c2a_r from config file! Re-running configuration ...") s in
              Some (changeState R_SLCT s)
          | Some cfg_vec =>
              let s := set_Rt (omegaToMatrix w (vec3 cfg_vec)) (t s) s in
              match ConfigParser.getVecDbl "c2a_t" (_cfg s) with
              | None =>
                  let s := emit (Log DBG "Error reading c2a_t from config file! Re-running configuration ...") s in
                  Some (changeState R_SLCT s)
              | Some cfg_vec =>
                  let '(tx, ty, tz) := vec3 cfg_vec in
                  let s := set_Rt (R s) [tx; ty; tz] s in
                  let '(_, s) := waitKey s in
                  let s := emit (Printf "A camera-animal transform was found in the config file.") s in
                  s ← ask_keep "Would you like to keep the existing transform ([y]/n)? "
                               EXIT s;
                  if INPUT_MODE_eqb (mode (_input_data s)) R_INIT
                  then Some (changeState R_SLCT s) else Some s
              end
          end
      end
  | None =>
      if INPUT_MODE_eqb (mode (_input_data s)) R_INIT
      then Some (changeState R_SLCT s) else Some s
  end.

(* lines 779-828; [str] is the string declared at line 405, which lives
   across the passes of this loop *)
Fixpoint select_method (fuel : nat) (eof : bool) (str : string) (s : Session)
    : option Session :=
  match fuel with
  | O => None
  | S fuel =>
      let s := emit (Printf "Please enter your preferred method [1]: ") s in
      let '(str, eof, s) := getline eof str s in
      let choice :=
        if String.eqb str EmptyString then Some 1 else stoi str in
      match choice with
      | None => select_method fuel eof str (emit (Log WRN "Invalid input!") s)
      | Some 1 => Some (changeState R_XY (emit (Printf "XY-square method.") s))
      | Some 2 => Some (changeState R_YZ (emit (Printf "YZ-square method.") s))
      | Some 3 => Some (changeState R_XZ (emit (Printf "XZ-square method.") s))
      | Some 5 => Some (changeState R_EXT s)
      | Some _ => select_method fuel eof str (emit (Log WRN "Invalid input!") s)
      end
  end.

(* lines 766-829.  [std::cin] is read nowhere else in the two files and is
   taken to be in its initial state when the menu is reached; [str] is
   declared in the body of the outer loop and so starts empty.  A pass that
   asks again has consumed input, unless the stream is at its end, and then
   the loop never ends: this much fuel separates the two. *)
Definition stage_R_SLCT (w : World) (s : Session) : option Session :=
  let s := emit (Printf "Define the animal's coordinate frame.") s in
  select_method (S (length (stdin s))) false EmptyString s.

(* lines 261-316 *)
Definition saveC2ATransform (w : World) (s : Session) : bool * Session :=
  let sqr_type :=
    match mode (_input_data s) with
    | R_XY => "c2a_cnrs_xy"
    | R_YZ => "c2a_cnrs_yz"
    | R_XZ => "c2a_cnrs_xz"
    | _ => EmptyString
    end in
  let cfg_pts := dump_points (sqrPts (_input_data s)) in
  let s := emit (Log INF "Adding %s to config file and writing to disk (%s) ...") s in
  let s := cfg_add sqr_type (ConfigParser.VVecInt cfg_pts) s in
  let s := cfg_add "c2a_src" (ConfigParser.VStr sqr_type) s in
  let '(a0, a1, a2) := matrixToOmega w (R s) in
  let cfg_r := [a0; a1; a2] in
  let cfg_t := [nth 0 (t s) 0%Q; nth 1 (t s) 0%Q; nth 2 (t s) 0%Q] in
  let s := emit (Log INF "Adding c2a_r, c2a_t, and c2a_src to config file and writing to disk (%s) ...") s in
  let s := cfg_add "c2a_r" (ConfigParser.VVecDbl cfg_r) s in
  let s := cfg_add "c2a_t" (ConfigParser.VVecDbl cfg_t) s in
  let '(ret, s) := write_cfg w s in
  if ret <=? 0 then (false, emit (Log ERR "Bad write!") s) else (true, s).

(* lines 321-336 *)
Definition updateC2ATransform (w : World) (ref_cnrs : RefCnrs) (s : Session)
    : bool * Session :=
  if newEvent (_input_data s) then
    let '(ret, (R', t')) :=
      computeRtFromSquare w ref_cnrs (sqrPts (_input_data s)) (R s, t s) in
    (ret, set_input (set_newEvent false (_input_data s)) (set_Rt R' t' s))
  else (false, s).

(** [R.col(2) *= -1] on a 3x3 matrix. *)
Definition negate_col2 (R : Mat64) : Mat64 :=
  imap (fun i v => if (i mod 3 =? 2)%nat then (- v)%Q else v) R.

(* lines 832-878, 881-927, 930-976: the three cases differ in the reference
   corners only *)
Definition stage_R_square (w : World) (ref_cnrs : RefCnrs) (s : Session)
    : option Session :=
  let s :=
    if (length (sqrPts (_input_data s)) =? 4)%nat
    then snd (updateC2ATransform w ref_cnrs s) else s in
  let '(k, s) := waitKey s in
  let s := set_key (to_char k) s in
  if key s =? enter_key w then
    if (length (sqrPts (_input_data s)) =? 4)%nat
       && negb (bool_decide (R s = [])) then
      let '(ok, s) := saveC2ATransform w s in
      let s :=
        if negb ok then
          set_open false (emit (Log ERR "Error writing coordinate transform to config file!") s)
        else s in
      Some (changeState EXIT s)
    else
      Some (emit (Log WRN "You must select exactly 4 corners (you have selected %d points)!") s)
  else if key s =? 102 then                                  (* 0x66, f *)
    if negb (bool_decide (R s = [])) then
      Some (set_input (set_newEvent true (_input_data s))
                      (set_Rt (negate_col2 (R s)) (t s) s))
    else Some s
  else Some s.

(* lines 997-1017 *)
Definition stage_R_EXT (w : World) (s : Session) : option Session :=
  let s :=
    match ConfigParser.getStr "c2a_r" (_cfg s) with
    | None =>
        let s := emit (Log INF "Adding c2a_r to config file and writing to disk (%s) ...") s in
        cfg_add "c2a_r" (ConfigParser.VVecDbl [0%Q; 0%Q; 0%Q]) s
    | Some _ => s
    end in
  let s := cfg_add "c2a_src" (ConfigParser.VStr "ext") s in
  let '(ret, s) := write_cfg w s in
  let s :=
    if ret <=? 0 then
      set_open false (emit (Log ERR "Error writing to config file (%s)!") s)
    else s in
  Some (changeState EXIT s).

(** The body of the [while] loop: one [switch] on the mode.  The [default]
    label is not reached: every value of the enumeration has its case. *)
Definition step (w : World) (s : Session) : option Session :=
  match mode (_input_data s) with
  | CIRC_INIT => stage_CIRC_INIT w s
  | CIRC_PTS => stage_CIRC_PTS w s
  | IGNR_INIT => stage_IGNR_INIT w s
  | IGNR_PTS => stage_IGNR_PTS w s
  | R_INIT => stage_R_INIT w s
  | R_SLCT => stage_R_SLCT w s
  | R_XY => stage_R_square w XY_CNRS s
  | R_YZ => stage_R_square w YZ_CNRS s
  | R_XZ => stage_R_square w XZ_CNRS s
  | R_EXT => stage_R_EXT w s
  | EXIT => Some (set_key exit_key s)
  end.

(** [while (_open && (key != exit_key))]; [None] when the fuel runs out or a
    stage never ends. *)
Fixpoint loop (w : World) (fuel : nat) (s : Session) : option Session :=
  if _open s && negb (key s =? exit_key) then
    match fuel with
    | O => None
    | S fuel => s ← step w s; loop w fuel s
    end
  else Some s.

(** The modes in which the loop body was entered. *)
Fixpoint visited (w : World) (fuel : nat) (s : Session) : list INPUT_MODE :=
  if _open s && negb (key s =? exit_key) then
    match fuel with
    | O => []
    | S fuel =>
        mode (_input_data s) ::
        match step w s with
        | Some s => visited w fuel s
        | None => []
        end
    end
  else [].

(* lines 380-390 *)
Definition begin (s : Session) : Session :=
  let s := set_Rt [] [] s in
  let s := set_cr (0%Q, 0%Q, 0%Q) (-1)%Q s in
  let s := set_key 0 s in
  let s := set_src EmptyString s in
  changeState CIRC_INIT s.

(* line 1063 *)
Definition cfg_img_fn (s : Session) : string :=
  String.substring 0 (Z.to_nat (Z.max (Z.of_nat (String.length (_config_fn s)) - 4) 0))
                   (_config_fn s)
  +:+ "-configImg.png".

(** [getchar_clean] keeps reading for a tenth of a second; the first read is
    the one that always happens. *)
Definition getchar_clean (s : Session) : Z * Session := getchar s.

(* lines 1031-1080 *)
Definition finish (w : World) (s : Session) : bool * Session :=
  let fn := cfg_img_fn s in
  let s := emit (Log INF "Writing config image to disk (%s)..") s in
  let ok := imwrite w fn in
  let s := emit (ImWrite fn ok) s in
  let s := if negb ok then emit (Log ERR "Error writing config image to disk!") s else s in
  let s :=
    if _open s then
      emit (Printf "Press any key to exit..") (emit (Log INF "Configuration complete!") s)
    else
      emit (Printf "Press any key to exit..")
           (emit (Log WRN "Warning! There were errors and the configuration file may not have been properly updated. Please run configuration again.") s) in
  let '(_, s) := getchar_clean s in
  let s := emit (Log INF "Exiting configuration!") s in
  (_open s, s).

(** [ConfigGui::run]. *)
Definition run (w : World) (fuel : nat) (s : Session) : option (bool * Session) :=
  s ← loop w fuel (begin s);
  Some (finish w s).

End ConfigGui.

(** * Specification-side definitions *)

Module Spec.

Import CVSource.

(** A test capture on a capture object: it is open and the frame it hands
    over is not empty. *)
Definition test_capture (c : cv.VideoCapture) : bool :=
  cv.isOpened c && negb (cv.empty (snd (fst (cv.read c)))).

(** The three probes of the spec's resolution order, in the spec's words. *)
Definition camera_probe (w : cv.World) (input : string) : bool :=
  (String.length input <=? 2)%nat &&
  match stoi input with
  | Some id => test_capture (cv.camera w id)
  | None => false
  end.

Definition video_probe (w : cv.World) (input : string) : bool :=
  test_capture (cv.file w input).

Definition image_probe (w : cv.World) (input : string) : bool :=
  negb (cv.empty (cv.imread w input)).

(** Ordered trial, first success wins. *)
Definition classify (w : cv.World) (input : string) : option SourceType :=
  if camera_probe w input then Some CameraId
  else if video_probe w input then Some VideoFile
  else if image_probe w input then Some ImageFile
  else None.

(** An opened still-image source: the cached decode stands in for the
    stream; the capture object of the failed video probe is still held. *)
Definition image_source (s : t) : Prop :=
  _open s = true /\ _is_image s = true /\ is_Some (_cap s).

(** The cached decode as [grab] hands it on: a single row is folded to 240
    rows, the rest is kept. *)
Definition normalised (m : cv.Mat) : option cv.Mat :=
  if cv.rows m =? 1 then cv.reshape m (cv.channels m) 240 else Some m.

Definition to_colour (w : cv.World) (b : BAYER_TYPE) (m : cv.Mat) : cv.Mat :=
  if cv.channels m =? 1 then cv.cvtColor w (bayer_code b) m else m.

Definition trace_of (g : GrabResult) : list Event :=
  match g with
  | Returned _ _ _ tr | Threw _ tr | NullDeref tr => tr
  end.

(** Successive calls of [grab], each on the object and the frame the
    previous call left; the list stops at a call that does not return. *)
Fixpoint grab_n (w : cv.World) (clks : list Clock) (s : t) (frame : cv.Mat)
    : list GrabResult :=
  match clks with
  | [] => []
  | clk :: rest =>
      let g := grab w clk s frame in
      g :: match g with
           | Returned _ frame s _ => grab_n w rest s frame
           | _ => []
           end
  end.

(** The frame a call of [grab] starts from, with the success flag of the
    read that produced it: the cached decode of a still image, else the
    next frame of the stream. *)
Definition frame_in (s : t) : option (bool * cv.Mat) :=
  match _cap s with
  | None => None
  | Some c =>
      if _is_image s then Some (true, _frame_cap s)
      else Some (fst (cv.read c))
  end.

End Spec.

Module GuiSpec.

Import ConfigGui.

Definition left_click (p : Z * Z) (d : INPUT_DATA) : INPUT_DATA :=
  onMouseEvent CV_EVENT_LBUTTONUP (fst p) (snd p) 0 d.

Definition right_click (d : INPUT_DATA) : INPUT_DATA :=
  onMouseEvent CV_EVENT_RBUTTONUP 0 0 0 d.

(** A sequence of left-clicks, first click first. *)
Definition clicks (ps : list (Z * Z)) (d : INPUT_DATA) : INPUT_DATA :=
  fold_left (fun d p => left_click p d) ps d.

(** The modes in which clicks collect points. *)
Definition collecting (m : INPUT_MODE) : bool :=
  match m with
  | CIRC_PTS | IGNR_PTS | R_XY | R_YZ | R_XZ => true
  | _ => false
  end.

(** The points accumulated where the mode collects them; for ignore
    regions, those of the active (last) polygon. *)
Definition active_points (d : INPUT_DATA) : list Point2d.t :=
  match mode d with
  | CIRC_PTS => circPts d
  | IGNR_PTS => default [] (last (ignrPts d))
  | R_XY | R_YZ | R_XZ => sqrPts d
  | _ => []
  end.

(** Points from consecutive coordinate pairs; an unpaired last value is
    left out. *)
Fixpoint pairs (l : list Z) : list Point2d.t :=
  match l with
  | a :: b :: rest => Point2d.of_ints a b :: pairs rest
  | _ => []
  end.

(** The stage a commit hands over to. *)
Definition next_stage (m : INPUT_MODE) : INPUT_MODE :=
  match m with
  | CIRC_PTS => IGNR_INIT
  | IGNR_PTS => R_INIT
  | _ => EXIT
  end.

(** What a pass of the loop did to the store: nothing, or one write, after
    which a failed write has cleared [_open] and the mode is the next
    stage's. *)
Definition store_step (w : World) (s s' : Session) : Prop :=
  let ret := write_result w (ConfigParser.nwrites (_cfg s)) in
  (ConfigParser.nwrites (_cfg s') = ConfigParser.nwrites (_cfg s)
   /\ _open s' = _open s)
  \/ (ConfigParser.nwrites (_cfg s') = S (ConfigParser.nwrites (_cfg s))
      /\ _open s' = (if ret <=? 0 then false else _open s)
      /\ mode (_input_data s') = next_stage (mode (_input_data s))).

(** What one stage leaves alone: the store, the failure flag, and, while the
    mode does not collect clicks, the point containers. *)
Record frame (s s' : Session) : Prop := {
  frame_cfg : _cfg s' = _cfg s;
  frame_open : _open s' = _open s;
  frame_fn : _config_fn s' = _config_fn s;
  frame_pts :
    collecting (mode (_input_data s)) = false ->
    circPts (_input_data s') = circPts (_input_data s)
    /\ ignrPts (_input_data s') = ignrPts (_input_data s)
    /\ sqrPts (_input_data s') = sqrPts (_input_data s)
}.

(** The store and the failure flag are as they were. *)
Definition same_store (s s' : Session) : Prop :=
  _cfg s' = _cfg s /\ _open s' = _open s.

Definition status_failed : Event :=
  Log WRN "Warning! There were errors and the configuration file may not have been properly updated. Please run configuration again.".

Definition status_complete : Event := Log INF "Configuration complete!".

End GuiSpec.

(** * Concrete machines and sessions *)

Module Ex.

Import CVSource.

(** A capture object that failed to open. *)
Definition closed_cap : cv.VideoCapture :=
  {| cv.isOpened := false; cv.pending := [];
     cv.props := fun _ => 0%Q;
     cv.accepts := fun _ _ => false;
     cv.reported := fun _ v => v |}.

(** The object before the constructor body runs. *)
Definition base0 : t :=
  {| _open := false; _live := false; _is_image := false;
     _bayerType := BAYER_NONE; _width := -1; _height := -1;
     _timestamp := (-1)%Q; _ms_since_midnight := (-1)%Q; _fps := (-1)%Q;
     _cap := None; _frame_cap := cv.Mat0; _frame_flp := cv.Mat0;
     statics := None |}.

Definition clk0 : Clock := {| ts_ms := 1000%Q; ms_since_midnight := 5000%Q |}.

(** A 1x2 colour picture (two rows of one pixel). *)
Definition picture : cv.Mat :=
  {| cv.rows := 2; cv.cols := 1; cv.channels := 3; cv.buf := [1; 2; 3; 4; 5; 6] |}.

(** A machine with no camera and one picture file. *)
Definition still_world : cv.World :=
  {| cv.camera := fun _ => closed_cap;
     cv.file := fun _ => closed_cap;
     cv.imread := fun _ => picture;
     cv.cvtColor := fun _ m => m |}.

(** A one-row picture, 100 pixels wide. *)
Definition strip : cv.Mat :=
  {| cv.rows := 1; cv.cols := 100; cv.channels := 3; cv.buf := repeat 0 300 |}.

Definition strip_world : cv.World :=
  {| cv.camera := fun _ => closed_cap;
     cv.file := fun _ => closed_cap;
     cv.imread := fun _ => strip;
     cv.cvtColor := fun _ m => m |}.

(** A 1x480 colour frame delivered flattened to a single row. *)
Definition flat_frame : cv.Mat :=
  {| cv.rows := 1; cv.cols := 480; cv.channels := 3; cv.buf := repeat 7 1440 |}.

(** A camera of width 1 and height 480 that delivers flattened frames and
    honours every request. *)
Definition flat_camera : cv.VideoCapture :=
  {| cv.isOpened := true;
     cv.pending := [flat_frame; flat_frame; flat_frame];
     cv.props := fun p => match p with
                          | CAP_PROP_FRAME_WIDTH => 1%Q
                          | CAP_PROP_FRAME_HEIGHT => 480%Q
                          | CAP_PROP_FPS => 60%Q
                          | _ => 0%Q
                          end;
     cv.accepts := fun _ _ => true;
     cv.reported := fun _ v => v |}.

Definition camera_world : cv.World :=
  {| cv.camera := fun _ => flat_camera;
     cv.file := fun _ => closed_cap;
     cv.imread := fun _ => cv.Mat0;
     cv.cvtColor := fun _ m => m |}.

Definition camera_source : t := fst (new camera_world base0 "0").

End Ex.

Module ExGui.

Import ConfigGui.

Definition origin : Point2d.t := Point2d.of_ints 0 0.

(** Nothing clicked yet, in a given mode. *)
Definition blank (m : INPUT_MODE) : INPUT_DATA :=
  {| newEvent := false; cursorPt := origin; circPts := []; ignrPts := [];
     sqrPts := []; mode := m |}.

(** One polygon of one point, in the ignore-region stage. *)
Definition one_point_polygon : INPUT_DATA :=
  set_ignrPts [[Point2d.of_ints 10 10]] (blank IGNR_PTS).

Definition store0 : ConfigParser.t :=
  {| ConfigParser.mem := ∅; ConfigParser.disk := ∅; ConfigParser.nwrites := 0 |}.

(** A freshly constructed, open object with a given store and a given
    user at the console and the window. *)
Definition session (cfg : ConfigParser.t) (input : list Z)
    (gui : list Tick) : Session :=
  {| _open := true; _config_fn := "config.txt"; _cfg := cfg;
     _input_data := blank CIRC_INIT;
     R := []; t := []; c := (0%Q, 0%Q, 0%Q); r := (-1)%Q; key := 0;
     cfg_r_src := EmptyString;
     stdin := input; ticks := gui; out := [] |}.

Definition identity3 : Mat64 :=
  [1%Q; 0%Q; 0%Q; 0%Q; 1%Q; 0%Q; 0%Q; 0%Q; 1%Q].

(** Geometry that always fits and solves, on a non-Windows machine whose
    n-th config write returns [wr n]. *)
Definition world (wr : nat -> Z) : World :=
  {| WIN32 := false;
     circleFit_camModel := fun _ _ => ((0%Q, 0%Q, 1%Q), 1%Q);
     computeRtFromSquare := fun _ _ _ => (true, (identity3, [0%Q; 0%Q; 1%Q]));
     omegaToMatrix := fun _ => identity3;
     matrixToOmega := fun _ => (0%Q, 0%Q, 0%Q);
     write_result := wr;
     imwrite := fun _ => true |}.

Definition click (x y : Z) : Tick :=
  {| mouse := [(CV_EVENT_LBUTTONDOWN, x, y, 0); (CV_EVENT_LBUTTONUP, x, y, 0)];
     pressed := -1 |}.

Definition press (k : Z) : Tick := {| mouse := []; pressed := k |}.

(** The spec's scenario: three clicks on the circumference, Enter; then no
    ignore region (Enter), and method 5 typed at the menu. *)
Definition three_clicks : list Tick :=
  [click 10 10; click 50 10; click 30 40; press 10; press 10].

Definition scenario : Session := session store0 [53; 10] three_clicks.

Definition disk_ok : nat -> Z := fun _ => 1.
Definition disk_full : nat -> Z := fun _ => 0.

(** Three points clicked, Enter about to be read. *)
Definition ready : Session :=
  set_input (GuiSpec.clicks [(10, 10); (50, 10); (30, 40)] (blank CIRC_PTS))
            (session store0 [] [press 10]).

(** The pass that commits them while the disk is full. *)
Definition after_failed_commit : Session :=
  default ready (step (world disk_full) ready).

End ExGui.

(** * Further specification-side definitions and machines *)

Module SourceSpec.

Import CVSource.

(** The capture pointer is set. *)
Definition has_cap (s : t) : Prop := is_Some (_cap s).

Definition is_sleep (e : Event) : bool :=
  match e with Sleep _ => true | _ => false end.

(** [grab] paces itself: the source is not live and has a positive rate. *)
Definition paced (s : t) : bool := negb (_live s) && dlt 0%Q (_fps s).

(** The object a call leaves behind, whatever way it ends; a null
    dereference leaves none. *)
Definition state_of (g : GrabResult) : option t :=
  match g with
  | Returned _ _ s _ | Threw s _ => Some s
  | NullDeref _ => None
  end.

(** The capture object the successful probe was run on. *)
Definition probed (w : cv.World) (input : string) (k : SourceType)
    : option cv.VideoCapture :=
  match k with
  | CameraId => cv.camera w <$> stoi input
  | VideoFile => Some (cv.file w input)
  | ImageFile => None
  end.

(** The requests [setWH] sends, in order: codec, raw output, width,
    height; whether width and height were honoured, and the capture object
    afterwards. *)
Definition resized (c : cv.VideoCapture) (width height : Z)
    : bool * bool * cv.VideoCapture :=
  let c1 := snd (cv.set c CAP_PROP_FOURCC (inject_Z 1195528775)) in
  let c2 := snd (cv.set c1 CAP_PROP_CONVERT_RGB 0%Q) in
  let '(width_set, c3) := cv.set c2 CAP_PROP_FRAME_WIDTH (inject_Z width) in
  let '(height_set, c4) := cv.set c3 CAP_PROP_FRAME_HEIGHT (inject_Z height) in
  (width_set, height_set, c4).

End SourceSpec.

Module ExSource.

Import CVSource.

(** A 2x1 colour frame. *)
Definition frame_a : cv.Mat :=
  {| cv.rows := 2; cv.cols := 1; cv.channels := 3; cv.buf := [1; 2; 3; 4; 5; 6] |}.

Definition frame_b : cv.Mat :=
  {| cv.rows := 2; cv.cols := 1; cv.channels := 3; cv.buf := [7; 8; 9; 10; 11; 12] |}.

(** A container of given frames that reports a stream position of 40 ms and
    refuses every property request. *)
Definition container (frames : list cv.Mat) : cv.VideoCapture :=
  {| cv.isOpened := true;
     cv.pending := frames;
     cv.props := fun p => match p with
                          | CAP_PROP_FRAME_WIDTH => 1%Q
                          | CAP_PROP_FRAME_HEIGHT => 2%Q
                          | CAP_PROP_POS_MSEC => 40%Q
                          | _ => 0%Q
                          end;
     cv.accepts := fun _ _ => false;
     cv.reported := fun _ v => v |}.

(** A machine without camera whose file holds the given frames. *)
Definition video_world (frames : list cv.Mat) : cv.World :=
  {| cv.camera := fun _ => Ex.closed_cap;
     cv.file := fun _ => container frames;
     cv.imread := fun _ => cv.Mat0;
     cv.cvtColor := fun _ m => m |}.

Definition two_frame_video : t :=
  fst (new (video_world [frame_a; frame_b]) Ex.base0 "run.avi").

Definition one_frame_video : t :=
  fst (new (video_world [frame_a]) Ex.base0 "run.avi").

(** A machine on which nothing opens. *)
Definition empty_world : cv.World :=
  {| cv.camera := fun _ => Ex.closed_cap;
     cv.file := fun _ => Ex.closed_cap;
     cv.imread := fun _ => cv.Mat0;
     cv.cvtColor := fun _ m => m |}.

Definition unresolved : t := fst (new empty_world Ex.base0 "nothing").

(** An object whose header leaves [_live] set before the constructor body
    runs. *)
Definition live_header : t := with_live Ex.base0 true.

End ExSource.

(** * Further notions about the calibration session *)

Module SessionSpec.

Import ConfigGui GuiSpec.

(** A point clicked at integer pixel coordinates. *)
Definition clicked (p : Z * Z) : Point2d.t := Point2d.of_ints (fst p) (snd p).

(** The corner set a square mode works against and the key it stores the
    corners under. *)
Definition square_of (m : INPUT_MODE) : option (RefCnrs * string) :=
  match m with
  | R_XY => Some (XY_CNRS, "c2a_cnrs_xy")
  | R_YZ => Some (YZ_CNRS, "c2a_cnrs_yz")
  | R_XZ => Some (XZ_CNRS, "c2a_cnrs_xz")
  | _ => None
  end.

(** What a stored coordinate comes back as: the store holds
    [static_cast<int>(x + 0.5)]. *)
Definition stored (x : Z) : Z := if 0 <=? x then x else x + 1.

(** The point a later session loads for a point clicked at [p]. *)
Definition came_back (p : Z * Z) : Point2d.t :=
  clicked (stored (fst p), stored (snd p)).

(** The characters a keep-existing prompt acts on: y, Y, newline, n, N. *)
Definition is_answer (ch : Z) : bool :=
  (ch =? 121) || (ch =? 89) || (ch =? 10) || (ch =? 110) || (ch =? 78).

(** The console input holds no answer where a prompt looks for one: each
    pass looks at one character and discards the next. *)
Fixpoint unanswered (l : list Z) : bool :=
  match l with
  | [] => true
  | [a] => negb (is_answer a)
  | a :: _ :: rest => negb (is_answer a) && unanswered rest
  end.

(** What a line typed at the method menu chooses: nothing typed is the
    default, the XY square; 1, 2, 3 and 5 are the four methods. *)
Definition method_of (line : string) : option INPUT_MODE :=
  match line with
  | EmptyString => Some R_XY
  | _ =>
      match stoi line with
      | Some 1 => Some R_XY
      | Some 2 => Some R_YZ
      | Some 3 => Some R_XZ
      | Some 5 => Some R_EXT
      | _ => None
      end
  end.

(** The lines of the console input: what stands before each newline, and
    last what follows the last newline (nothing, when the input ends in a
    newline or is empty). *)
Fixpoint console_lines (l : list Z) : list (list Z) :=
  match l with
  | [] => [[]]
  | ch :: rest =>
      if ch =? 10 then [] :: console_lines rest
      else
        match console_lines rest with
        | a :: ls => (ch :: a) :: ls
        | [] => [[ch]]
        end
  end.

(** The method chosen by the first line that chooses one. *)
Fixpoint first_choice (ls : list (list Z)) : option INPUT_MODE :=
  match ls with
  | [] => None
  | a :: ls =>
      match method_of (string_of_chars a) with
      | Some m => Some m
      | None => first_choice ls
      end
  end.

(** Position of a stage in the order the session goes through them; the
    four ways of defining the transform share one position. *)
Definition rank (m : INPUT_MODE) : nat :=
  match m with
  | CIRC_INIT => 0
  | CIRC_PTS => 1
  | IGNR_INIT => 2
  | IGNR_PTS => 3
  | R_INIT => 4
  | R_SLCT => 5
  | R_XY | R_YZ | R_XZ | R_EXT => 6
  | EXIT => 7
  end.

(** The transitions one pass of the loop can make. *)
Definition follows (m m' : INPUT_MODE) : bool :=
  match m, m' with
  | CIRC_INIT, (CIRC_PTS | IGNR_INIT)
  | CIRC_PTS, (CIRC_PTS | IGNR_INIT)
  | IGNR_INIT, (IGNR_PTS | R_INIT)
  | IGNR_PTS, (IGNR_PTS | R_INIT)
  | R_INIT, (R_SLCT | EXIT)
  | R_SLCT, (R_XY | R_YZ | R_XZ | R_EXT)
  | R_XY, (R_XY | EXIT)
  | R_YZ, (R_YZ | EXIT)
  | R_XZ, (R_XZ | EXIT)
  | R_EXT, EXIT
  | EXIT, EXIT => true
  | _, _ => false
  end.

(** The keys [run] stores under. *)
Definition calibration_keys : list string :=
  ["roi_circ"; "roi_ignr"; "c2a_cnrs_xy"; "c2a_cnrs_yz"; "c2a_cnrs_xz";
   "c2a_src"; "c2a_r"; "c2a_t"].

Definition is_calibration_key (k : string) : bool :=
  existsb (String.eqb k) calibration_keys.

(** The stages entered follow one another by [follows]. *)
Fixpoint in_order (l : list INPUT_MODE) : bool :=
  match l with
  | m :: rest =>
      match rest with
      | m' :: _ => follows m m' && in_order rest
      | [] => true
      end
  | [] => true
  end.

(** What a pass may do to the store: keys that are not calibration keys
    keep their values, and the file is as before or equal to the table. *)
Definition kept (s s' : Session) : Prop :=
  (forall k, is_calibration_key k = false ->
     ConfigParser.mem (_cfg s') !! k = ConfigParser.mem (_cfg s) !! k)
  /\ (ConfigParser.disk (_cfg s') = ConfigParser.disk (_cfg s)
      \/ ConfigParser.disk (_cfg s') = ConfigParser.mem (_cfg s')).

End SessionSpec.

Module ExSession.

Import ConfigGui.

(** Four corners clicked in the XY-square mode, Enter about to be read. *)
Definition four_corners : Session :=
  set_input (GuiSpec.clicks [(0, 0); (10, 0); (10, 10); (0, 10)]
                            (ExGui.blank R_XY))
            (ExGui.session ExGui.store0 [] [ExGui.press 10]).

(** The scenario with the three buttons released left of and above the
    image: clicks at (-5,-1), (0,-7), (3,4), Enter; then no ignore region
    and method 5. *)
Definition outside_clicks : Session :=
  ExGui.session ExGui.store0 [53; 10]
    [ExGui.click (-5) (-1); ExGui.click 0 (-7); ExGui.click 3 4;
     ExGui.press 10; ExGui.press 10].

(** One ignore region of one point clicked at (-1,-1), closed by a first
    Enter; the second Enter is about to be read. *)
Definition region_outside : Session :=
  set_input
    (set_ignrPts [[SessionSpec.clicked (-1, -1)]; []] (ExGui.blank IGNR_PTS))
    (ExGui.session ExGui.store0 [] [ExGui.press 10]).



(** The external method just chosen at the menu. *)
Definition external_chosen : Session :=
  set_input (ExGui.blank R_EXT) (ExGui.session ExGui.store0 [] []).

(** The session after the pass that commits it. *)
Definition after_external : Session :=
  default external_chosen (step (ExGui.world ExGui.disk_ok) external_chosen).

(** A later session whose store is what that pass wrote to the file, at
    the transform stage. *)
Definition reloaded : Session :=
  set_input (ExGui.blank R_INIT)
    (ExGui.session
       {| ConfigParser.mem := ConfigParser.disk (_cfg after_external);
          ConfigParser.disk := ConfigParser.disk (_cfg after_external);
          ConfigParser.nwrites := 0 |} [] []).

(** At the method menu, the console at its end. *)
Definition at_menu : Session :=
  set_input (ExGui.blank R_SLCT) (ExGui.session ExGui.store0 [] []).

(** At the method menu, the console input ending in [4] with no newline. *)
Definition unterminated : Session :=
  set_input (ExGui.blank R_SLCT) (ExGui.session ExGui.store0 [52] []).

(** At the method menu, [4] on a first line and [2] on a second. *)
Definition second_try : Session :=
  set_input (ExGui.blank R_SLCT)
            (ExGui.session ExGui.store0 [52; 10; 50; 10; 121] []).

(** Collecting circumference points, Escape about to be read. *)
Definition escaping : Session :=
  set_input (ExGui.blank CIRC_PTS)
            (ExGui.session ExGui.store0 [] [ExGui.press 27]).

(** The scenario of three clicks and method 5, on a store that also holds
    the field of view. *)
Definition with_vfov : Session :=
  ExGui.session
    {| ConfigParser.mem := {[ "vfov" := ConfigParser.VStr "45" ]};
       ConfigParser.disk := {[ "vfov" := ConfigParser.VStr "45" ]};
       ConfigParser.nwrites := 0 |}
    [53; 10] ExGui.three_clicks.

(** A session at its start whose store holds two circumference points. *)
Definition two_stored_points : Session :=
  ExGui.session
    {| ConfigParser.mem :=
         {[ "roi_circ" := ConfigParser.VVecInt [10; 10; 50; 10] ]};
       ConfigParser.disk := ∅;
       ConfigParser.nwrites := 0 |}
    [121; 10] [].

End ExSession.

(** * ConfigGUI.cpp: construction *)

Module ConfigGuiCtor.

(** Modelled from the spec: the parser's [read], its string look-up
    [_cfg(key)] and [getDbl] are not part of the sources; the spec has the
    store hold src_fn as a string and vfov as a float.  With them, what the
    constructor consults besides the captures: OpenCV's gray-scale decode and
    conversion, and the contrast stretch. *)
Record Env := {
  read : string -> Z * ConfigParser.t;        (* return code, loaded table *)
  lookup_string : string -> ConfigParser.t -> string;
  getDbl : string -> ConfigParser.t -> option double;
  imread_gray : string -> cv.Mat;
  bgr2gray : cv.Mat -> cv.Mat;
  histStretch : cv.Mat -> cv.Mat
}.

(** The members the constructor and [setFrame] assign; the camera model
    is a function of [_w], [_h] and vfov and is left out. *)
Record t := {
  _open : bool;
  _config_fn : string;
  _cfg : ConfigParser.t;
  _frame : cv.Mat;
  _w : Z;
  _h : Z
}.

Definition with_open (o : t) (b : bool) : t :=
  {| _open := b; _config_fn := _config_fn o; _cfg := _cfg o;
     _frame := _frame o; _w := _w o; _h := _h o |}.

Definition with_frame (o : t) (f : cv.Mat) : t :=
  {| _open := _open o; _config_fn := _config_fn o; _cfg := _cfg o;
     _frame := f; _w := cv.cols f; _h := cv.rows f |}.

(* lines 223-256 *)
Definition setFrame (e : Env) (o : t) (frame : cv.Mat)
    : bool * t * list Event :=
  let gray :=
    if cv.channels frame =? 3 then Some (bgr2gray e frame)
    else if cv.channels frame =? 1 then Some frame
    else None in
  match gray with
  | None => (false, o, [Log ERR "Unexpected number of image channels (%d)!"])
  | Some g =>
      let o := with_frame o (histStretch e g) in
      let vfov := default 0%Q (getDbl e "vfov" (_cfg o)) in
      if dle vfov 0%Q
      then (false, o, [Log ERR "vfov parameter must be > 0 (%f)!"])
      else (true, o, [Log INF "Using vfov: %f deg"])
  end.

(** One [try] block of the constructor: the frame it left in
    [input_frame], and whether it ran to its end. *)
Inductive Attempt :=
| Loaded (input_frame : cv.Mat) (tr : list Event)
| Failed (input_frame : cv.Mat) (tr : list Event).

(* lines 173-178 *)
Definition try_image (e : Env) (input_fn : string) : Attempt :=
  let tr := [Log DBG "Trying to load input %s as image ..."; ImRead input_fn] in
  let input_frame := imread_gray e input_fn in
  if cv.empty input_frame then Failed input_frame tr
  else Loaded input_frame
         (tr ++ [Log INF "Input frame read from image file (%s)."]).

(* lines 181-188 *)
Definition try_camera (w : cv.World) (input_fn : string)
    (input_frame : cv.Mat) : Attempt :=
  let tr := [Log DBG "Trying to load input %s as camera id ..."] in
  match stoi input_fn with
  | None => Failed input_frame tr
  | Some id =>
      let '(_, input_frame, _) := cv.read (cv.camera w id) in
      let tr := tr ++ [CapOpenCamera id; CapRead] in
      if cv.empty input_frame then Failed input_frame tr
      else Loaded input_frame (tr ++ [Log INF "Input frame read from camera (%d)."])
  end.

(* lines 191-197 *)
Definition try_video (w : cv.World) (input_fn : string) : Attempt :=
  let tr := [Log DBG "Trying to load input %s as video file ..."] in
  let '(_, input_frame, _) := cv.read (cv.file w input_fn) in
  let tr := tr ++ [CapOpenFile input_fn; CapRead] in
  if cv.empty input_frame then Failed input_frame tr
  else Loaded input_frame
         (tr ++ [Log INF "Input frame read from video file (%s)."]).

(* lines 172-204: the nested try/catch chain *)
Definition load (e : Env) (w : cv.World) (input_fn : string)
    : cv.Mat * bool * list Event :=
  match try_image e input_fn with
  | Loaded f tr => (f, true, tr)
  | Failed f tr1 =>
      match try_camera w input_fn f with
      | Loaded f tr2 => (f, true, tr1 ++ tr2)
      | Failed _ tr2 =>
          match try_video w input_fn with
          | Loaded f tr3 => (f, true, tr1 ++ tr2 ++ tr3)
          | Failed f tr3 =>
              (f, false,
               tr1 ++ tr2 ++ tr3
                 ++ [Log ERR "Could not read frame from input (%s)!"])
          end
      end
  end.

(** [ConfigGui::ConfigGui(config_fn)] (lines 153-212).  [base] is the
    object as its members' default initialisation leaves it. *)
Definition new (e : Env) (w : cv.World) (base : t) (config_fn : string)
    : t * list Event :=
  let '(ret, cfg) := read e config_fn in
  let o := {| _open := 0 <? ret; _config_fn := config_fn; _cfg := cfg;
              _frame := _frame base; _w := _w base; _h := _h base |} in
  let input_fn := if _open o then lookup_string e "src_fn" cfg
                  else EmptyString in
  let o := if _open o && String.eqb input_fn EmptyString
           then with_open o false else o in
  if _open o then
    let '(input_frame, ok, tr) := load e w input_fn in
    let o := if ok then o else with_open o false in
    let o := if cv.empty input_frame then with_open o false else o in
    if _open o then
      let '(ret, o, tr2) := setFrame e o input_frame in
      (with_open o ret, tr ++ tr2)
    else (o, tr)
  else (o, []).

End ConfigGuiCtor.

Module CtorSpec.

Import ConfigGuiCtor.

(** The frame a capture hands over first. *)
Definition first_frame (c : cv.VideoCapture) : cv.Mat := snd (fst (cv.read c)).

(** The frames the input name can stand for, in the order the constructor
    considers them: the decoded image, the first frame of the camera of
    that number if the name parses as one, the first frame of the video. *)
Definition candidates (e : Env) (w : cv.World) (input_fn : string)
    : list cv.Mat :=
  imread_gray e input_fn
  :: match stoi input_fn with
     | Some id => [first_frame (cv.camera w id)]
     | None => []
     end
  ++ [first_frame (cv.file w input_fn)].

Definition chosen (e : Env) (w : cv.World) (input_fn : string)
    : option cv.Mat :=
  List.find (fun f => negb (cv.empty f)) (candidates e w input_fn).

Definition is_camera_open (ev : Event) : bool :=
  match ev with CapOpenCamera _ => true | _ => false end.

Definition is_probe (ev : Event) : bool :=
  match ev with
  | ImRead _ | CapOpenCamera _ | CapOpenFile _ | CapRead => true
  | _ => false
  end.

End CtorSpec.

Module ExCtor.

Import ConfigGuiCtor.

(** A gray picture of two rows. *)
Definition gray_picture : cv.Mat :=
  {| cv.rows := 2; cv.cols := 1; cv.channels := 1; cv.buf := [1; 2] |}.

(** A machine whose configuration file names the source 100 and a field of
    view of 45 degrees; no image of that name decodes. *)
Definition env : Env :=
  {| read := fun _ => (1, ExGui.store0);
     lookup_string := fun _ _ => "100";
     getDbl := fun _ _ => Some 45%Q;
     imread_gray := fun _ => cv.Mat0;
     bgr2gray := fun m => {| cv.rows := cv.rows m; cv.cols := cv.cols m;
                             cv.channels := 1; cv.buf := [] |};
     histStretch := fun m => m |}.

(** The same machine with a picture that decodes under every name; its
    configuration file names the source 0. *)
Definition env_picture : Env :=
  {| read := fun _ => (1, ExGui.store0);
     lookup_string := fun _ _ => "0";
     getDbl := fun _ _ => Some 45%Q;
     imread_gray := fun _ => gray_picture;
     bgr2gray := bgr2gray env;
     histStretch := fun m => m |}.

Definition base0 : t :=
  {| _open := false; _config_fn := EmptyString; _cfg := ExGui.store0;
     _frame := cv.Mat0; _w := 0; _h := 0 |}.

End ExCtor.

(** * Keeping a stored calibration; streams of frames *)

Module KeepSpec.

Import ConfigGui GuiSpec.

(** What a pass that only consults the user leaves alone. *)
Record carried (s s' : Session) : Prop := {
  carried_cfg : _cfg s' = _cfg s;
  carried_open : _open s' = _open s;
  carried_key : key s' = key s
}.

(** The polygons a later session loads from stored coordinate lists. *)
Definition loaded_polys (cfg_polys : list (list Z)) : list (list Point2d.t) :=
  filter (fun tmp => tmp <> []) (map pairs cfg_polys).

End KeepSpec.

Module ExKeep.

Import ConfigGui.




(** A later session started on the file a session left behind, about to
    enter the stage [m]; Enter is typed at the first prompt. *)
Definition later (s1 : Session) (m : INPUT_MODE) : Session :=
  set_input (ExGui.blank m)
    (ExGui.session
       {| ConfigParser.mem := ConfigParser.disk (_cfg s1);
          ConfigParser.disk := ConfigParser.disk (_cfg s1);
          ConfigParser.nwrites := 0 |}
       [10] []).

End ExKeep.

Module StreamSpec.

Import CVSource.

(** A frame [grab] can hand on as it is: not empty and not flattened to a
    single row. *)
Definition usable (f : cv.Mat) : bool :=
  negb (cv.empty f) && negb (cv.rows f =? 1).

(** How a call ended: its return value, or none when it did not return. *)
Definition outcome (g : GrabResult) : option bool :=
  match g with
  | Returned b _ _ _ => Some b
  | _ => None
  end.

(** The frames handed over by the calls that returned true. *)
Definition handed_over (gs : list GrabResult) : list cv.Mat :=
  omap (fun g => match g with
                 | Returned true fr _ _ => Some fr
                 | _ => None
                 end) gs.

End StreamSpec.

Module ExStream.

(** A video of three frames, opened by the constructor. *)
Definition three_frames : list cv.Mat :=
  [ExSource.frame_a; ExSource.frame_b; ExSource.frame_a].

Definition opened : CVSource.t :=
  fst (CVSource.new (ExSource.video_world three_frames) Ex.base0 "movie.avi").

End ExStream.

(** * Theorems *)

Section CVSourceFacts.

Import CVSource.

Ltac conj := repeat split; simpl; eauto.

Lemma try_camera_spec w input s :
  match try_camera w input s with
  | Done s' tr =>
      Spec.camera_probe w input = true /\ classifications tr = [CameraId]
      /\ _open s' = true /\ _live s' = true /\ _is_image s' = _is_image s
      /\ _frame_cap s' = _frame_cap s /\ is_Some (_cap s')
  | Thrown s' tr =>
      Spec.camera_probe w input = false /\ classifications tr = []
      /\ _open s' = _open s /\ _live s' = _live s
      /\ _is_image s' = _is_image s /\ _frame_cap s' = _frame_cap s
  end.
Proof.
  unfold try_camera, Spec.camera_probe, Spec.test_capture.
  destruct (Z.ltb_spec 2 (Z.of_nat (String.length input))) as [Hlen|Hlen].
  - replace (String.length input <=? 2)%nat with false
      by (symmetry; apply Nat.leb_gt; lia).
    simpl. conj.
  - replace (String.length input <=? 2)%nat with true
      by (symmetry; apply Nat.leb_le; lia).
    simpl. destruct (stoi input) as [id|]; [|simpl; conj].
    destruct (cv.isOpened (cv.camera w id)) eqn:Hop; simpl; [|conj].
    destruct (cv.read (cv.camera w id)) as [[ok f] c'] eqn:Hrd. simpl.
    destruct (cv.empty f); simpl; conj.
Qed.

Lemma try_video_spec w input s :
  match try_video w input s with
  | Done s' tr =>
      Spec.video_probe w input = true /\ classifications tr = [VideoFile]
      /\ _open s' = true /\ _live s' = false /\ _is_image s' = _is_image s
      /\ _frame_cap s' = _frame_cap s /\ is_Some (_cap s')
  | Thrown s' tr =>
      Spec.video_probe w input = false /\ classifications tr = []
      /\ _open s' = _open s /\ _live s' = _live s
      /\ _is_image s' = _is_image s /\ _frame_cap s' = _frame_cap s
      /\ is_Some (_cap s')
  end.
Proof.
  unfold try_video, Spec.video_probe, Spec.test_capture.
  destruct (cv.isOpened (cv.file w input)) eqn:Hop; simpl; [|conj].
  destruct (cv.read (cv.file w input)) as [[ok f] c'] eqn:Hrd. simpl.
  destruct (cv.empty f); simpl; conj.
Qed.

Lemma try_image_spec w input s :
  match try_image w input s with
  | Done s' tr =>
      Spec.image_probe w input = true /\ classifications tr = [ImageFile]
      /\ _open s' = true /\ _live s' = false /\ _is_image s' = true
      /\ _frame_cap s' = cv.imread w input /\ _cap s' = _cap s
  | Thrown s' tr =>
      Spec.image_probe w input = false /\ classifications tr = []
      /\ _open s' = _open s /\ _live s' = _live s
      /\ _is_image s' = _is_image s /\ _cap s' = _cap s
  end.
Proof.
  unfold try_image, Spec.image_probe. simpl.
  destruct (cv.empty (cv.imread w input)); simpl; conj.
Qed.

Lemma classifications_app tr1 tr2 :
  classifications (tr1 ++ tr2) = classifications tr1 ++ classifications tr2.
Proof. apply omap_app. Qed.

(** What the try/catch chain leaves behind, side by side with the spec's
    ordered trial. *)
Lemma resolve_spec w input s :
  let r := resolve w input s in
  classifications (snd r) = option_list (Spec.classify w input)
  /\ _open (fst r) = bool_decide (is_Some (Spec.classify w input))
  /\ _live (fst r) =
       match Spec.classify w input with
       | Some CameraId => true
       | Some _ => false
       | None => _live s
       end
  /\ _is_image (fst r) =
       match Spec.classify w input with
       | Some ImageFile => true
       | _ => _is_image s
       end
  /\ is_Some (_cap (fst r))
  /\ (Spec.classify w input = Some ImageFile ->
      _frame_cap (fst r) = cv.imread w input).
Proof.
  unfold resolve, Spec.classify.
  pose proof (try_camera_spec w input s) as Hc.
  destruct (try_camera w input s) as [s1 tr1|s1 tr1].
  { destruct Hc as (-> & Hcl & Ho & Hl & Hi & Hf & Hcap). simpl.
    rewrite Hcl, Ho, Hl, Hi. conj. discriminate. }
  destruct Hc as (-> & Hcl1 & Ho1 & Hl1 & Hi1 & Hf1).
  pose proof (try_video_spec w input s1) as Hv.
  destruct (try_video w input s1) as [s2 tr2|s2 tr2].
  { destruct Hv as (-> & Hcl & Ho & Hl & Hi & Hf & Hcap). simpl.
    rewrite classifications_app, Hcl1, Hcl, Ho, Hl, Hi, Hi1. conj.
    discriminate. }
  destruct Hv as (-> & Hcl2 & Ho2 & Hl2 & Hi2 & Hf2 & Hcap2).
  pose proof (try_image_spec w input s2) as Him.
  destruct (try_image w input s2) as [s3 tr3|s3 tr3].
  { destruct Him as (-> & Hcl & Ho & Hl & Hi & Hf & Hcap). simpl.
    rewrite !classifications_app, Hcl1, Hcl2, Hcl, Ho, Hl, Hi, Hcap. conj. }
  destruct Him as (-> & Hcl3 & Ho3 & Hl3 & Hi3 & Hcap3). simpl.
  rewrite !classifications_app, Hcl1, Hcl2, Hcl3, Hl3, Hl2, Hl1, Hi3, Hi2, Hi1, Hcap3.
  conj. discriminate.
Qed.

(** The constructor's tail (lines 74-93) touches neither the flags nor the
    announcements. *)
Lemma new_tail w base input :
  let r0 := resolve w input (with_is_image base false) in
  let r := new w base input in
  classifications (snd r) = classifications (snd r0)
  /\ _open (fst r) = _open (fst r0)
  /\ _live (fst r) = _live (fst r0)
  /\ _is_image (fst r) = _is_image (fst r0)
  /\ _cap (fst r) = _cap (fst r0)
  /\ _frame_cap (fst r) = _frame_cap (fst r0).
Proof.
  unfold new.
  destruct (resolve w input (with_is_image base false)) as [s tr].
  unfold getFPS.
  destruct (_open s) eqn:Hopen; [|simpl; conj].
  destruct (_is_image s) eqn:Himg, (_live s) eqn:Hlive, (_cap s) eqn:Hc;
    simpl; rewrite ?Hopen, ?Himg, ?Hlive, ?Hc; simpl;
    rewrite ?classifications_app; simpl; rewrite ?app_nil_r; conj.
Qed.

Lemma new_spec w base input :
  let r := new w base input in
  classifications (snd r) = option_list (Spec.classify w input)
  /\ _open (fst r) = bool_decide (is_Some (Spec.classify w input))
  /\ _live (fst r) =
       match Spec.classify w input with
       | Some CameraId => true
       | Some _ => false
       | None => _live base
       end
  /\ _is_image (fst r) =
       match Spec.classify w input with
       | Some ImageFile => true
       | _ => false
       end
  /\ is_Some (_cap (fst r))
  /\ (Spec.classify w input = Some ImageFile ->
      _frame_cap (fst r) = cv.imread w input).
Proof.
  pose proof (new_tail w base input) as H. cbv zeta in H |- *.
  destruct H as (-> & -> & -> & -> & -> & ->).
  apply (resolve_spec w input (with_is_image base false)).
Qed.

(** C2. Opening resolves the token by ordered trial: camera id only for a
    token of at most two characters that parses as an integer and passes a
    test capture, otherwise a video stream that passes a test capture,
    otherwise a still image that decodes.  The constructor announces exactly
    the first probe that succeeds and hence at most one of camera, video and
    image; the source is open exactly when one is announced.  An opened
    source is live exactly when that one is camera; when every probe fails
    nothing is announced and [_live] is not written, so it keeps the value
    the header gave it.  The image flag is set exactly when image is
    announced. *)
Theorem open_ordered_trial (w : cv.World) (base : t) (input : string) :
  let s := fst (new w base input) in
  let announced := classifications (snd (new w base input)) in
  announced = option_list (Spec.classify w input)
  /\ (length announced <= 1)%nat
  /\ (_open s = true <-> exists k, announced = [k])
  /\ (_open s = true -> (_live s = true <-> announced = [CameraId]))
  /\ (_open s = false -> announced = [] /\ _live s = _live base)
  /\ (_is_image s = true <-> announced = [ImageFile]).
Proof.
  destruct (new_spec w base input) as (Hcl & Ho & Hl & Hi & _).
  cbv zeta. rewrite Hcl, Ho, Hl, Hi.
  destruct (Spec.classify w input) as [[| |]|]; simpl.
  all: repeat split; try lia; try (intros; discriminate);
    try reflexivity.
  all: try (intros _; eauto; fail).
  all: try (intros [k Hk]; discriminate).
  all: try (intros _; apply bool_decide_eq_true; eauto).
  all: try (intros H; apply bool_decide_eq_true in H; destruct H; discriminate).
  all: try (intros H; apply bool_decide_eq_false in H; exfalso; apply H; eauto).
Qed.

(** C2, as stated, fails where nothing opens: on a machine without camera,
    video or picture, an object whose [_live] was set before the constructor
    body ran comes out with no classification and [_live] still set, so
    live does not imply camera there. *)
Lemma failed_open_keeps_live :
  let r := new ExSource.empty_world ExSource.live_header "nothing" in
  classifications (snd r) = []
  /\ _open (fst r) = false
  /\ _live (fst r) = true
  /\ ~ (_live (fst r) = true <-> classifications (snd r) = [CameraId]).
Proof.
  cbv zeta.
  assert (Hc : classifications
                 (snd (new ExSource.empty_world ExSource.live_header
                         "nothing")) = [])
    by (vm_compute; reflexivity).
  assert (Hl : _live (fst (new ExSource.empty_world ExSource.live_header
                             "nothing")) = true)
    by (vm_compute; reflexivity).
  split; [exact Hc|]. split; [vm_compute; reflexivity|]. split; [exact Hl|].
  rewrite Hc, Hl. intros [H _]. specialize (H eq_refl). discriminate H.
Qed.

(** *** grab on a still image *)

Lemma reshape_rows m cn m' :
  cv.rows m = 1 -> cv.reshape m cn 240 = Some m' ->
  cv.rows m' = 240 /\ cv.channels m' = (if cn =? 0 then cv.channels m else cn).
Proof.
  intros Hr. unfold cv.reshape. rewrite Hr.
  replace (240 =? 0) with false by reflexivity.
  rewrite andb_false_r. simpl.
  destruct (cv.cols m * cv.channels m * 1 <? 240); [discriminate|].
  destruct (negb (_ =? cv.cols m * cv.channels m * 1)); [discriminate|].
  destruct (negb _); [discriminate|].
  intros [= <-]. simpl. auto.
Qed.

Lemma normalised_rows m m' :
  Spec.normalised m = Some m' -> cv.rows m' <> 1.
Proof.
  unfold Spec.normalised.
  destruct (Z.eqb_spec (cv.rows m) 1) as [E|E].
  - intros H. apply reshape_rows in H; [|exact E]. lia.
  - intros [= <-]. exact E.
Qed.

Lemma normalised_idem m m' :
  Spec.normalised m = Some m' -> Spec.normalised m' = Some m'.
Proof.
  intros H. apply normalised_rows in H. unfold Spec.normalised.
  destruct (Z.eqb_spec (cv.rows m') 1); [contradiction|reflexivity].
Qed.

Lemma grab_image w clk s frame cache :
  Spec.image_source s ->
  Spec.normalised (_frame_cap s) = Some cache ->
  exists s' tr,
    grab w clk s frame =
      Returned true (cv.flip0 (Spec.to_colour w (_bayerType s) cache)) s' tr
    /\ existsb is_cap_read tr = false
    /\ In (CapGet CAP_PROP_POS_MSEC) tr
    /\ Spec.image_source s'
    /\ _frame_cap s' = cache
    /\ _bayerType s' = _bayerType s.
Proof.
  intros (Hopen & Himg & [c Hc]) Hn.
  unfold grab, grab_read. rewrite Hopen, Himg. simpl. rewrite Hc, Himg.
  set (s1 := if dle _ _ then _ else _).
  assert (Hs1 : _frame_cap s1 = _frame_cap s /\ _open s1 = true
                /\ _is_image s1 = true /\ _cap s1 = Some c
                /\ _bayerType s1 = _bayerType s).
  { subst s1. destruct (dle _ _); simpl; conj. }
  destruct Hs1 as (Hf1 & Ho1 & Hi1 & Hc1 & Hb1).
  unfold grab_reshape, Spec.normalised in *. rewrite Hf1.
  destruct (cv.rows (_frame_cap s) =? 1).
  - rewrite Hn. unfold grab_colour, Spec.to_colour. simpl.
    unfold grab_pace.
    destruct (cv.channels cache =? 1), (negb _ && dlt _ _); simpl;
      rewrite ?Hb1;
      eexists _, _; (split; [reflexivity|]); simpl;
      rewrite ?Ho1, ?Hi1, ?Hc1, ?Hb1; unfold Spec.image_source; simpl;
      rewrite ?Ho1, ?Hi1, ?Hc1; conj.
  - injection Hn as <-. unfold grab_colour, Spec.to_colour. rewrite Hf1.
    unfold grab_pace.
    destruct (cv.channels (_frame_cap s) =? 1), (negb _ && dlt _ _); simpl;
      rewrite ?Hb1;
      eexists _, _; (split; [reflexivity|]); simpl;
      rewrite ?Ho1, ?Hi1, ?Hc1, ?Hb1, ?Hf1; unfold Spec.image_source; simpl;
      rewrite ?Ho1, ?Hi1, ?Hc1, ?Hf1; conj.
Qed.

Lemma new_image_source w base input :
  Spec.classify w input = Some ImageFile ->
  Spec.image_source (fst (new w base input))
  /\ _frame_cap (fst (new w base input)) = cv.imread w input.
Proof.
  intros Hcls.
  destruct (new_spec w base input) as (_ & Ho & _ & Hi & Hcap & Hf).
  rewrite Hcls in Ho, Hi. unfold Spec.image_source. conj.
Qed.

Lemma grab_n_image w clks : forall s frame cache b,
  Spec.image_source s ->
  Spec.normalised (_frame_cap s) = Some cache ->
  _bayerType s = b ->
  length (Spec.grab_n w clks s frame) = length clks
  /\ Forall (fun g => exists s' tr,
               g = Returned true (cv.flip0 (Spec.to_colour w b cache)) s' tr
               /\ existsb is_cap_read tr = false)
            (Spec.grab_n w clks s frame).
Proof.
  induction clks as [|clk rest IH]; intros s frame cache b Hs Hn Hb.
  - simpl. split; [reflexivity|constructor].
  - simpl.
    destruct (grab_image w clk s frame cache Hs Hn)
      as (s' & tr & -> & Hnr & _ & Hs' & Hf' & Hb').
    rewrite Hb in *.
    destruct (IH s' (cv.flip0 (Spec.to_colour w b cache)) cache b)
      as (Hlen & Hall); auto.
    { rewrite Hf'. eapply normalised_idem. exact Hn. }
    split; [simpl; congruence|].
    constructor; [eauto|exact Hall].
Qed.

Lemma grab_false_iff w clk s frame :
  (exists fr s' tr, grab w clk s frame = Returned false fr s' tr)
  <-> _open s = false
      \/ (_open s = true /\ _is_image s = false
          /\ exists c, _cap s = Some c /\ fst (fst (cv.read c)) = false).
Proof.
  unfold grab, grab_read.
  destruct (_open s) eqn:Hopen; simpl.
  2:{ split; [auto|]. intros _. eauto. }
  destruct (_is_image s) eqn:Himg; simpl.
  - rewrite Himg.
    split; [|intros [H|(_ & H & _)]; discriminate].
    intros (fr & s' & tr & H). exfalso.
    destruct (_cap s); [|discriminate].
    destruct (grab_reshape _) as [[s2 tr2]|]; [|discriminate].
    destruct (grab_pace _ _). discriminate.
  - destruct (_cap s) as [c|] eqn:Hc.
    2:{ split; [intros (? & ? & ? & H); discriminate|].
        intros [H|(_ & _ & c & H & _)]; discriminate. }
    destruct (cv.read c) as [[ok f] c'] eqn:Hrd. simpl.
    destruct ok; simpl.
    + rewrite Himg.
      split.
      * intros (fr & s' & tr & H). exfalso.
        destruct (grab_reshape _) as [[s2 tr2]|]; [|discriminate].
        destruct (grab_pace _ _). discriminate.
      * intros [H|(_ & _ & c0 & [= <-] & H)]; [discriminate|].
        rewrite Hrd in H. discriminate.
    + split; [|eauto].
      intros _. right. split; [reflexivity|]. split; [reflexivity|].
      exists c. split; [reflexivity|]. rewrite Hrd. reflexivity.
Qed.

(** C1 (as the code has it). For a source opened as a still image whose
    decode [grab] can hand on (it does not have exactly one row, or it has
    and its size is a multiple of 240), every call of [grab] returns true
    with the cached decode, promoted to colour when single-channel and
    flipped vertically, and no call reads a frame from the capture
    backend.  For any source, [grab] returns false exactly when the source
    is unopened or the backend read fails. *)
Theorem grab_still_image (w : cv.World) (base : t) (input : string)
    (clks : list Clock) (frame cache : cv.Mat) :
  Spec.classify w input = Some ImageFile ->
  Spec.normalised (cv.imread w input) = Some cache ->
  let s := fst (new w base input) in
  length (Spec.grab_n w clks s frame) = length clks
  /\ Forall (fun g => exists s' tr,
               g = Returned true
                     (cv.flip0 (Spec.to_colour w (_bayerType s) cache)) s' tr
               /\ existsb is_cap_read tr = false)
            (Spec.grab_n w clks s frame)
  /\ forall clk s0 fr,
       (exists fr' s' tr, grab w clk s0 fr = Returned false fr' s' tr)
       <-> _open s0 = false
           \/ (_open s0 = true /\ _is_image s0 = false
               /\ exists c, _cap s0 = Some c
                            /\ fst (fst (cv.read c)) = false).
Proof.
  intros Hcls Hn s.
  destruct (new_image_source w base input Hcls) as (Hs & Hf).
  fold s in Hs, Hf. rewrite <- Hf in Hn.
  destruct (grab_n_image w clks s frame cache (_bayerType s) Hs Hn eq_refl)
    as (Hlen & Hall).
  split; [exact Hlen|]. split; [exact Hall|].
  intros clk s0 fr. apply grab_false_iff.
Qed.

(** *** grab on any opened source *)

Lemma grab_returns w clk s frame f cache :
  _open s = true ->
  Spec.frame_in s = Some (true, f) ->
  Spec.normalised f = Some cache ->
  exists s' tr,
    grab w clk s frame =
      Returned true (cv.flip0 (Spec.to_colour w (_bayerType s) cache)) s' tr
    /\ _frame_cap s' = cache /\ _height s' = _height s.
Proof.
  intros Hopen Hin Hn. unfold Spec.frame_in in Hin.
  destruct (_cap s) as [c|] eqn:Hc; [|discriminate].
  unfold grab, grab_read. rewrite Hopen, Hc. simpl.
  destruct (_is_image s) eqn:Himg.
  - injection Hin as <-. rewrite Hc, Himg.
    set (s1 := if dle _ _ then _ else _).
    assert (Hs1 : _frame_cap s1 = _frame_cap s /\ _height s1 = _height s
                  /\ _bayerType s1 = _bayerType s).
    { subst s1. destruct (dle _ _); simpl; conj. }
    destruct Hs1 as (Hf1 & Hh1 & Hb1).
    unfold grab_reshape, Spec.normalised in *. rewrite Hf1.
    destruct (cv.rows (_frame_cap s) =? 1).
    + rewrite Hn. unfold grab_colour, Spec.to_colour, grab_pace. simpl.
      destruct (cv.channels cache =? 1), (negb _ && dlt _ _); simpl;
        rewrite ?Hb1; eexists _, _; (split; [reflexivity|]); simpl; conj.
    + injection Hn as <-.
      unfold grab_colour, Spec.to_colour, grab_pace. rewrite Hf1.
      destruct (cv.channels (_frame_cap s) =? 1), (negb _ && dlt _ _); simpl;
        rewrite ?Hb1, ?Hf1; eexists _, _; (split; [reflexivity|]); simpl; conj.
  - destruct (cv.read c) as [[ok f0] c'] eqn:Hrd.
    simpl in Hin. injection Hin as -> ->. simpl. rewrite Himg.
    set (s1 := if dle _ _ then _ else _).
    assert (Hs1 : _frame_cap s1 = f /\ _height s1 = _height s
                  /\ _bayerType s1 = _bayerType s).
    { subst s1. destruct (dle _ _); simpl; conj. }
    destruct Hs1 as (Hf1 & Hh1 & Hb1).
    unfold grab_reshape, Spec.normalised in *. rewrite Hf1.
    destruct (cv.rows f =? 1).
    + rewrite Hn. unfold grab_colour, Spec.to_colour, grab_pace. simpl.
      destruct (cv.channels cache =? 1), (negb _ && dlt _ _); simpl;
        rewrite ?Hb1; eexists _, _; (split; [reflexivity|]); simpl; conj.
    + injection Hn as <-.
      unfold grab_colour, Spec.to_colour, grab_pace. rewrite Hf1.
      destruct (cv.channels f =? 1), (negb _ && dlt _ _); simpl;
        rewrite ?Hb1, ?Hf1; eexists _, _; (split; [reflexivity|]); simpl; conj.
Qed.

Lemma grab_throws w clk s frame f :
  _open s = true ->
  Spec.frame_in s = Some (true, f) ->
  Spec.normalised f = None ->
  exists s' tr, grab w clk s frame = Threw s' tr.
Proof.
  intros Hopen Hin Hn. unfold Spec.frame_in in Hin.
  destruct (_cap s) as [c|] eqn:Hc; [|discriminate].
  unfold grab, grab_read. rewrite Hopen, Hc. simpl.
  destruct (_is_image s) eqn:Himg.
  - injection Hin as <-. rewrite Hc, Himg.
    set (s1 := if dle _ _ then _ else _).
    assert (Hf1 : _frame_cap s1 = _frame_cap s).
    { subst s1. destruct (dle _ _); reflexivity. }
    unfold grab_reshape, Spec.normalised in *. rewrite Hf1.
    destruct (cv.rows (_frame_cap s) =? 1); [|discriminate].
    rewrite Hn. eauto.
  - destruct (cv.read c) as [[ok f0] c'] eqn:Hrd.
    simpl in Hin. injection Hin as -> ->. simpl. rewrite Himg.
    set (s1 := if dle _ _ then _ else _).
    assert (Hf1 : _frame_cap s1 = f).
    { subst s1. destruct (dle _ _); reflexivity. }
    unfold grab_reshape, Spec.normalised in *. rewrite Hf1.
    destruct (cv.rows f =? 1); [|discriminate].
    rewrite Hn. eauto.
Qed.

Lemma reshape_cols m m' :
  cv.rows m = 1 -> cv.reshape m (cv.channels m) 240 = Some m' ->
  cv.cols m' * cv.channels m * 240 = cv.cols m * cv.channels m
  /\ cv.buf m' = cv.buf m.
Proof.
  intros Hr. unfold cv.reshape. rewrite Hr.
  replace (240 =? 0) with false by reflexivity.
  rewrite andb_false_r. simpl.
  set (cn := if cv.channels m =? 0 then cv.channels m else cv.channels m).
  assert (Hcn : cn = cv.channels m) by (subst cn; destruct (_ =? 0); reflexivity).
  rewrite Hcn. clear cn Hcn.
  destruct (cv.cols m * cv.channels m * 1 <? 240); [discriminate|].
  destruct (Z.eqb_spec (cv.cols m * cv.channels m * 1 ÷ 240 * 240)
                       (cv.cols m * cv.channels m * 1)) as [E1|]; [|discriminate].
  simpl.
  destruct (Z.eqb_spec (cv.cols m * cv.channels m * 1 ÷ 240 ÷ cv.channels m
                        * cv.channels m)
                       (cv.cols m * cv.channels m * 1 ÷ 240)) as [E2|];
    [|discriminate].
  simpl. intros [= <-]. simpl. split; [lia|reflexivity].
Qed.

(** C4 (as the code has it). When the frame [grab] starts from has exactly
    one row, it is folded to 240 rows, a fixed count that does not depend on
    the source's height, with the channel count and the pixel buffer kept,
    before colour conversion, pacing and flipping; when its size is not a
    multiple of 240 the reshape throws and [grab] does not return. *)
Theorem grab_single_row (w : cv.World) (clk : Clock) (s : t)
    (frame f : cv.Mat) :
  _open s = true ->
  Spec.frame_in s = Some (true, f) ->
  cv.rows f = 1 ->
  match cv.reshape f (cv.channels f) 240 with
  | Some f' =>
      cv.rows f' = 240 /\ cv.channels f' = cv.channels f
      /\ cv.cols f' * cv.channels f * 240 = cv.cols f * cv.channels f
      /\ cv.buf f' = cv.buf f
      /\ exists s' tr,
           grab w clk s frame =
             Returned true (cv.flip0 (Spec.to_colour w (_bayerType s) f')) s' tr
           /\ _frame_cap s' = f' /\ _height s' = _height s
  | None => exists s' tr, grab w clk s frame = Threw s' tr
  end.
Proof.
  intros Hopen Hin Hr.
  assert (Hn : Spec.normalised f = cv.reshape f (cv.channels f) 240).
  { unfold Spec.normalised. rewrite Hr. reflexivity. }
  destruct (cv.reshape f (cv.channels f) 240) as [f'|] eqn:Hre.
  - destruct (reshape_rows _ _ _ Hr Hre) as (H1 & H2).
    destruct (reshape_cols _ _ Hr Hre) as (H3 & H4).
    split; [exact H1|]. split.
    { rewrite H2. destruct (cv.channels f =? 0); reflexivity. }
    split; [exact H3|]. split; [exact H4|].
    apply (grab_returns w clk s frame f f' Hopen Hin Hn).
  - apply (grab_throws w clk s frame f Hopen Hin Hn).
Qed.

(** *** setFPS *)

Lemma setFPS_returns_false s fps : fst (fst (setFPS s fps)) = false.
Proof.
  unfold setFPS. destruct (_cap s) as [c|]; [|reflexivity].
  destruct (_open s && dlt 0%Q fps); [|reflexivity].
  destruct (cv.set c CAP_PROP_FPS fps) as [ok c'].
  destruct ok; simpl; [|reflexivity].
  destruct (getFPS _). reflexivity.
Qed.

(** The part of C8 the code keeps: a rejected rate is kept for playback and
    reported as a warning, not as an error. *)
Lemma setFPS_rejected_retained s c fps :
  _open s = true -> _cap s = Some c -> dlt 0%Q fps = true ->
  fst (cv.set c CAP_PROP_FPS fps) = false ->
  let '(_, s', tr) := setFPS s fps in
  _fps s' = fps
  /\ In (Log WRN "Warning! Failed to set device fps (attempted to set fps=%.2f).") tr
  /\ forall m, ~ In (Log ERR m) tr.
Proof.
  intros Hopen Hc Hpos Hrej. unfold setFPS. rewrite Hc, Hopen, Hpos. simpl.
  destruct (cv.set c CAP_PROP_FPS fps) as [ok c']. simpl in Hrej. subst ok.
  simpl. split; [reflexivity|]. split; [auto|].
  intros m [H|[H|[H|[]]]]; discriminate.
Qed.

(** *** Concrete runs *)

Lemma grab_still_image_witness :
  Spec.classify Ex.still_world "ball.png" = Some ImageFile
  /\ Spec.normalised (cv.imread Ex.still_world "ball.png") = Some Ex.picture
  /\ length (Spec.grab_n Ex.still_world [Ex.clk0; Ex.clk0]
               (fst (new Ex.still_world Ex.base0 "ball.png")) cv.Mat0) = 2%nat.
Proof.
  split; [reflexivity|]. split; [reflexivity|].
  apply (grab_still_image Ex.still_world Ex.base0 "ball.png"
           [Ex.clk0; Ex.clk0] cv.Mat0 Ex.picture); reflexivity.
Defined.

(** C1 as stated fails: on a still image [grab] does call the capture
    object (it asks for the stream position), and the frame it hands back
    is the cached decode upside down, not the decode itself. *)
Lemma grab_image_queries_backend :
  Spec.classify Ex.still_world "ball.png" = Some ImageFile
  /\ match grab Ex.still_world Ex.clk0
             (fst (new Ex.still_world Ex.base0 "ball.png")) cv.Mat0 with
     | Returned ret fr s' tr =>
         ret = true
         /\ existsb is_backend_call tr = true
         /\ In (CapGet CAP_PROP_POS_MSEC) tr
         /\ _frame_cap s' = Ex.picture
         /\ cv.buf fr = [4; 5; 6; 1; 2; 3]
         /\ fr <> _frame_cap s'
     | _ => False
     end.
Proof.
  split; [reflexivity|]. vm_compute.
  repeat split; auto. discriminate.
Qed.

(** A still image of one row whose size is not a multiple of 240: [grab]
    does not return. *)
Lemma grab_strip_throws :
  Spec.classify Ex.strip_world "strip.png" = Some ImageFile
  /\ exists s' tr,
       grab Ex.strip_world Ex.clk0
            (fst (new Ex.strip_world Ex.base0 "strip.png")) cv.Mat0
       = Threw s' tr.
Proof. split; [reflexivity|]. vm_compute. eauto. Qed.

Lemma grab_single_row_witness :
  _open Ex.camera_source = true
  /\ Spec.frame_in Ex.camera_source = Some (true, Ex.flat_frame)
  /\ cv.rows Ex.flat_frame = 1
  /\ match cv.reshape Ex.flat_frame (cv.channels Ex.flat_frame) 240 with
     | Some f' =>
         cv.rows f' = 240 /\ cv.channels f' = cv.channels Ex.flat_frame
         /\ cv.cols f' * cv.channels Ex.flat_frame * 240
            = cv.cols Ex.flat_frame * cv.channels Ex.flat_frame
         /\ cv.buf f' = cv.buf Ex.flat_frame
         /\ exists s' tr,
              grab Ex.camera_world Ex.clk0 Ex.camera_source cv.Mat0 =
                Returned true
                  (cv.flip0 (Spec.to_colour Ex.camera_world
                               (_bayerType Ex.camera_source) f')) s' tr
              /\ _frame_cap s' = f'
              /\ _height s' = _height Ex.camera_source
     | None =>
         exists s' tr,
           grab Ex.camera_world Ex.clk0 Ex.camera_source cv.Mat0 = Threw s' tr
     end.
Proof.
  split; [reflexivity|]. split; [reflexivity|]. split; [reflexivity|].
  apply (grab_single_row Ex.camera_world Ex.clk0 Ex.camera_source
           cv.Mat0 Ex.flat_frame); reflexivity.
Defined.

(** C4 as stated fails: the source is 480 rows high, the flattened frame is
    folded to 240 rows. *)
Lemma grab_single_row_not_height :
  _height Ex.camera_source = 480
  /\ Spec.frame_in Ex.camera_source = Some (true, Ex.flat_frame)
  /\ cv.rows Ex.flat_frame = 1
  /\ match grab Ex.camera_world Ex.clk0 Ex.camera_source cv.Mat0 with
     | Returned ret fr s' tr =>
         ret = true /\ cv.rows (_frame_cap s') = 240 /\ cv.rows fr = 240
         /\ _height s' = 480 /\ cv.rows (_frame_cap s') <> _height s'
     | _ => False
     end.
Proof.
  split; [reflexivity|]. split; [reflexivity|]. split; [reflexivity|].
  vm_compute. repeat split; auto. discriminate.
Qed.

(** C8: the camera honours the requested rate, the source takes it over,
    and [setFPS] still answers false. *)
Lemma setFPS_accepted_returns_false :
  _open Ex.camera_source = true
  /\ (exists c, _cap Ex.camera_source = Some c
                /\ fst (cv.set c CAP_PROP_FPS 30%Q) = true)
  /\ fst (fst (setFPS Ex.camera_source 30%Q)) = false
  /\ _fps (snd (fst (setFPS Ex.camera_source 30%Q))) = 30%Q.
Proof.
  split; [reflexivity|]. split; [eexists; split; reflexivity|].
  split; reflexivity.
Qed.

(** The sibling setters do report success. *)
Lemma setWH_rewind_report_success :
  fst (fst (setWH Ex.camera_source 320 240)) = true
  /\ fst (fst (rewind Ex.camera_source)) = true.
Proof. split; reflexivity. Qed.

End CVSourceFacts.

Section MouseFacts.

Import ConfigGui GuiSpec.

(** The callback looks at the position of a left-click only, and never at
    the flags. *)
Lemma right_button_up x y f d :
  onMouseEvent CV_EVENT_RBUTTONUP x y f d = right_click d.
Proof. reflexivity. Qed.

Lemma left_button_up x y f d :
  onMouseEvent CV_EVENT_LBUTTONUP x y f d = left_click (x, y) d.
Proof. reflexivity. Qed.

Lemma on_back_snoc {A} (f : A -> A) (v : list A) (a : A) :
  on_back f (v ++ [a]) = v ++ [f a].
Proof.
  induction v as [|b v IH]; [reflexivity|].
  simpl. rewrite IH. destruct v; reflexivity.
Qed.

Lemma pop_back_snoc {A} (v : list A) (a : A) : pop_back (v ++ [a]) = v.
Proof. apply removelast_last. Qed.

Lemma back_empty_snoc {A} (v : list (list A)) (a : list A) :
  back_empty (v ++ [a]) = match a with [] => true | _ => false end.
Proof. unfold back_empty. rewrite last_snoc. reflexivity. Qed.

Lemma snoc_not_nil {A} (v : list A) (a : A) : v ++ [a] <> [].
Proof. destruct v; discriminate. Qed.

(** How a right-click acts on the polygons, by the shape of the polygon
    list. *)
Lemma right_click_ignr d :
  mode d = IGNR_PTS ->
  (ignrPts d = [] -> ignrPts (right_click d) = [])
  /\ (forall polys, ignrPts d = polys ++ [[]] ->
      ignrPts (right_click d) = polys)
  /\ (forall polys poly p, ignrPts d = polys ++ [poly ++ [p]] ->
      ignrPts (right_click d) = polys ++ [poly]).
Proof.
  intros Hm. unfold right_click, onMouseEvent. rewrite Hm.
  split; [|split].
  - intros E. rewrite E. simpl. exact E.
  - intros polys E. rewrite E.
    destruct (polys ++ [[]]) eqn:E1; [destruct polys; discriminate|].
    rewrite <- E1. rewrite back_empty_snoc. simpl. apply pop_back_snoc.
  - intros polys poly p E. rewrite E.
    destruct (polys ++ [poly ++ [p]]) eqn:E1; [destruct polys; discriminate|].
    rewrite <- E1. rewrite back_empty_snoc.
    destruct (poly ++ [p]) eqn:E2; [destruct poly; discriminate|].
    rewrite <- E2. simpl. rewrite on_back_snoc, pop_back_snoc. reflexivity.
Qed.

(** C6 (as the code has it). In the ignore-region stage a right-click
    removes the last point of the active (last) polygon and leaves that
    polygon in place, also when this empties it; a right-click on an
    already empty active polygon deletes the polygon; with no polygon the
    polygon list stays empty.  Nothing else but the dirty flag, which is
    set, changes. *)
Theorem right_click_ignore_region (d : INPUT_DATA) :
  mode d = IGNR_PTS ->
  (ignrPts d = [] -> ignrPts (right_click d) = [])
  /\ (forall polys, ignrPts d = polys ++ [[]] ->
      ignrPts (right_click d) = polys)
  /\ (forall polys poly p, ignrPts d = polys ++ [poly ++ [p]] ->
      ignrPts (right_click d) = polys ++ [poly])
  /\ circPts (right_click d) = circPts d
  /\ sqrPts (right_click d) = sqrPts d
  /\ cursorPt (right_click d) = cursorPt d
  /\ mode (right_click d) = mode d
  /\ newEvent (right_click d) = true
  /\ forall x y f, onMouseEvent CV_EVENT_RBUTTONUP x y f d = right_click d.
Proof.
  intros Hm. destruct (right_click_ignr d Hm) as (H1 & H2 & H3).
  split; [exact H1|]. split; [exact H2|]. split; [exact H3|].
  unfold right_click, onMouseEvent. rewrite Hm.
  destruct (ignrPts d); [repeat split; (reflexivity || exact Hm)|].
  destruct (back_empty _); repeat split; (reflexivity || exact Hm).
Qed.

Lemma right_click_ignore_region_witness :
  mode ExGui.one_point_polygon = IGNR_PTS
  /\ ignrPts (right_click ExGui.one_point_polygon) = [] ++ [[]].
Proof.
  split; [reflexivity|].
  destruct (right_click_ignore_region ExGui.one_point_polygon eq_refl)
    as (_ & _ & H & _).
  exact (H [] [] (Point2d.of_ints 10 10) eq_refl).
Defined.

(** C6 as stated fails: the right-click that empties the polygon does not
    delete it; one empty polygon is left. *)
Lemma right_click_leaves_empty_polygon :
  mode ExGui.one_point_polygon = IGNR_PTS
  /\ ignrPts ExGui.one_point_polygon = [[Point2d.of_ints 10 10]]
  /\ ignrPts (right_click ExGui.one_point_polygon) = [[]]
  /\ ignrPts (right_click ExGui.one_point_polygon) <> [].
Proof. repeat split; try reflexivity. discriminate. Qed.

(** *** Clicks and their undo *)

Lemma clicks_snoc ps p d : clicks (ps ++ [p]) d = left_click p (clicks ps d).
Proof. unfold clicks. rewrite fold_left_app. reflexivity. Qed.

Lemma left_click_mode p d : mode (left_click p d) = mode d.
Proof.
  unfold left_click, onMouseEvent.
  destruct (mode d) eqn:E; simpl; try exact E; try reflexivity.
  destruct (ignrPts d); simpl; exact E.
Qed.

Lemma clicks_mode ps : forall d, mode (clicks ps d) = mode d.
Proof.
  induction ps as [|p ps IH]; intros d; [reflexivity|].
  unfold clicks in *. simpl. rewrite IH. apply left_click_mode.
Qed.

Lemma left_click_ignr p d :
  mode d = IGNR_PTS ->
  (ignrPts d = [] ->
   ignrPts (left_click p d) = [] ++ [[] ++ [Point2d.of_ints p.1 p.2]])
  /\ (forall polys poly, ignrPts d = polys ++ [poly] ->
      ignrPts (left_click p d) = polys ++ [poly ++ [Point2d.of_ints p.1 p.2]])
  /\ circPts (left_click p d) = circPts d
  /\ sqrPts (left_click p d) = sqrPts d
  /\ cursorPt (left_click p d) = cursorPt d.
Proof.
  intros Hm. unfold left_click, onMouseEvent. rewrite Hm.
  destruct (ignrPts d) as [|poly0 polys0] eqn:Hi.
  - simpl. repeat split; auto. intros polys poly E.
    destruct polys; discriminate.
  - simpl ignrPts. rewrite Hi. repeat split; auto; [discriminate|].
    intros polys poly ->. rewrite on_back_snoc. reflexivity.
Qed.

Lemma right_click_frame d :
  circPts (right_click d) = (if INPUT_MODE_eqb (mode d) CIRC_PTS
                             then pop_back (circPts d) else circPts d)
  /\ sqrPts (right_click d) = (match mode d with
                               | R_XY | R_YZ | R_XZ => pop_back (sqrPts d)
                               | _ => sqrPts d
                               end)
  /\ cursorPt (right_click d) = cursorPt d
  /\ mode (right_click d) = mode d
  /\ (collecting (mode d) = true -> newEvent (right_click d) = true)
  /\ (mode d <> IGNR_PTS -> ignrPts (right_click d) = ignrPts d).
Proof.
  unfold right_click, onMouseEvent.
  destruct (mode d) eqn:Hm; simpl; rewrite ?Hm;
    try (repeat split; auto; discriminate).
  - destruct (circPts d) eqn:E; simpl; rewrite ?E; repeat split; auto.
  - destruct (ignrPts d); [|destruct (back_empty _)]; simpl;
      repeat split; auto; intros H; contradiction.
  - destruct (sqrPts d) eqn:E; simpl; rewrite ?E; repeat split; auto.
  - destruct (sqrPts d) eqn:E; simpl; rewrite ?E; repeat split; auto.
  - destruct (sqrPts d) eqn:E; simpl; rewrite ?E; repeat split; auto.
Qed.

(** One left-click followed by one right-click, in a collecting mode. *)
Lemma undo_one p d :
  collecting (mode d) = true ->
  let d' := right_click (left_click p d) in
  circPts d' = circPts d
  /\ sqrPts d' = sqrPts d
  /\ concat (ignrPts d') = concat (ignrPts d)
  /\ (ignrPts d <> [] -> ignrPts d' = ignrPts d)
  /\ (ignrPts d = [] -> mode d = IGNR_PTS -> ignrPts d' = [[]])
  /\ mode d' = mode d
  /\ cursorPt d' = cursorPt d
  /\ newEvent d' = true.
Proof.
  intros Hc d'. subst d'.
  destruct (right_click_frame (left_click p d))
    as (Hcirc & Hsqr & Hcur & Hmode & Hnew & Hign).
  rewrite left_click_mode in *.
  rewrite Hmode, Hcur, (Hnew Hc). clear Hmode Hcur Hnew.
  destruct (mode d) eqn:Hm; try discriminate.
  - (* CIRC_PTS *)
    rewrite Hcirc, Hsqr, Hign by discriminate.
    unfold left_click, onMouseEvent. rewrite Hm. simpl.
    unfold push_back. rewrite pop_back_snoc.
    repeat split; auto; discriminate.
  - (* IGNR_PTS *)
    destruct (left_click_ignr p d Hm) as (L0 & L1 & Lc & Ls & Lcur).
    destruct (right_click_ignr (left_click p d)) as (_ & _ & R1).
    { rewrite left_click_mode. exact Hm. }
    rewrite Hcirc, Hsqr, Lc, Ls, Lcur. simpl.
    destruct (ignrPts d) as [|poly0 polys0] eqn:Hi.
    + rewrite (R1 _ _ _ (L0 eq_refl)).
      repeat split; auto. intros H; contradiction.
    + destruct (exists_last (l := poly0 :: polys0)) as (polys & poly & E);
        [discriminate|].
      rewrite E in *. rewrite (R1 _ _ _ (L1 _ _ eq_refl)).
      repeat split; auto. intros; exfalso; eapply snoc_not_nil; eauto.
  - rewrite Hcirc, Hsqr, Hign by discriminate.
    unfold left_click, onMouseEvent. rewrite Hm. simpl.
    unfold push_back. rewrite pop_back_snoc.
    repeat split; auto; discriminate.
  - rewrite Hcirc, Hsqr, Hign by discriminate.
    unfold left_click, onMouseEvent. rewrite Hm. simpl.
    unfold push_back. rewrite pop_back_snoc.
    repeat split; auto; discriminate.
  - rewrite Hcirc, Hsqr, Hign by discriminate.
    unfold left_click, onMouseEvent. rewrite Hm. simpl.
    unfold push_back. rewrite pop_back_snoc.
    repeat split; auto; discriminate.
Qed.

Lemma right_click_nothing_to_undo d :
  collecting (mode d) = true ->
  active_points d = [] ->
  circPts (right_click d) = circPts d
  /\ sqrPts (right_click d) = sqrPts d
  /\ concat (ignrPts (right_click d)) = concat (ignrPts d).
Proof.
  intros Hc Ha.
  destruct (right_click_frame d) as (Hcirc & Hsqr & _ & _ & _ & Hign).
  unfold active_points in Ha.
  destruct (mode d) eqn:Hm; try discriminate; simpl in Hcirc, Hsqr.
  - rewrite Hcirc, Hsqr, Hign, Ha by discriminate. auto.
  - rewrite Hcirc, Hsqr. split; [reflexivity|]. split; [reflexivity|].
    destruct (right_click_ignr d Hm) as (R0 & R1 & _).
    destruct (ignrPts d) as [|poly0 polys0] eqn:Hi.
    + rewrite R0; reflexivity.
    + destruct (exists_last (l := poly0 :: polys0)) as (polys & poly & E);
        [discriminate|].
      rewrite E in *. rewrite last_snoc in Ha. simpl in Ha. subst poly.
      rewrite (R1 polys eq_refl), concat_app. simpl.
      rewrite app_nil_r. reflexivity.
  - rewrite Hcirc, Hsqr, Hign, Ha by discriminate. auto.
  - rewrite Hcirc, Hsqr, Hign, Ha by discriminate. auto.
  - rewrite Hcirc, Hsqr, Hign, Ha by discriminate. auto.
Qed.

(** C9 (as the code has it). In every collecting mode, one right-click
    after N >= 1 left-clicks gives back the points accumulated by the
    first N-1 clicks: the circumference and square-corner lists exactly,
    and the ignore polygons exactly whenever a polygon existed before the
    N-th click; when the N-th click created the first polygon, that polygon
    stays, empty.  Mode and cursor are those after N-1 clicks and the dirty
    flag is set.  A right-click with no accumulated point leaves the
    accumulated points as they are. *)
Theorem right_click_undoes_last_click (d : INPUT_DATA) (ps : list (Z * Z))
    (p : Z * Z) :
  collecting (mode d) = true ->
  let before := clicks ps d in
  let after := right_click (clicks (ps ++ [p]) d) in
  circPts after = circPts before
  /\ sqrPts after = sqrPts before
  /\ concat (ignrPts after) = concat (ignrPts before)
  /\ (ignrPts before <> [] -> ignrPts after = ignrPts before)
  /\ (ignrPts before = [] -> mode d = IGNR_PTS -> ignrPts after = [[]])
  /\ mode after = mode before
  /\ cursorPt after = cursorPt before
  /\ newEvent after = true
  /\ (active_points d = [] ->
      circPts (right_click d) = circPts d
      /\ sqrPts (right_click d) = sqrPts d
      /\ concat (ignrPts (right_click d)) = concat (ignrPts d))
  /\ (forall x y f d0,
        onMouseEvent CV_EVENT_LBUTTONUP x y f d0 = left_click (x, y) d0
        /\ onMouseEvent CV_EVENT_RBUTTONUP x y f d0 = right_click d0).
Proof.
  intros Hc before after. subst before after. rewrite clicks_snoc.
  assert (Hc' : collecting (mode (clicks ps d)) = true)
    by (rewrite clicks_mode; exact Hc).
  destruct (undo_one p (clicks ps d) Hc')
    as (H1 & H2 & H3 & H4 & H5 & H6 & H7 & H8).
  rewrite clicks_mode in H5.
  repeat (split; [assumption|]).
  split; [apply right_click_nothing_to_undo; exact Hc|].
  intros x y f d0. split; reflexivity.
Qed.

Lemma right_click_undoes_last_click_witness :
  collecting (mode (ExGui.blank CIRC_PTS)) = true
  /\ circPts (right_click (clicks ([(10, 10); (50, 10)] ++ [(30, 40)])
                                  (ExGui.blank CIRC_PTS)))
     = circPts (clicks [(10, 10); (50, 10)] (ExGui.blank CIRC_PTS)).
Proof.
  split; [reflexivity|].
  apply (right_click_undoes_last_click (ExGui.blank CIRC_PTS)
           [(10, 10); (50, 10)] (30, 40) eq_refl).
Defined.

(** C9 as stated fails in the ignore-region mode: after one click and one
    right-click an empty polygon is left, which the state before the click
    did not have (and the dirty flag is set, which it was not). *)
Lemma right_click_does_not_restore_state :
  collecting (mode (ExGui.blank IGNR_PTS)) = true
  /\ ignrPts (clicks [] (ExGui.blank IGNR_PTS)) = []
  /\ ignrPts (right_click (clicks [(10, 10)] (ExGui.blank IGNR_PTS))) = [[]]
  /\ right_click (clicks [(10, 10)] (ExGui.blank IGNR_PTS))
     <> clicks [] (ExGui.blank IGNR_PTS).
Proof. repeat split; try reflexivity. discriminate. Qed.

End MouseFacts.

Section LoadFacts.

Import ConfigGui GuiSpec.

Lemma nth_app_here {A} (pre rest : list A) (a : A) (x : A) :
  nth (length pre) (pre ++ a :: rest) x = a.
Proof. rewrite app_nth2, Nat.sub_diag by lia. reflexivity. Qed.

(** The loop from an odd index on: what is left of the vector is paired
    up. *)
Lemma load_loop_pairs (fuel : nat) : forall pre rest pts,
  Nat.Even (length pre) ->
  (length rest < fuel)%nat ->
  Z.of_nat (length (pre ++ rest)) <= UINT_MAX ->
  load_loop fuel (pre ++ rest) (Z.of_nat (length pre) + 1) pts
  = Some (pts ++ pairs rest).
Proof.
  induction fuel as [|fuel IH]; intros pre rest pts Hev Hfuel Hmax; [lia|].
  simpl load_loop. rewrite length_app in *.
  destruct rest as [|a [|b rest]].
  - simpl. replace (_ <? _) with false by (symmetry; apply Z.ltb_ge; simpl; lia).
    rewrite app_nil_r. reflexivity.
  - simpl. replace (_ <? _) with false by (symmetry; apply Z.ltb_ge; simpl; lia).
    rewrite app_nil_r. reflexivity.
  - replace (_ <? _) with true by (symmetry; apply Z.ltb_lt; simpl; lia).
    replace (Z.to_nat (Z.of_nat (length pre) + 1 - 1)) with (length pre) by lia.
    replace (Z.to_nat (Z.of_nat (length pre) + 1)) with (S (length pre)) by lia.
    rewrite nth_app_here.
    replace (pre ++ a :: b :: rest) with ((pre ++ [a]) ++ b :: rest) at 2
      by (rewrite <- app_assoc; reflexivity).
    replace (S (length pre)) with (length (pre ++ [a]))
      by (rewrite length_app; simpl; lia).
    rewrite nth_app_here.
    assert (Hodd : (Z.of_nat (length pre) + 1 + 2) mod (UINT_MAX + 1)
                   = Z.of_nat (length (pre ++ [a; b])) + 1).
    { rewrite length_app. simpl length.
      destruct Hev as [k Hk]. simpl in Hmax. unfold UINT_MAX in *.
      rewrite Z.mod_small; lia. }
    rewrite Hodd.
    replace (pre ++ a :: b :: rest) with ((pre ++ [a; b]) ++ rest)
      by (rewrite <- app_assoc; reflexivity).
    rewrite IH.
    + unfold push_back. rewrite <- app_assoc. reflexivity.
    + rewrite length_app. simpl. destruct Hev as [k Hk].
      exists (S k). lia.
    + simpl in Hfuel. lia.
    + rewrite <- app_assoc. simpl. rewrite length_app. simpl in *. lia.
Qed.

Lemma load_points_pairs cfg_pts :
  Z.of_nat (length cfg_pts) <= UINT_MAX ->
  load_points cfg_pts = Some (pairs cfg_pts).
Proof.
  intros Hmax. unfold load_points.
  apply (load_loop_pairs (S (length cfg_pts)) [] cfg_pts []).
  - exists O. reflexivity.
  - lia.
  - exact Hmax.
Qed.



Lemma load_polys_pairs cfg_polys : forall acc,
  Forall (fun poly => Z.of_nat (length poly) <= UINT_MAX) cfg_polys ->
  load_polys cfg_polys acc
  = Some (acc ++ filter (fun tmp => tmp <> []) (map pairs cfg_polys)).
Proof.
  induction cfg_polys as [|poly rest IH]; intros acc Hall.
  - simpl. rewrite app_nil_r. reflexivity.
  - inversion Hall as [|? ? Hp Hrest]; subst.
    simpl load_polys. rewrite (load_points_pairs poly Hp).
    simpl. rewrite IH by exact Hrest.
    destruct (pairs poly) as [|pt pts] eqn:E.
    + rewrite filter_cons_False by (intros H; apply H; reflexivity).
      reflexivity.
    + rewrite filter_cons_True by discriminate.
      unfold push_back. rewrite <- app_assoc. reflexivity.
Qed.

End LoadFacts.

Section SessionFacts.

Import ConfigGui GuiSpec.

Lemma frame_refl s : frame s s.
Proof. split; auto. Qed.

Lemma frame_trans s1 s2 s3 :
  mode (_input_data s2) = mode (_input_data s1) ->
  frame s1 s2 -> frame s2 s3 -> frame s1 s3.
Proof.
  intros Hm [a1 b1 c1 d1] [a2 b2 c2 d2].
  split; try congruence.
  intros Hc. rewrite Hm in d2.
  destruct (d1 Hc) as (? & ? & ?). destruct (d2 Hc) as (? & ? & ?).
  repeat split; congruence.
Qed.

Lemma onMouseEvent_noncollecting e x y f d :
  collecting (mode d) = false ->
  circPts (onMouseEvent e x y f d) = circPts d
  /\ ignrPts (onMouseEvent e x y f d) = ignrPts d
  /\ sqrPts (onMouseEvent e x y f d) = sqrPts d.
Proof.
  intros Hc. destruct e; simpl; auto;
    destruct (mode d); try discriminate; simpl; auto.
Qed.

Lemma onMouseEvent_mode e x y f d :
  mode (onMouseEvent e x y f d) = mode d.
Proof.
  destruct e; simpl; auto; destruct (mode d) eqn:E; simpl; auto.
  - destruct (ignrPts d); simpl; auto.
  - destruct (0 <? _)%nat; simpl; auto.
  - destruct (ignrPts d); [|destruct (back_empty _)]; simpl; auto.
  - destruct (0 <? _)%nat; simpl; auto.
  - destruct (0 <? _)%nat; simpl; auto.
  - destruct (0 <? _)%nat; simpl; auto.
Qed.

Lemma apply_mouse_mode evs : forall d, mode (apply_mouse evs d) = mode d.
Proof.
  induction evs as [|[[[e x] y] f] evs IH]; intros d; [reflexivity|].
  unfold apply_mouse in *. simpl. rewrite IH. apply onMouseEvent_mode.
Qed.

Lemma apply_mouse_noncollecting evs : forall d,
  collecting (mode d) = false ->
  circPts (apply_mouse evs d) = circPts d
  /\ ignrPts (apply_mouse evs d) = ignrPts d
  /\ sqrPts (apply_mouse evs d) = sqrPts d.
Proof.
  induction evs as [|[[[e x] y] f] evs IH]; intros d Hc; [auto|].
  unfold apply_mouse in *. simpl.
  destruct (IH (onMouseEvent e x y f d)) as (H1 & H2 & H3).
  { rewrite onMouseEvent_mode. exact Hc. }
  destruct (onMouseEvent_noncollecting e x y f d Hc) as (G1 & G2 & G3).
  repeat split; congruence.
Qed.

Lemma waitKey_frame s : frame s (snd (waitKey s)).
Proof.
  unfold waitKey. destruct (ticks s) as [|tk rest]; [apply frame_refl|].
  split; auto. simpl. apply apply_mouse_noncollecting.
Qed.

Lemma waitKey_mode s :
  mode (_input_data (snd (waitKey s))) = mode (_input_data s).
Proof.
  unfold waitKey. destruct (ticks s) as [|tk rest]; [reflexivity|].
  simpl. apply apply_mouse_mode.
Qed.

Lemma waitKey_stdin s : stdin (snd (waitKey s)) = stdin s.
Proof. unfold waitKey. destruct (ticks s); reflexivity. Qed.

Lemma getchar_frame s : frame s (snd (getchar s)).
Proof. unfold getchar. destruct (stdin s); split; auto. Qed.

Lemma getchar_mode s :
  mode (_input_data (snd (getchar s))) = mode (_input_data s).
Proof. unfold getchar. destruct (stdin s); reflexivity. Qed.

Lemma emit_frame e s : frame s (emit e s).
Proof. split; auto. Qed.

Lemma changeState_frame m s : frame s (changeState m s).
Proof. split; auto. Qed.

(** A prompt ends in the next mode (kept) or in the mode it started in
    (declined), and leaves the store and the loaded points alone. *)
Lemma keep_prompt_frame fuel question next : forall s s',
  keep_prompt fuel question next s = Some s' ->
  frame s s'
  /\ (mode (_input_data s') = next
      \/ mode (_input_data s') = mode (_input_data s)).
Proof.
  induction fuel as [|fuel IH]; intros s s' H; [discriminate|].
  simpl in H.
  pose proof (waitKey_frame s) as Fw. pose proof (waitKey_mode s) as Mw.
  destruct (waitKey s) as [k s1]. simpl in Fw, Mw.
  set (s2 := emit (Printf question) s1) in *.
  pose proof (getchar_frame s2) as Fg. pose proof (getchar_mode s2) as Mg.
  destruct (getchar s2) as [in_ s3]. simpl in Fg, Mg.
  assert (F3 : frame s s3).
  { eapply frame_trans; [exact Mw|exact Fw|].
    eapply frame_trans; [|apply emit_frame|exact Fg]. reflexivity. }
  assert (M3 : mode (_input_data s3) = mode (_input_data s))
    by (rewrite Mg; exact Mw).
  pose proof (getchar_frame s3) as Fg4. pose proof (getchar_mode s3) as Mg4.
  destruct ((in_ =? 121) || (in_ =? 89)).
  { destruct (getchar s3) as [? s4]. simpl in *. injection H as <-.
    split; [|left; reflexivity].
    eapply frame_trans; [exact M3|exact F3|].
    eapply frame_trans; [exact Mg4|exact Fg4|apply changeState_frame]. }
  destruct (in_ =? 10).
  { injection H as <-. split; [|left; reflexivity].
    eapply frame_trans; [exact M3|exact F3|apply changeState_frame]. }
  destruct ((in_ =? 110) || (in_ =? 78)).
  { destruct (getchar s3) as [? s4]. simpl in *. injection H as <-.
    split; [|right; congruence].
    eapply frame_trans; [exact M3|exact F3|exact Fg4]. }
  pose proof (getchar_frame (emit (Log WRN "Invalid input!") s3)) as Fg5.
  pose proof (getchar_mode (emit (Log WRN "Invalid input!") s3)) as Mg5.
  destruct (getchar (emit (Log WRN "Invalid input!") s3)) as [? s5].
  simpl in Fg5, Mg5.
  destruct (IH s5 s' H) as (F & M).
  assert (M5 : mode (_input_data s5) = mode (_input_data s)) by congruence.
  split.
  - eapply frame_trans; [exact M5| |exact F].
    eapply frame_trans; [exact M3|exact F3|].
    eapply frame_trans; [|apply emit_frame|exact Fg5]. reflexivity.
  - destruct M as [M|M]; [left; exact M|right; congruence].
Qed.

(** *** The keep-existing prompts *)

Lemma ask_keep_enter question next s rest :
  exists s',
    ask_keep question next (set_stdin (10 :: rest) s) = Some s'
    /\ mode (_input_data s') = next /\ stdin s' = rest
    /\ _open s' = _open s /\ _cfg s' = _cfg s.
Proof.
  unfold ask_keep. simpl. unfold waitKey. simpl.
  destruct (ticks s); simpl; eexists; (split; [reflexivity|]); simpl; auto.
Qed.

Lemma ask_keep_yes question next s a c rest :
  a = 121 \/ a = 89 ->
  ask_keep question next (set_stdin (a :: c :: rest) s)
  = ask_keep question next (set_stdin (10 :: rest) s).
Proof.
  intros [-> | ->]; unfold ask_keep; simpl; unfold waitKey; simpl;
    destruct (ticks s); reflexivity.
Qed.

Lemma ask_keep_yes_eof question next s a :
  a = 121 \/ a = 89 ->
  ask_keep question next (set_stdin [a] s)
  = ask_keep question next (set_stdin [10] s).
Proof.
  intros [-> | ->]; unfold ask_keep; simpl; unfold waitKey; simpl;
    destruct (ticks s); reflexivity.
Qed.

(** C7 (as the code has it). At each keep-existing prompt a bare Enter and
    y or Y both accept (the mode becomes the prompt's next stage).  After y
    or Y one more character is read and dropped; after a bare Enter none
    is: the prompt leaves the input exactly behind the newline.  So y
    followed by any one character acts as a bare Enter does. *)
Theorem keep_prompt_answers (question : string) (next : INPUT_MODE)
    (s : Session) (rest : list Z) :
  (exists s',
     ask_keep question next (set_stdin (10 :: rest) s) = Some s'
     /\ mode (_input_data s') = next /\ stdin s' = rest)
  /\ (forall c,
        ask_keep question next (set_stdin (121 :: c :: rest) s)
        = ask_keep question next (set_stdin (10 :: rest) s)
        /\ ask_keep question next (set_stdin (89 :: c :: rest) s)
           = ask_keep question next (set_stdin (10 :: rest) s))
  /\ ask_keep question next (set_stdin [121] s)
     = ask_keep question next (set_stdin [10] s)
  /\ ask_keep question next (set_stdin [89] s)
     = ask_keep question next (set_stdin [10] s).
Proof.
  split.
  { destruct (ask_keep_enter question next s rest) as (s' & H & Hm & Hs & _).
    eauto. }
  split.
  { intros c. split; apply ask_keep_yes; auto. }
  split; apply ask_keep_yes_eof; auto.
Qed.

(** C7 as stated fails: after a bare Enter the next character is still in
    the input; after y, the character behind it has been taken. *)
Lemma enter_consumes_no_extra :
  let q := "Would you like to keep the existing circumference points ([y]/n)? " in
  (exists s',
     ask_keep q IGNR_INIT (ExGui.session ExGui.store0 [10; 120] []) = Some s'
     /\ mode (_input_data s') = IGNR_INIT /\ stdin s' = [120])
  /\ (exists s',
        ask_keep q IGNR_INIT (ExGui.session ExGui.store0 [121; 10; 120] [])
        = Some s'
        /\ mode (_input_data s') = IGNR_INIT /\ stdin s' = [120])
  /\ (exists s',
        ask_keep q IGNR_INIT (ExGui.session ExGui.store0 [121; 120; 10] [])
        = Some s'
        /\ mode (_input_data s') = IGNR_INIT /\ stdin s' = [10]).
Proof.
  cbv zeta. repeat split; eexists; (split; [reflexivity|]); split; reflexivity.
Qed.

(** *** Committing the circumference *)

Lemma round_coord (x : Z) :
  static_cast_int (inject_Z x + 0.5)%Q = if 0 <=? x then x else x + 1.
Proof.
  unfold static_cast_int. simpl.
  replace (x * 10 + 5 * 1) with (10 * x + 5) by lia.
  change (Z.pos (1 * 10)) with 10.
  destruct (Z.leb_spec 0 x) as [H|H].
  - rewrite Z.quot_div_nonneg by lia.
    symmetry. apply (Z.div_unique_pos _ _ _ 5); lia.
  - replace (10 * x + 5) with (- (10 * (- x - 1) + 5)) by lia.
    rewrite Z.quot_opp_l by lia.
    rewrite Z.quot_div_nonneg by lia.
    replace ((10 * (- x - 1) + 5) / 10) with (- x - 1); [lia|].
    apply (Z.div_unique_pos _ _ _ 5); lia.
Qed.

Lemma dump_points_of_ints (ps : list (Z * Z)) :
  Forall (fun p => 0 <= fst p /\ 0 <= snd p) ps ->
  dump_points (map (fun p => Point2d.of_ints (fst p) (snd p)) ps)
  = flat_map (fun p => [fst p; snd p]) ps.
Proof.
  induction 1 as [|[x y] ps [Hx Hy] _ IH]; [reflexivity|].
  simpl in *. rewrite IH, !round_coord.
  replace (0 <=? x) with true by (symmetry; apply Z.leb_le; lia).
  replace (0 <=? y) with true by (symmetry; apply Z.leb_le; lia).
  reflexivity.
Qed.

Lemma dump_points_of_ints_any (ps : list (Z * Z)) :
  dump_points (map (fun p => Point2d.of_ints (fst p) (snd p)) ps)
  = flat_map (fun p => [if 0 <=? fst p then fst p else fst p + 1;
                        if 0 <=? snd p then snd p else snd p + 1]) ps.
Proof.
  induction ps as [|[x y] ps IH]; [reflexivity|].
  simpl in *. rewrite IH, !round_coord. reflexivity.
Qed.

Lemma clicks_circPts ps : forall d,
  mode d = CIRC_PTS ->
  circPts (clicks ps d)
  = circPts d ++ map (fun p => Point2d.of_ints (fst p) (snd p)) ps.
Proof.
  induction ps as [|p ps IH]; intros d Hm.
  - simpl. rewrite app_nil_r. reflexivity.
  - unfold clicks in *. simpl. rewrite IH by (rewrite left_click_mode; exact Hm).
    unfold left_click, onMouseEvent. rewrite Hm. simpl.
    unfold push_back. rewrite <- app_assoc. reflexivity.
Qed.

(** The dirty flag plays no part in what the callback does to the
    points. *)
Lemma onMouseEvent_newEvent e x y f b d :
  onMouseEvent e x y f (set_newEvent b d)
  = set_newEvent (newEvent (onMouseEvent e x y f (set_newEvent b d)))
                 (onMouseEvent e x y f d).
Proof.
  destruct e; simpl; auto; destruct (mode d) eqn:E; simpl; auto.
  - destruct (ignrPts d); simpl; auto.
  - destruct (0 <? _)%nat; simpl; auto.
  - destruct (ignrPts d); [|destruct (back_empty _)]; simpl; auto.
  - destruct (0 <? _)%nat; simpl; auto.
  - destruct (0 <? _)%nat; simpl; auto.
  - destruct (0 <? _)%nat; simpl; auto.
Qed.

Lemma apply_mouse_newEvent evs : forall b d,
  exists b', apply_mouse evs (set_newEvent b d)
             = set_newEvent b' (apply_mouse evs d).
Proof.
  induction evs as [|[[[e x] y] f] evs IH]; intros b d.
  - exists b. reflexivity.
  - unfold apply_mouse in *. simpl.
    rewrite onMouseEvent_newEvent. apply IH.
Qed.

Lemma set_newEvent_id d : set_newEvent (newEvent d) d = d.
Proof. destruct d; reflexivity. Qed.

(** One pass of the circumference stage in which the key read is Enter. *)
Lemma stage_CIRC_PTS_enter w s tk rest :
  ticks s = tk :: rest ->
  to_char (pressed tk) = enter_key w ->
  let pts := circPts (apply_mouse (mouse tk) (_input_data s)) in
  let ret := write_result w (ConfigParser.nwrites (_cfg s)) in
  exists s',
    stage_CIRC_PTS w s = Some s'
    /\ circPts (_input_data s') = pts
    /\ if (3 <=? length pts)%nat then
         ConfigParser.mem (_cfg s')
           = <["roi_circ" := ConfigParser.VVecInt (dump_points pts)]>
               (ConfigParser.mem (_cfg s))
         /\ ConfigParser.disk (_cfg s')
            = (if 0 <? ret then ConfigParser.mem (_cfg s')
               else ConfigParser.disk (_cfg s))
         /\ ConfigParser.nwrites (_cfg s') = S (ConfigParser.nwrites (_cfg s))
         /\ _open s' = (if ret <=? 0 then false else _open s)
         /\ mode (_input_data s') = IGNR_INIT
       else
         _cfg s' = _cfg s /\ _open s' = _open s
         /\ mode (_input_data s') = mode (_input_data s)
         /\ In (Log WRN "You must select at least 3 circumference points (you have selected %d points)!")
               (out s').
Proof.
  intros Ht Hk pts ret. unfold stage_CIRC_PTS.
  set (s0 := if newEvent (_input_data s) then _ else s).
  assert (H0 : ticks s0 = ticks s /\ _cfg s0 = _cfg s /\ _open s0 = _open s
               /\ exists b, _input_data s0 = set_newEvent b (_input_data s)).
  { subst s0. destruct (newEvent (_input_data s)) eqn:E.
    - destruct (3 <=? _)%nat; [destruct (circleFit_camModel _ _ _)|];
        simpl; repeat split; eauto.
    - repeat split; auto. exists false. rewrite <- E.
      symmetry. apply set_newEvent_id. }
  destruct H0 as (T0 & C0 & O0 & b & D0).
  unfold waitKey. rewrite T0, Ht, D0.
  destruct (apply_mouse_newEvent (mouse tk) b (_input_data s)) as [b' ->].
  cbn [key set_key]. rewrite Hk, Z.eqb_refl.
  cbn [_input_data set_ticks set_input set_key circPts set_newEvent].
  fold pts.
  destruct (3 <=? length pts)%nat.
  - unfold write_cfg, cfg_add, ConfigParser.write. simpl.
    rewrite C0. fold ret.
    destruct (ret <=? 0); eexists; (split; [reflexivity|]); simpl;
      rewrite ?C0, ?O0; repeat split; auto; apply apply_mouse_mode.
  - eexists; (split; [reflexivity|]); simpl.
    rewrite C0, O0. repeat split; auto.
    + apply apply_mouse_mode.
    + apply in_or_app. right. left. reflexivity.
Qed.

(** What Enter does in the circumference stage.  With at least three
    points it stores them under roi_circ, writes the store and advances to
    IgnoreInit; with fewer it only warns and stays.  What is stored is the
    flat list of the points' x and y, each cast to int after adding one
    half, in click order: for clicks at pixel positions that are not
    negative, the clicked coordinates themselves; a negative coordinate
    comes out one higher.  In the scenario of an empty store, clicks at
    (10,10), (50,10), (30,40) and Enter, the store and the file hold
    roi_circ = [10,10,50,10,30,40]. *)
Theorem circumference_commit (w : World) (s : Session) (tk : Tick)
    (rest : list Tick) :
  mode (_input_data s) = CIRC_PTS ->
  ticks s = tk :: rest ->
  to_char (pressed tk) = enter_key w ->
  let pts := circPts (apply_mouse (mouse tk) (_input_data s)) in
  let ret := write_result w (ConfigParser.nwrites (_cfg s)) in
  (exists s',
     step w s = Some s'
     /\ circPts (_input_data s') = pts
     /\ if (3 <=? length pts)%nat then
          ConfigParser.getVecInt "roi_circ" (_cfg s') = Some (dump_points pts)
          /\ (0 < ret ->
              ConfigParser.disk (_cfg s') !! "roi_circ"
              = Some (ConfigParser.VVecInt (dump_points pts)))
          /\ mode (_input_data s') = IGNR_INIT
        else
          _cfg s' = _cfg s
          /\ mode (_input_data s') = CIRC_PTS
          /\ In (Log WRN "You must select at least 3 circumference points (you have selected %d points)!")
                (out s'))
  /\ (forall d ps,
        mode d = CIRC_PTS -> circPts d = [] ->
        dump_points (circPts (clicks ps d))
        = flat_map (fun p => [if 0 <=? fst p then fst p else fst p + 1;
                              if 0 <=? snd p then snd p else snd p + 1]) ps
        /\ (Forall (fun p => 0 <= fst p /\ 0 <= snd p) ps ->
            dump_points (circPts (clicks ps d))
            = flat_map (fun p => [fst p; snd p]) ps))
  /\ match run (ExGui.world ExGui.disk_ok) 11 ExGui.scenario with
     | Some (ok, s') =>
         ok = true
         /\ ConfigParser.getVecInt "roi_circ" (_cfg s')
            = Some [10; 10; 50; 10; 30; 40]
         /\ ConfigParser.disk (_cfg s') !! "roi_circ"
            = Some (ConfigParser.VVecInt [10; 10; 50; 10; 30; 40])
     | None => False
     end.
Proof.
  intros Hm Ht Hk pts ret. split; [|split].
  - destruct (stage_CIRC_PTS_enter w s tk rest Ht Hk)
      as (s' & Hs & Hp & Hif).
    exists s'. unfold step. rewrite Hm. split; [exact Hs|].
    split; [exact Hp|]. fold pts ret in Hif.
    destruct (3 <=? length pts)%nat.
    + destruct Hif as (Hmem & Hdisk & _ & _ & Hmode).
      unfold ConfigParser.getVecInt. rewrite Hmem, lookup_insert_eq.
      split; [reflexivity|]. split; [|exact Hmode].
      intros Hret. rewrite Hdisk.
      replace (0 <? ret) with true by (symmetry; apply Z.ltb_lt; exact Hret).
      rewrite Hmem. apply lookup_insert_eq.
    + destruct Hif as (Hc & _ & Hmode & Hw).
      rewrite Hmode, Hm. auto.
  - intros d ps Hd He. rewrite clicks_circPts, He by exact Hd. simpl.
    split; [apply dump_points_of_ints_any|apply dump_points_of_ints].
  - vm_compute. repeat split; reflexivity.
Qed.

Lemma circumference_commit_witness :
  let w := ExGui.world ExGui.disk_ok in
  let s := set_input (clicks [(10, 10); (50, 10); (30, 40)]
                             (ExGui.blank CIRC_PTS))
                     (ExGui.session ExGui.store0 [] [ExGui.press 10]) in
  mode (_input_data s) = CIRC_PTS
  /\ ticks s = [ExGui.press 10]
  /\ to_char (pressed (ExGui.press 10)) = enter_key w
  /\ exists s',
       step w s = Some s'
       /\ ConfigParser.getVecInt "roi_circ" (_cfg s')
          = Some [10; 10; 50; 10; 30; 40]
       /\ mode (_input_data s') = IGNR_INIT.
Proof.
  cbv zeta.
  split; [reflexivity|]. split; [reflexivity|]. split; [reflexivity|].
  destruct (circumference_commit (ExGui.world ExGui.disk_ok)
              (set_input (clicks [(10, 10); (50, 10); (30, 40)]
                                 (ExGui.blank CIRC_PTS))
                         (ExGui.session ExGui.store0 [] [ExGui.press 10]))
              (ExGui.press 10) [] eq_refl eq_refl eq_refl)
    as ((s' & Hs & _ & Hget & _ & Hmode) & _).
  exists s'. split; [exact Hs|]. split; [exact Hget|exact Hmode].
Defined.

(** C5. The commit of the circumference stage does not store the rounded
    coordinates of a click left of or above the image.  In the scenario
    with the clicks at (-5,-1), (0,-7), (3,4), Enter commits the three
    points; their rounded coordinates are -5,-1,0,-7,3,4, yet the store and
    the file hold roi_circ = [-4,0,0,-6,3,4]: the cast to int after adding
    one half truncates toward zero, which is rounding only for coordinates
    that are not negative. *)
Theorem negative_clicks_stored_one_higher :
  match run (ExGui.world ExGui.disk_ok) 11 ExSession.outside_clicks with
  | Some (ok, s') =>
      ok = true
      /\ circPts (_input_data s')
         = map SessionSpec.clicked [(-5, -1); (0, -7); (3, 4)]
      /\ flat_map (fun p => [round (Point2d.x p); round (Point2d.y p)])
           (circPts (_input_data s'))
         = [-5; -1; 0; -7; 3; 4]
      /\ ConfigParser.getVecInt "roi_circ" (_cfg s')
         = Some [-4; 0; 0; -6; 3; 4]
      /\ ConfigParser.disk (_cfg s') !! "roi_circ"
         = Some (ConfigParser.VVecInt [-4; 0; 0; -6; 3; 4])
  | None => False
  end.
Proof. vm_compute. repeat split; reflexivity. Qed.

(** *** Loading persisted points in the three init stages *)


Lemma waitKey_points s :
  collecting (mode (_input_data s)) = false ->
  circPts (_input_data (snd (waitKey s))) = circPts (_input_data s)
  /\ ignrPts (_input_data (snd (waitKey s))) = ignrPts (_input_data s)
  /\ sqrPts (_input_data (snd (waitKey s))) = sqrPts (_input_data s).
Proof. intros Hc. apply (frame_pts _ _ (waitKey_frame s) Hc). Qed.




(** *** Writes and the end of the loop *)

Lemma frame_same_store s s' : frame s s' -> same_store s s'.
Proof. intros [a b _ _]. split; assumption. Qed.

Lemma waitKey_store s k s' : waitKey s = (k, s') -> same_store s s'.
Proof.
  intros H. pose proof (waitKey_frame s) as F. rewrite H in F.
  apply frame_same_store. exact F.
Qed.

Lemma ask_keep_store question next s s' :
  ask_keep question next s = Some s' -> same_store s s'.
Proof.
  intros H. apply keep_prompt_frame in H. apply frame_same_store, H.
Qed.

Lemma getline_store eof str s str1 eof1 s1 :
  getline eof str s = (str1, eof1, s1) -> same_store s s1.
Proof.
  unfold getline. destruct eof.
  - intros [= _ _ <-]. split; reflexivity.
  - destruct (read_line (stdin s)) as [[a b] e].
    intros [= _ _ <-]. split; reflexivity.
Qed.

Lemma select_method_store fuel : forall eof str s s',
  select_method fuel eof str s = Some s' -> same_store s s'.
Proof.
  induction fuel as [|fuel IH]; intros eof str s s' H; [discriminate|].
  cbn [select_method] in H.
  destruct (getline eof str _) as [[str1 eof1] s1] eqn:G.
  apply getline_store in G.
  assert (S1 : same_store s s1) by (destruct G; split; assumption).
  clear G.
  destruct (if String.eqb _ _ then _ else _) as [n|].
  - destruct n as [|[p|p|]|];
      try (apply IH in H; destruct H, S1; split; simpl in *; congruence);
      try (injection H as <-; destruct S1; split; simpl; assumption).
    + destruct p as [p|p|]; try (destruct p);
        try (apply IH in H; destruct H, S1; split; simpl in *; congruence);
        try (injection H as <-; destruct S1; split; simpl; assumption).
    + destruct p as [p|p|]; try (destruct p);
        try (apply IH in H; destruct H, S1; split; simpl in *; congruence);
        try (injection H as <-; destruct S1; split; simpl; assumption).
  - apply IH in H. destruct H, S1. split; simpl in *; congruence.
Qed.

Ltac projs :=
  cbn [_cfg _open _input_data set_open set_cfg set_input set_Rt set_cr
       set_key set_src set_stdin set_ticks emit changeState mode
       set_mode set_newEvent] in *.

Lemma stage_CIRC_INIT_store w s s' :
  stage_CIRC_INIT w s = Some s' -> same_store s s'.
Proof.
  unfold stage_CIRC_INIT, same_store.
  destruct (ConfigParser.getVecInt "roi_circ" (_cfg s)) as [cfg_pts|].
  2:{ cbn [mbind option_bind]. destruct (INPUT_MODE_eqb _ _);
      intros [= <-]; split; reflexivity. }
  destruct (load_points cfg_pts) as [pts|]; [|discriminate].
  cbn [mbind option_bind].
  set (s1 := set_input _ s).
  assert (Htail : forall s2, same_store s s2 ->
    (if INPUT_MODE_eqb (mode (_input_data s2)) CIRC_INIT
     then Some (changeState CIRC_PTS
            (emit (Printf "Define the circumference of the track ball.")
               (set_input (set_circPts [] (_input_data s2)) s2)))
     else Some s2) = Some s' ->
    _cfg s' = _cfg s /\ _open s' = _open s).
  { intros s2 [A B]. destruct (INPUT_MODE_eqb _ _); intros [= <-];
      projs; auto. }
  destruct (3 <=? length pts)%nat;
    [|apply Htail; split; reflexivity].
  destruct (circleFit_camModel w pts (c s1, r s1)) as [c' r'].
  destruct (dlt 0%Q r'); [|apply Htail; split; reflexivity].
  destruct (waitKey (set_cr c' r' s1)) as [k s2] eqn:Hw.
  apply waitKey_store in Hw. destruct Hw as [A2 B2]. subst s1. projs.
  destruct (ask_keep _ IGNR_INIT _) as [s4|] eqn:Hask; [|discriminate].
  apply ask_keep_store in Hask. destruct Hask as [A4 B4]. projs.
  cbn [mbind option_bind]. apply Htail. split; congruence.
Qed.

Lemma stage_IGNR_INIT_store w s s' :
  stage_IGNR_INIT w s = Some s' -> same_store s s'.
Proof.
  unfold stage_IGNR_INIT, same_store.
  destruct (ConfigParser.getVVecInt "roi_ignr" (_cfg s)) as [cfg_polys|].
  2:{ cbn [mbind option_bind]. destruct (INPUT_MODE_eqb _ _);
      intros [= <-]; split; reflexivity. }
  destruct (load_polys cfg_polys []) as [polys|]; [|discriminate].
  cbn [mbind option_bind].
  destruct (waitKey _) as [k s2] eqn:Hw.
  apply waitKey_store in Hw. destruct Hw as [A2 B2]. projs.
  destruct (ask_keep _ R_INIT _) as [s4|] eqn:Hask; [|discriminate].
  apply ask_keep_store in Hask. destruct Hask as [A4 B4]. projs.
  cbn [mbind option_bind].
  destruct (INPUT_MODE_eqb _ _); intros [= <-]; projs; split; congruence.
Qed.

Lemma stage_R_INIT_store w s s' :
  stage_R_INIT w s = Some s' -> same_store s s'.
Proof.
  unfold stage_R_INIT, same_store.
  destruct (ConfigParser.getStr "c2a_src" (_cfg s)) as [src|].
  2:{ destruct (INPUT_MODE_eqb _ _); intros [= <-]; split; reflexivity. }
  destruct (ConfigParser.getVecInt _ _) as [cfg_pts|];
    [|intros [= <-]; split; reflexivity].
  destruct (load_points cfg_pts) as [pts|]; [|discriminate].
  cbn [mbind option_bind].
  destruct (ConfigParser.getVecDbl "c2a_r" _) as [vr|];
    [|intros [= <-]; split; reflexivity].
  destruct (ConfigParser.getVecDbl "c2a_t" _) as [vt|];
    [|intros [= <-]; split; reflexivity].
  destruct (vec3 vt) as [[tx ty] tz].
  destruct (waitKey _) as [k s2] eqn:Hw.
  apply waitKey_store in Hw. destruct Hw as [A2 B2]. projs.
  destruct (ask_keep _ EXIT _) as [s4|] eqn:Hask; [|discriminate].
  apply ask_keep_store in Hask. destruct Hask as [A4 B4]. projs.
  cbn [mbind option_bind].
  destruct (INPUT_MODE_eqb _ _); intros [= <-]; projs; split; congruence.
Qed.

Lemma stage_R_SLCT_store w s s' :
  stage_R_SLCT w s = Some s' -> same_store s s'.
Proof.
  unfold stage_R_SLCT. intros H. apply select_method_store in H.
  destruct H. split; projs; assumption.
Qed.

Lemma same_store_step w s s' : same_store s s' -> store_step w s s'.
Proof. intros [A B]. left. rewrite A. auto. Qed.

Lemma stage_CIRC_PTS_store w s s' :
  mode (_input_data s) = CIRC_PTS ->
  stage_CIRC_PTS w s = Some s' -> store_step w s s'.
Proof.
  intros Hm. unfold stage_CIRC_PTS.
  set (s0 := if newEvent (_input_data s) then _ else s).
  assert (H0 : _cfg s0 = _cfg s /\ _open s0 = _open s).
  { subst s0. destruct (newEvent (_input_data s)); [|auto].
    destruct (3 <=? _)%nat; [destruct (circleFit_camModel _ _ _)|];
      split; reflexivity. }
  destruct H0 as (C0 & O0).
  destruct (waitKey s0) as [k s1] eqn:Hw.
  apply waitKey_store in Hw. destruct Hw as [C1 O1].
  cbn [key set_key]. destruct (to_char k =? enter_key w).
  2:{ intros [= <-]. apply same_store_step. split; projs; congruence. }
  cbn [_input_data set_key].
  destruct (3 <=? length (circPts (_input_data s1)))%nat.
  2:{ intros [= <-]. apply same_store_step. split; projs; congruence. }
  unfold write_cfg, cfg_add, ConfigParser.write, ConfigParser.add.
  projs. cbn [ConfigParser.nwrites]. rewrite C1, C0.
  intros [= <-]. right. unfold store_step.
  destruct (write_result w (ConfigParser.nwrites (_cfg s)) <=? 0);
    projs; cbn [ConfigParser.nwrites]; rewrite ?O1, ?O0, Hm; auto.
Qed.

Lemma stage_IGNR_PTS_store w s s' :
  mode (_input_data s) = IGNR_PTS ->
  stage_IGNR_PTS w s = Some s' -> store_step w s s'.
Proof.
  intros Hm. unfold stage_IGNR_PTS.
  destruct (waitKey s) as [k s1] eqn:Hw.
  apply waitKey_store in Hw. destruct Hw as [C1 O1].
  cbn [key set_key]. destruct (to_char k =? enter_key w).
  2:{ intros [= <-]. apply same_store_step. split; projs; congruence. }
  cbn [_input_data set_key].
  destruct (match ignrPts (_input_data s1) with
            | [] => true
            | _ => back_empty (ignrPts (_input_data s1))
            end).
  2:{ intros [= <-]. apply same_store_step. split; projs; congruence. }
  set (s2 := match ignrPts (_input_data s1) with [] => _ | _ => _ end).
  assert (H2 : _cfg s2 = _cfg s1 /\ _open s2 = _open s1).
  { subst s2. destruct (ignrPts (_input_data s1)); split; reflexivity. }
  destruct H2 as (C2 & O2).
  unfold write_cfg, cfg_add, ConfigParser.write, ConfigParser.add.
  projs. cbn [ConfigParser.nwrites]. rewrite C2, C1.
  intros [= <-]. right.
  destruct (write_result w (ConfigParser.nwrites (_cfg s)) <=? 0);
    projs; cbn [ConfigParser.nwrites]; rewrite ?O2, ?O1, Hm; auto.
Qed.

Lemma stage_R_square_store w ref_cnrs s s' :
  next_stage (mode (_input_data s)) = EXIT ->
  stage_R_square w ref_cnrs s = Some s' -> store_step w s s'.
Proof.
  intros Hm. unfold stage_R_square.
  set (s0 := if (length (sqrPts (_input_data s)) =? 4)%nat then _ else s).
  assert (H0 : _cfg s0 = _cfg s /\ _open s0 = _open s).
  { subst s0. destruct (_ =? 4)%nat; [|auto]. unfold updateC2ATransform.
    destruct (newEvent _); [|auto].
    destruct (computeRtFromSquare _ _ _ _) as [ret [R' t']].
    split; reflexivity. }
  destruct H0 as (C0 & O0).
  destruct (waitKey s0) as [k s1] eqn:Hw.
  apply waitKey_store in Hw. destruct Hw as [C1 O1].
  cbn [key set_key]. destruct (to_char k =? enter_key w).
  - cbn [_input_data set_key R].
    destruct ((length (sqrPts (_input_data s1)) =? 4)%nat
              && negb (bool_decide (R s1 = []))).
    2:{ intros [= <-]. apply same_store_step. split; projs; congruence. }
    unfold saveC2ATransform, write_cfg, cfg_add, ConfigParser.write,
      ConfigParser.add.
    cbn [R t _cfg _open _input_data set_key emit set_cfg].
    destruct (matrixToOmega w (R s1)) as [[a0 a1] a2].
    projs. cbn [ConfigParser.nwrites]. rewrite C1, C0.
    destruct (write_result w (ConfigParser.nwrites (_cfg s)) <=? 0) eqn:Hr;
      cbn [negb]; intros [= <-]; right; rewrite Hm;
      projs; cbn [ConfigParser.nwrites]; rewrite ?O1, ?O0, ?Hr; auto.
  - destruct (to_char k =? 102).
    + cbn [R set_key]. destruct (negb _); intros [= <-];
        apply same_store_step; split; projs; congruence.
    + intros [= <-]. apply same_store_step. split; projs; congruence.
Qed.

Lemma stage_R_EXT_store w s s' :
  next_stage (mode (_input_data s)) = EXIT ->
  stage_R_EXT w s = Some s' -> store_step w s s'.
Proof.
  intros Hm. unfold stage_R_EXT.
  set (s0 := match ConfigParser.getStr "c2a_r" (_cfg s) with
             | None => _ | Some _ => s end).
  assert (H0 : ConfigParser.nwrites (_cfg s0) = ConfigParser.nwrites (_cfg s)
               /\ _open s0 = _open s).
  { subst s0. destruct (ConfigParser.getStr _ _); split; reflexivity. }
  destruct H0 as (C0 & O0).
  unfold write_cfg, cfg_add, ConfigParser.write, ConfigParser.add.
  projs. cbn [ConfigParser.nwrites]. rewrite C0.
  intros [= <-]. right. rewrite Hm.
  destruct (write_result w (ConfigParser.nwrites (_cfg s)) <=? 0);
    projs; cbn [ConfigParser.nwrites]; rewrite ?O0, ?C0; auto.
Qed.

(** Each pass of the loop writes the store at most once, and a failed write
    clears [_open]. *)
Lemma step_store w s s' : step w s = Some s' -> store_step w s s'.
Proof.
  unfold step. destruct (mode (_input_data s)) eqn:Hm; intros H.
  - apply same_store_step, (stage_CIRC_INIT_store w), H.
  - apply stage_CIRC_PTS_store; assumption.
  - apply same_store_step, (stage_IGNR_INIT_store w), H.
  - apply stage_IGNR_PTS_store; assumption.
  - apply same_store_step, (stage_R_INIT_store w), H.
  - apply same_store_step, (stage_R_SLCT_store w), H.
  - eapply stage_R_square_store; [rewrite Hm; reflexivity|exact H].
  - eapply stage_R_square_store; [rewrite Hm; reflexivity|exact H].
  - eapply stage_R_square_store; [rewrite Hm; reflexivity|exact H].
  - apply stage_R_EXT_store; [rewrite Hm; reflexivity|exact H].
  - injection H as <-. apply same_store_step. split; reflexivity.
Qed.

Lemma loop_closed w fuel s : _open s = false -> loop w fuel s = Some s.
Proof. intros H. destruct fuel; simpl; rewrite H; reflexivity. Qed.

Lemma visited_closed w fuel s : _open s = false -> visited w fuel s = [].
Proof. intros H. destruct fuel; simpl; rewrite H; reflexivity. Qed.

(** Session end (lines 1031-1080). *)
Lemma finish_spec w s :
  fst (finish w s) = _open s
  /\ In (ImWrite (cfg_img_fn s) (imwrite w (cfg_img_fn s)))
        (out (snd (finish w s)))
  /\ In (if _open s then status_complete else status_failed)
        (out (snd (finish w s))).
Proof.
  unfold finish, getchar_clean, getchar, status_complete, status_failed.
  destruct (imwrite w (cfg_img_fn s)); cbn [negb];
    destruct (_open s) eqn:Ho; simpl; rewrite ?Ho;
    destruct (stdin s) eqn:Hst; simpl; rewrite ?Ho, ?Hst; simpl;
    rewrite ?Ho; (split; [reflexivity|]);
    rewrite !in_app_iff; simpl; tauto.
Qed.

(** C3 (as the code has it). When the pass of a stage writes the store and
    that write fails, the session is marked failed, the mode is set to the
    stage that would come next, and the loop ends with this pass: no
    later stage is entered.  Session end then, as after every session,
    writes the annotated snapshot and prints the final status, here the
    request to run the configuration again. *)
Theorem failed_write_ends_loop (w : World) (s s' : Session) (fuel : nat) :
  _open s = true ->
  key s <> exit_key ->
  step w s = Some s' ->
  ConfigParser.nwrites (_cfg s') = S (ConfigParser.nwrites (_cfg s)) ->
  write_result w (ConfigParser.nwrites (_cfg s)) <= 0 ->
  _open s' = false
  /\ mode (_input_data s') = next_stage (mode (_input_data s))
  /\ loop w (S fuel) s = Some s'
  /\ visited w (S fuel) s = [mode (_input_data s)]
  /\ fst (finish w s') = false
  /\ In status_failed (out (snd (finish w s')))
  /\ forall s0,
       fst (finish w s0) = _open s0
       /\ In (ImWrite (cfg_img_fn s0) (imwrite w (cfg_img_fn s0)))
             (out (snd (finish w s0)))
       /\ In (if _open s0 then status_complete else status_failed)
             (out (snd (finish w s0))).
Proof.
  intros Ho Hk Hs Hn Hr.
  destruct (step_store w s s' Hs) as [[Hn' _]|(_ & Ho' & Hm')]; [lia|].
  replace (write_result w (ConfigParser.nwrites (_cfg s)) <=? 0) with true
    in Ho' by (symmetry; apply Z.leb_le; exact Hr).
  assert (Hg : _open s && negb (key s =? exit_key) = true).
  { rewrite Ho. simpl. apply negb_true_iff, Z.eqb_neq. exact Hk. }
  split; [exact Ho'|]. split; [exact Hm'|].
  split. { simpl. rewrite Hg, Hs. simpl. apply loop_closed. exact Ho'. }
  split. { simpl. rewrite Hg, Hs, visited_closed by exact Ho'. reflexivity. }
  destruct (finish_spec w s') as (F1 & _ & F3). rewrite Ho' in F1, F3.
  split; [exact F1|]. split; [exact F3|].
  intros s0. apply finish_spec.
Qed.

Lemma failed_write_ends_loop_witness :
  let w := ExGui.world ExGui.disk_full in
  _open ExGui.ready = true
  /\ key ExGui.ready <> exit_key
  /\ step w ExGui.ready = Some ExGui.after_failed_commit
  /\ ConfigParser.nwrites (_cfg ExGui.after_failed_commit)
     = S (ConfigParser.nwrites (_cfg ExGui.ready))
  /\ write_result w (ConfigParser.nwrites (_cfg ExGui.ready)) <= 0
  /\ _open ExGui.after_failed_commit = false
  /\ loop w 5 ExGui.ready = Some ExGui.after_failed_commit.
Proof.
  cbv zeta.
  assert (Hk : key ExGui.ready <> exit_key) by (vm_compute; discriminate).
  assert (Hr : write_result (ExGui.world ExGui.disk_full)
                 (ConfigParser.nwrites (_cfg ExGui.ready)) <= 0)
    by (vm_compute; discriminate).
  assert (Hs : step (ExGui.world ExGui.disk_full) ExGui.ready
               = Some ExGui.after_failed_commit)
    by (vm_compute; reflexivity).
  assert (Hn : ConfigParser.nwrites (_cfg ExGui.after_failed_commit)
               = S (ConfigParser.nwrites (_cfg ExGui.ready)))
    by (vm_compute; reflexivity).
  split; [reflexivity|]. split; [exact Hk|]. split; [exact Hs|].
  split; [exact Hn|]. split; [exact Hr|].
  destruct (failed_write_ends_loop (ExGui.world ExGui.disk_full)
              ExGui.ready ExGui.after_failed_commit 4
              eq_refl Hk Hs Hn Hr) as (H1 & _ & H3 & _).
  split; [exact H1|exact H3].
Defined.

(** C3 as stated fails: the write of the circumference fails, the loop is
    left at once, IgnoreInit and the stages behind it are never entered and
    the mode never becomes Exit; with a working disk the same input walks
    through to Exit. *)
Lemma failed_write_skips_later_stages :
  match run (ExGui.world ExGui.disk_full) 20 ExGui.scenario with
  | Some (ok, s') =>
      ok = false
      /\ mode (_input_data s') = IGNR_INIT
      /\ In status_failed (out s')
      /\ In (ImWrite "config-configImg.png" true) (out s')
  | None => False
  end
  /\ visited (ExGui.world ExGui.disk_full) 20 (begin ExGui.scenario)
     = [CIRC_INIT; CIRC_PTS; CIRC_PTS; CIRC_PTS; CIRC_PTS]
  /\ ~ In EXIT (visited (ExGui.world ExGui.disk_full) 20 (begin ExGui.scenario))
  /\ visited (ExGui.world ExGui.disk_ok) 20 (begin ExGui.scenario)
     = [CIRC_INIT; CIRC_PTS; CIRC_PTS; CIRC_PTS; CIRC_PTS; IGNR_INIT;
        IGNR_PTS; R_INIT; R_SLCT; R_EXT; EXIT].
Proof.
  split; [vm_compute; repeat split; auto 20|].
  split; [vm_compute; reflexivity|].
  split; [|vm_compute; reflexivity].
  vm_compute. intros H. repeat (destruct H as [H|H]; [discriminate|]).
  exact H.
Qed.

End SessionFacts.

(** * Further properties of the frame source *)

Section CVSourceMore.

Import CVSource SourceSpec.

Ltac conj := repeat split; simpl; eauto.

(** A call of [grab] that gets its frame and can fold it: everything the
    call leaves behind. *)
Lemma grab_returns_full w clk s frame c f cache :
  _open s = true ->
  _cap s = Some c ->
  Spec.frame_in s = Some (true, f) ->
  Spec.normalised f = Some cache ->
  exists s' tr,
    grab w clk s frame =
      Returned true (cv.flip0 (Spec.to_colour w (_bayerType s) cache)) s' tr
    /\ _open s' = true /\ _live s' = _live s /\ _is_image s' = _is_image s
    /\ _bayerType s' = _bayerType s /\ _width s' = _width s
    /\ _height s' = _height s /\ _fps s' = _fps s
    /\ _cap s' = Some (if _is_image s then c else snd (cv.read c))
    /\ _frame_cap s' = cache
    /\ _frame_flp s' = Spec.to_colour w (_bayerType s) cache
    /\ _ms_since_midnight s' = ms_since_midnight clk
    /\ _timestamp s' = (if dle (cv.get c CAP_PROP_POS_MSEC) 0%Q
                        then ts_ms clk else cv.get c CAP_PROP_POS_MSEC)
    /\ existsb is_sleep tr = paced s
    /\ (paced s = false -> statics s' = statics s)
    /\ (paced s = true ->
        exists p, statics s' = Some p /\ prev_ts p = ts_ms clk)
    /\ existsb is_cap_read tr = negb (_is_image s).
Proof.
  intros Hopen Hc Hin Hn. unfold Spec.frame_in in Hin. rewrite Hc in Hin.
  unfold grab, grab_read. rewrite Hopen, Hc. simpl.
  destruct (_is_image s) eqn:Himg.
  - injection Hin as <-. rewrite Hc, Himg.
    set (s1 := if dle _ _ then _ else _).
    assert (Hs1 : _frame_cap s1 = _frame_cap s /\ _height s1 = _height s
                  /\ _bayerType s1 = _bayerType s /\ _open s1 = true
                  /\ _live s1 = _live s /\ _is_image s1 = true
                  /\ _width s1 = _width s /\ _fps s1 = _fps s
                  /\ _cap s1 = Some c /\ statics s1 = statics s
                  /\ _ms_since_midnight s1 = ms_since_midnight clk
                  /\ _timestamp s1 = (if dle (cv.get c CAP_PROP_POS_MSEC) 0%Q
                                      then ts_ms clk
                                      else cv.get c CAP_PROP_POS_MSEC)).
    { subst s1. simpl. destruct (dle _ _); simpl; conj. }
    destruct Hs1 as (Hf1 & Hh1 & Hb1 & Ho1 & Hl1 & Hi1 & Hw1 & Hp1 & Hc1 & Hst1
                     & Hm1 & Ht1).
    unfold grab_reshape, Spec.normalised in *. rewrite Hf1.
    unfold paced.
    destruct (cv.rows (_frame_cap s) =? 1).
    + rewrite Hn. unfold grab_colour, Spec.to_colour, grab_pace. simpl.
      destruct (cv.channels cache =? 1); simpl; rewrite Hl1, Hp1, ?Hb1;
        destruct (negb (_live s) && dlt 0%Q (_fps s));
        simpl; eexists _, _; (split; [reflexivity|]); simpl;
        rewrite ?Ho1, ?Hl1, ?Hi1, ?Hb1, ?Hw1, ?Hh1, ?Hp1, ?Hc1, ?Hm1, ?Ht1, ?Hst1;
        repeat split; auto; try discriminate; eauto.
    + injection Hn as <-.
      unfold grab_colour, Spec.to_colour, grab_pace. rewrite Hf1. simpl.
      destruct (cv.channels (_frame_cap s) =? 1) eqn:Hch; simpl;
        rewrite Hl1, Hp1, ?Hb1;
        destruct (negb (_live s) && dlt 0%Q (_fps s));
        simpl; eexists _, _; (split; [reflexivity|]); simpl;
        rewrite ?Ho1, ?Hl1, ?Hi1, ?Hb1, ?Hw1, ?Hh1, ?Hp1, ?Hc1, ?Hm1, ?Ht1, ?Hst1,
          ?Hf1;
        repeat split; auto; try discriminate; eauto.
  - destruct (cv.read c) as [[ok f0] c'] eqn:Hrd.
    simpl in Hin. injection Hin as -> ->. simpl. rewrite Himg.
    replace (cv.get c' CAP_PROP_POS_MSEC) with (cv.get c CAP_PROP_POS_MSEC).
    2:{ unfold cv.read in Hrd. unfold cv.get.
        destruct (cv.isOpened c) eqn:Hio; [|discriminate].
        destruct (cv.pending c); [discriminate|].
        injection Hrd as _ _ <-. reflexivity. }
    set (s1 := if dle _ _ then _ else _).
    assert (Hs1 : _frame_cap s1 = f /\ _height s1 = _height s
                  /\ _bayerType s1 = _bayerType s /\ _open s1 = true
                  /\ _live s1 = _live s /\ _is_image s1 = false
                  /\ _width s1 = _width s /\ _fps s1 = _fps s
                  /\ _cap s1 = Some c' /\ statics s1 = statics s
                  /\ _ms_since_midnight s1 = ms_since_midnight clk
                  /\ _timestamp s1 = (if dle (cv.get c CAP_PROP_POS_MSEC) 0%Q
                                      then ts_ms clk
                                      else cv.get c CAP_PROP_POS_MSEC)).
    { subst s1. simpl. destruct (dle _ _); simpl; conj. }
    destruct Hs1 as (Hf1 & Hh1 & Hb1 & Ho1 & Hl1 & Hi1 & Hw1 & Hp1 & Hc1 & Hst1
                     & Hm1 & Ht1).
    unfold grab_reshape, Spec.normalised in *. rewrite Hf1.
    unfold paced.
    destruct (cv.rows f =? 1).
    + rewrite Hn. unfold grab_colour, Spec.to_colour, grab_pace. simpl.
      destruct (cv.channels cache =? 1); simpl; rewrite Hl1, Hp1, ?Hb1;
        destruct (negb (_live s) && dlt 0%Q (_fps s));
        simpl; eexists _, _; (split; [reflexivity|]); simpl;
        rewrite ?Ho1, ?Hl1, ?Hi1, ?Hb1, ?Hw1, ?Hh1, ?Hp1, ?Hc1, ?Hm1, ?Ht1, ?Hst1;
        repeat split; auto; try discriminate; eauto.
    + injection Hn as <-.
      unfold grab_colour, Spec.to_colour, grab_pace. rewrite Hf1. simpl.
      destruct (cv.channels f =? 1) eqn:Hch; simpl;
        rewrite Hl1, Hp1, ?Hb1;
        destruct (negb (_live s) && dlt 0%Q (_fps s));
        simpl; eexists _, _; (split; [reflexivity|]); simpl;
        rewrite ?Ho1, ?Hl1, ?Hi1, ?Hb1, ?Hw1, ?Hh1, ?Hp1, ?Hc1, ?Hm1, ?Ht1, ?Hst1,
          ?Hf1;
        repeat split; auto; try discriminate; eauto.
Qed.

Lemma grab_null w clk s frame :
  _open s = true -> _cap s = None ->
  exists tr, grab w clk s frame = NullDeref tr.
Proof.
  intros Ho Hc. unfold grab, grab_read. rewrite Ho, Hc. simpl.
  destruct (_is_image s) eqn:Hi; [rewrite Hc|]; eauto.
Qed.

Lemma grab_read_fails w clk s frame c f :
  _open s = true -> _cap s = Some c ->
  Spec.frame_in s = Some (false, f) ->
  grab w clk s frame
  = Returned false frame
      (with_frame_cap (with_cap s (Some (snd (cv.read c)))) f)
      [CapRead; Log ERR "Error grabbing image frame!"].
Proof.
  intros Ho Hc Hin. unfold Spec.frame_in in Hin. rewrite Hc in Hin.
  unfold grab, grab_read. rewrite Ho, Hc. simpl.
  destruct (_is_image s); [discriminate|].
  destruct (cv.read c) as [[ok f0] c']. simpl in Hin.
  injection Hin as -> ->. reflexivity.
Qed.

(** What a call that returned true started from. *)
Lemma grab_true_inv w clk s frame fr s' tr :
  grab w clk s frame = Returned true fr s' tr ->
  _open s = true
  /\ exists c f cache,
       _cap s = Some c /\ Spec.frame_in s = Some (true, f)
       /\ Spec.normalised f = Some cache.
Proof.
  intros H.
  destruct (_open s) eqn:Ho.
  2:{ unfold grab in H. rewrite Ho in H. discriminate. }
  split; [reflexivity|].
  destruct (_cap s) as [c|] eqn:Hc.
  2:{ destruct (grab_null w clk s frame Ho Hc) as [tr' E]. congruence. }
  destruct (Spec.frame_in s) as [[ok f]|] eqn:Hin.
  2:{ unfold Spec.frame_in in Hin. rewrite Hc in Hin.
      destruct (_is_image s); discriminate. }
  destruct ok.
  2:{ rewrite (grab_read_fails w clk s frame c f Ho Hc Hin) in H.
      discriminate. }
  destruct (Spec.normalised f) as [cache|] eqn:Hn.
  - exists c, f, cache. auto.
  - destruct (grab_throws w clk s frame f Ho Hin Hn) as (s1 & tr1 & E).
    congruence.
Qed.

(** X1. When [grab] returns false, the caller's frame is handed back as it
    was, nothing has slept, and the time stamps, the pacing state, the
    size, the rate and the flags of the source are what they were; on an
    unopened source nothing at all has happened. *)
Theorem grab_false_untouched (w : cv.World) (clk : Clock) (s s' : t)
    (frame fr : cv.Mat) (tr : list Event) :
  grab w clk s frame = Returned false fr s' tr ->
  fr = frame
  /\ existsb is_sleep tr = false
  /\ _timestamp s' = _timestamp s
  /\ _ms_since_midnight s' = _ms_since_midnight s
  /\ statics s' = statics s
  /\ _width s' = _width s /\ _height s' = _height s /\ _fps s' = _fps s
  /\ _open s' = _open s /\ _live s' = _live s /\ _is_image s' = _is_image s
  /\ (_open s = false -> s' = s /\ tr = []).
Proof.
  intros H.
  destruct (_open s) eqn:Ho.
  2:{ unfold grab in H. rewrite Ho in H. simpl in H.
      injection H as <- <- <-. rewrite Ho. conj. }
  destruct (_cap s) as [c|] eqn:Hc.
  2:{ destruct (grab_null w clk s frame Ho Hc) as [tr' E]. congruence. }
  destruct (Spec.frame_in s) as [[ok f]|] eqn:Hin.
  2:{ unfold Spec.frame_in in Hin. rewrite Hc in Hin.
      destruct (_is_image s); discriminate. }
  destruct ok.
  - exfalso. destruct (Spec.normalised f) as [cache|] eqn:Hn.
    + destruct (grab_returns_full w clk s frame c f cache Ho Hc Hin Hn)
        as (s1 & tr1 & E & _). congruence.
    + destruct (grab_throws w clk s frame f Ho Hin Hn) as (s1 & tr1 & E).
      congruence.
  - rewrite (grab_read_fails w clk s frame c f Ho Hc Hin) in H.
    injection H as <- <- <-. simpl. rewrite Ho. conj; discriminate.
Qed.

Lemma grab_false_untouched_witness :
  exists s',
    grab (ExSource.video_world [ExSource.frame_a]) Ex.clk0
         ExSource.one_frame_video ExSource.frame_b
    = Returned false ExSource.frame_b s'
        [CapRead; Log ERR "Error grabbing image frame!"]
    /\ statics s' = statics ExSource.one_frame_video.
Proof.
  eexists. split; [reflexivity|].
  eapply (grab_false_untouched (ExSource.video_world [ExSource.frame_a])
            Ex.clk0 ExSource.one_frame_video _ ExSource.frame_b).
  reflexivity.
Defined.

(** *** What the constructor leaves in the object *)

Lemma read_closed c : cv.isOpened c = false -> snd (cv.read c) = c.
Proof. intros H. unfold cv.read. rewrite H. reflexivity. Qed.

Lemma read_props c : cv.props (snd (cv.read c)) = cv.props c
                     /\ cv.isOpened (snd (cv.read c)) = cv.isOpened c.
Proof.
  unfold cv.read. destruct (cv.isOpened c) eqn:E; [|auto].
  destruct (cv.pending c); simpl; auto.
Qed.

Lemma read_get c p : cv.get (snd (cv.read c)) p = cv.get c p.
Proof.
  unfold cv.get. destruct (read_props c) as [-> ->]. reflexivity.
Qed.

Lemma resolve_fields w input s :
  let r := fst (resolve w input s) in
  _width r = _width s /\ _height r = _height s /\ _fps r = _fps s
  /\ _bayerType r = _bayerType s /\ statics r = statics s
  /\ match Spec.classify w input with
     | Some CameraId =>
         exists id, stoi input = Some id
                    /\ _cap r = Some (snd (cv.read (cv.camera w id)))
     | _ => _cap r = Some (snd (cv.read (cv.file w input)))
     end.
Proof.
  unfold resolve, Spec.classify, Spec.camera_probe, Spec.video_probe,
    Spec.image_probe, Spec.test_capture, try_camera, try_video, try_image.
  destruct (Z.ltb_spec 2 (Z.of_nat (String.length input))) as [Hlen|Hlen].
  - replace (String.length input <=? 2)%nat with false
      by (symmetry; apply Nat.leb_gt; lia).
    simpl.
    destruct (cv.isOpened (cv.file w input)) eqn:Hf; simpl.
    + destruct (cv.read (cv.file w input)) as [[ok f] c'] eqn:Hr. simpl.
      destruct (cv.empty f); simpl;
        [destruct (cv.empty (cv.imread w input))|]; simpl; conj.
    + rewrite (read_closed _ Hf).
      destruct (cv.empty (cv.imread w input)); simpl; conj.
  - replace (String.length input <=? 2)%nat with true
      by (symmetry; apply Nat.leb_le; lia).
    simpl. destruct (stoi input) as [id|]; simpl.
    + destruct (cv.isOpened (cv.camera w id)) eqn:Hcam; simpl.
      * destruct (cv.read (cv.camera w id)) as [[ok f] c'] eqn:Hr. simpl.
        destruct (cv.empty f); simpl.
        -- destruct (cv.isOpened (cv.file w input)) eqn:Hf; simpl.
           ++ destruct (cv.read (cv.file w input)) as [[ok2 f2] c2] eqn:Hr2.
              simpl. destruct (cv.empty f2); simpl;
                [destruct (cv.empty (cv.imread w input))|]; simpl; conj.
           ++ rewrite (read_closed _ Hf).
              destruct (cv.empty (cv.imread w input)); simpl; conj.
        -- conj. exists id. rewrite Hr. auto.
      * destruct (cv.isOpened (cv.file w input)) eqn:Hf; simpl.
        -- destruct (cv.read (cv.file w input)) as [[ok2 f2] c2] eqn:Hr2.
           simpl. destruct (cv.empty f2); simpl;
             [destruct (cv.empty (cv.imread w input))|]; simpl; conj.
        -- rewrite (read_closed _ Hf).
           destruct (cv.empty (cv.imread w input)); simpl; conj.
    + destruct (cv.isOpened (cv.file w input)) eqn:Hf; simpl.
      * destruct (cv.read (cv.file w input)) as [[ok2 f2] c2] eqn:Hr2.
        simpl. destruct (cv.empty f2); simpl;
          [destruct (cv.empty (cv.imread w input))|]; simpl; conj.
      * rewrite (read_closed _ Hf).
        destruct (cv.empty (cv.imread w input)); simpl; conj.
Qed.

Lemma new_fields w base input :
  let s := fst (new w base input) in
  _bayerType s = _bayerType base /\ statics s = statics base
  /\ match Spec.classify w input with
     | Some CameraId =>
         exists id, stoi input = Some id
           /\ _cap s = Some (snd (cv.read (cv.camera w id)))
           /\ _width s = static_cast_int
                           (cv.get (cv.camera w id) CAP_PROP_FRAME_WIDTH)
           /\ _height s = static_cast_int
                            (cv.get (cv.camera w id) CAP_PROP_FRAME_HEIGHT)
           /\ _fps s = cv.get (cv.camera w id) CAP_PROP_FPS
     | Some VideoFile =>
         _cap s = Some (snd (cv.read (cv.file w input)))
         /\ _width s = static_cast_int
                         (cv.get (cv.file w input) CAP_PROP_FRAME_WIDTH)
         /\ _height s = static_cast_int
                          (cv.get (cv.file w input) CAP_PROP_FRAME_HEIGHT)
         /\ _fps s = _fps base
     | Some ImageFile =>
         _cap s = Some (snd (cv.read (cv.file w input)))
         /\ _width s = cv.cols (cv.imread w input)
         /\ _height s = cv.rows (cv.imread w input)
         /\ _fps s = _fps base
     | None =>
         _cap s = Some (snd (cv.read (cv.file w input)))
         /\ _width s = _width base /\ _height s = _height base
         /\ _fps s = _fps base
     end.
Proof.
  unfold new.
  pose proof (resolve_spec w input (with_is_image base false)) as H1.
  pose proof (resolve_fields w input (with_is_image base false)) as H2.
  destruct (resolve w input (with_is_image base false)) as [sr tr].
  cbv zeta in H1, H2. simpl fst in H1, H2. simpl snd in H1.
  destruct H1 as (_ & Ho & Hl & Hi & _ & Hf).
  destruct H2 as (Hw & Hh & Hp & Hb & Hst & Hc).
  simpl in Hw, Hh, Hp, Hb, Hst, Hl, Hi.
  destruct (Spec.classify w input) as [[| |]|]; rewrite Ho;
    unfold getFPS, cap_get.
  - destruct Hc as (id & Hid & Hc).
    do 3 (simpl; rewrite ?Hc, ?Ho, ?Hi, ?Hl). simpl.
    split; [exact Hb|]. split; [exact Hst|].
    exists id. rewrite !read_get. conj.
  - do 3 (simpl; rewrite ?Hc, ?Ho, ?Hi, ?Hl). simpl.
    rewrite !read_get. conj.
  - do 3 (simpl; rewrite ?Hc, ?Ho, ?Hi, ?Hl). simpl.
    rewrite (Hf eq_refl). conj.
  - simpl. conj.
Qed.

(** X2. The capture pointer of a constructed source is never null, and
    [grab], [setFPS], [setWH] and [rewind] keep it set: on an object that
    came from the constructor [grab] never dereferences a null pointer,
    whichever way the call ends. *)
Theorem capture_pointer_stays_set (w : cv.World) (base : t) (input : string) :
  has_cap (fst (new w base input))
  /\ forall s, has_cap s ->
       (forall clk frame,
          exists s', state_of (grab w clk s frame) = Some s' /\ has_cap s')
       /\ (forall fps, has_cap (snd (fst (setFPS s fps))))
       /\ (forall width height, has_cap (snd (fst (setWH s width height))))
       /\ has_cap (snd (fst (rewind s))).
Proof.
  split.
  { destruct (new_spec w base input) as (_ & _ & _ & _ & H & _). exact H. }
  intros s [c Hc]. unfold has_cap. split; [|split; [|split]].
  - intros clk frame. destruct (_open s) eqn:Ho.
    2:{ exists s. unfold grab. rewrite Ho. simpl. rewrite Hc. eauto. }
    destruct (Spec.frame_in s) as [[ok f]|] eqn:Hin.
    2:{ unfold Spec.frame_in in Hin. rewrite Hc in Hin.
        destruct (_is_image s); discriminate. }
    destruct ok.
    + destruct (Spec.normalised f) as [cache|] eqn:Hn.
      * destruct (grab_returns_full w clk s frame c f cache Ho Hc Hin Hn)
          as (s' & tr & -> & _ & _ & _ & _ & _ & _ & _ & Hc' & _).
        exists s'. simpl. rewrite Hc'. eauto.
      * unfold Spec.frame_in in Hin. rewrite Hc in Hin.
        unfold grab, grab_read. rewrite Ho, Hc. simpl.
        destruct (_is_image s) eqn:Himg.
        -- injection Hin as <-. rewrite Hc, Himg.
           set (s1 := if dle _ _ then _ else _).
           assert (Hs1 : _frame_cap s1 = _frame_cap s /\ _cap s1 = Some c).
           { subst s1. destruct (dle _ _); split; simpl; auto. }
           destruct Hs1 as (Hf1 & Hc1).
           unfold grab_reshape, Spec.normalised in *. rewrite Hf1.
           destruct (cv.rows (_frame_cap s) =? 1); [|discriminate].
           rewrite Hn. exists s1. simpl. rewrite Hc1. eauto.
        -- destruct (cv.read c) as [[ok f0] c'] eqn:Hrd.
           simpl in Hin. injection Hin as -> ->. simpl. rewrite Himg.
           set (s1 := if dle _ _ then _ else _).
           assert (Hs1 : _frame_cap s1 = f /\ _cap s1 = Some c').
           { subst s1. destruct (dle _ _); split; simpl; auto. }
           destruct Hs1 as (Hf1 & Hc1).
           unfold grab_reshape, Spec.normalised in *. rewrite Hf1.
           destruct (cv.rows f =? 1); [|discriminate].
           rewrite Hn. exists s1. simpl. rewrite Hc1. eauto.
    + rewrite (grab_read_fails w clk s frame c f Ho Hc Hin).
      eexists. simpl. eauto.
  - intros fps. unfold setFPS. rewrite Hc.
    destruct (_open s && dlt 0%Q fps); [|simpl; rewrite Hc; eauto].
    destruct (cv.set c CAP_PROP_FPS fps) as [ok c'].
    destruct ok; simpl; [destruct (getFPS _)|]; simpl; eauto.
  - intros width height. unfold setWH. rewrite Hc.
    destruct (_open s && (0 <? width) && (0 <? height));
      [|simpl; rewrite Hc; eauto].
    destruct (cv.set c CAP_PROP_FOURCC _) as [o1 c1].
    destruct (cv.set c1 CAP_PROP_CONVERT_RGB _) as [o2 c2].
    destruct (cv.set c2 CAP_PROP_FRAME_WIDTH _) as [o3 c3].
    destruct (cv.set c3 CAP_PROP_FRAME_HEIGHT _) as [o4 c4].
    destruct (negb (o3 && o4)); simpl; [eauto|].
    destruct (_ && _); simpl; eauto.
  - unfold rewind. rewrite Hc.
    destruct (_open s); [|simpl; rewrite Hc; eauto].
    destruct (cv.set c CAP_PROP_POS_FRAMES 0%Q) as [ok c'].
    destruct ok; simpl; eauto.
Qed.

Lemma probe_succeeds c :
  Spec.test_capture c = true ->
  cv.isOpened c = true
  /\ exists f rest, cv.pending c = f :: rest /\ cv.empty f = false.
Proof.
  unfold Spec.test_capture, cv.read.
  destruct (cv.isOpened c); [|discriminate]. simpl.
  destruct (cv.pending c) as [|f rest]; [discriminate|]. simpl.
  intros H. apply negb_true_iff in H. eauto.
Qed.

Lemma classify_probed w input k c0 :
  Spec.classify w input = Some k -> probed w input k = Some c0 ->
  Spec.test_capture c0 = true.
Proof.
  unfold Spec.classify, Spec.camera_probe, Spec.video_probe, probed.
  intros H1 H2. destruct k; simpl in H2.
  - destruct (stoi input) as [id|]; simpl in H2; [|discriminate].
    injection H2 as <-.
    destruct (String.length input <=? 2)%nat; simpl in H1;
      destruct (Spec.test_capture (cv.camera w id)) eqn:E; auto;
      destruct (Spec.test_capture (cv.file w input)); try discriminate;
      destruct (Spec.image_probe w input); discriminate.
  - injection H2 as <-.
    destruct (_ && _); [discriminate|].
    destruct (Spec.test_capture (cv.file w input)) eqn:E; auto.
    destruct (Spec.image_probe w input); discriminate.
  - discriminate.
Qed.

(** X3. The test capture of the constructor is taken from the stream itself:
    a source opened as camera or video holds the probed capture object with
    its first frame already consumed, so the first [grab] starts from the
    second frame (and fails if there is none). *)
Theorem test_capture_takes_first_frame (w : cv.World) (base : t)
    (input : string) (k : SourceType) (c0 : cv.VideoCapture) :
  Spec.classify w input = Some k ->
  probed w input k = Some c0 ->
  exists f1 rest,
    cv.pending c0 = f1 :: rest
    /\ (exists c, _cap (fst (new w base input)) = Some c
                  /\ cv.pending c = rest)
    /\ Spec.frame_in (fst (new w base input))
       = Some (match rest with
               | [] => (false, cv.Mat0)
               | f2 :: _ => (negb (cv.empty f2), f2)
               end).
Proof.
  intros Hk Hp.
  destruct (probe_succeeds c0 (classify_probed w input k c0 Hk Hp))
    as (Hop & f1 & rest & Hpend & _).
  exists f1, rest. split; [exact Hpend|].
  destruct (new_fields w base input) as (_ & _ & Hf).
  destruct (new_spec w base input) as (_ & _ & _ & Hi & _).
  rewrite Hk in Hf, Hi.
  assert (Hc : _cap (fst (new w base input)) = Some (snd (cv.read c0))
               /\ _is_image (fst (new w base input)) = false).
  { destruct k; simpl in Hp.
    - destruct Hf as (id & Hid & Hc & _). rewrite Hid in Hp. simpl in Hp.
      injection Hp as <-. auto.
    - injection Hp as <-. destruct Hf as (Hc & _). auto.
    - discriminate. }
  destruct Hc as (Hc & Himg).
  assert (Hrd : cv.pending (snd (cv.read c0)) = rest
                /\ cv.isOpened (snd (cv.read c0)) = true).
  { unfold cv.read. rewrite Hop, Hpend. simpl. auto. }
  destruct Hrd as (Hrest & Hop').
  split; [eauto|].
  unfold Spec.frame_in. rewrite Hc, Himg.
  unfold cv.read at 1. rewrite Hop', Hrest.
  destruct rest; reflexivity.
Qed.

Lemma test_capture_takes_first_frame_witness :
  Spec.classify (ExSource.video_world [ExSource.frame_a; ExSource.frame_b])
                "run.avi" = Some VideoFile
  /\ Spec.frame_in ExSource.two_frame_video = Some (true, ExSource.frame_b).
Proof.
  split; [reflexivity|].
  destruct (test_capture_takes_first_frame
              (ExSource.video_world [ExSource.frame_a; ExSource.frame_b])
              Ex.base0 "run.avi" VideoFile
              (ExSource.container [ExSource.frame_a; ExSource.frame_b])
              eq_refl eq_refl) as (f1 & rest & Hp & _ & Hin).
  injection Hp as <- <-. exact Hin.
Defined.

Lemma dle_dlt a : dle a 0%Q = false -> dlt 0%Q a = true.
Proof.
  unfold dle, dlt, Qle_bool. simpl. intros H.
  apply Z.leb_gt in H. apply Z.ltb_lt. lia.
Qed.

(** X4. A call of [grab] that returns true stamps the frame with the
    position the backend reports, or with the wall clock when that position
    is not positive, and records the clock of the day; with a positive wall
    clock the stamp is positive. *)
Theorem grab_timestamps (w : cv.World) (clk : Clock) (s s' : t)
    (frame fr : cv.Mat) (tr : list Event) :
  grab w clk s frame = Returned true fr s' tr ->
  _ms_since_midnight s' = ms_since_midnight clk
  /\ (exists c, _cap s = Some c
        /\ _timestamp s' = (if dle (cv.get c CAP_PROP_POS_MSEC) 0%Q
                            then ts_ms clk else cv.get c CAP_PROP_POS_MSEC))
  /\ (dlt 0%Q (ts_ms clk) = true -> dlt 0%Q (_timestamp s') = true).
Proof.
  intros H.
  destruct (grab_true_inv _ _ _ _ _ _ _ H) as (Ho & c & f & cache & Hc & Hin & Hn).
  destruct (grab_returns_full w clk s frame c f cache Ho Hc Hin Hn)
    as (s1 & tr1 & E & F).
  rewrite E in H. injection H as _ <- _.
  destruct F as (_ & _ & _ & _ & _ & _ & _ & _ & _ & _ & Hm & Ht & _).
  split; [exact Hm|]. split; [eauto|].
  intros Hpos. rewrite Ht.
  destruct (dle (cv.get c CAP_PROP_POS_MSEC) 0%Q) eqn:E1;
    [exact Hpos|apply dle_dlt; exact E1].
Qed.

Lemma grab_timestamps_witness :
  exists fr s' tr,
    grab (ExSource.video_world [ExSource.frame_a; ExSource.frame_b]) Ex.clk0
         ExSource.two_frame_video cv.Mat0 = Returned true fr s' tr
    /\ _timestamp s' = 40%Q
    /\ _ms_since_midnight s' = 5000%Q.
Proof.
  eexists _, _, _. split; [reflexivity|].
  split; [reflexivity|].
  eapply (grab_timestamps
            (ExSource.video_world [ExSource.frame_a; ExSource.frame_b])
            Ex.clk0 ExSource.two_frame_video _ cv.Mat0).
  reflexivity.
Defined.

(** X5. [grab] sleeps exactly when it returns a frame of a source that is
    not live and has a positive rate; then it remembers the wall clock of
    this frame for the next pace.  A live source, or one without a positive
    rate, never sleeps and its pacing state is not touched.  Size, rate and
    flags are never changed by [grab]. *)
Theorem grab_paces_playback_only (w : cv.World) (clk : Clock) (s s' : t)
    (frame fr : cv.Mat) (tr : list Event) :
  grab w clk s frame = Returned true fr s' tr ->
  existsb is_sleep tr = paced s
  /\ (paced s = false -> statics s' = statics s)
  /\ (paced s = true -> exists p, statics s' = Some p /\ prev_ts p = ts_ms clk)
  /\ (_live s = true -> existsb is_sleep tr = false)
  /\ _fps s' = _fps s /\ _live s' = _live s
  /\ _width s' = _width s /\ _height s' = _height s
  /\ _bayerType s' = _bayerType s /\ _is_image s' = _is_image s.
Proof.
  intros H.
  destruct (grab_true_inv _ _ _ _ _ _ _ H) as (Ho & c & f & cache & Hc & Hin & Hn).
  destruct (grab_returns_full w clk s frame c f cache Ho Hc Hin Hn)
    as (s1 & tr1 & E & F).
  rewrite E in H. injection H as _ <- <-.
  destruct F as (_ & Hl & Hi & Hb & Hw & Hh & Hp & _ & _ & _ & _ & _ & Hs
                 & Hst0 & Hst1 & _).
  repeat (split; [assumption|]).
  split; [|auto 10].
  intros Hlive. rewrite Hs. unfold paced. rewrite Hlive. reflexivity.
Qed.

Lemma grab_paces_playback_only_witness :
  let s := with_fps ExSource.two_frame_video 25%Q in
  paced s = true
  /\ exists fr s' tr,
       grab (ExSource.video_world [ExSource.frame_a; ExSource.frame_b])
            Ex.clk0 s cv.Mat0 = Returned true fr s' tr
       /\ existsb is_sleep tr = true.
Proof.
  cbv zeta. split; [reflexivity|].
  eexists _, _, _. split; [reflexivity|].
  eapply (grab_paces_playback_only
            (ExSource.video_world [ExSource.frame_a; ExSource.frame_b])
            Ex.clk0 (with_fps ExSource.two_frame_video 25%Q) _ cv.Mat0).
  reflexivity.
Defined.

(** *** Size, rate, and closed sources *)

(** X6. [setWH] answers true only when the backend afterwards reports exactly
    the requested width and height, which the source then holds.  Whenever
    it goes to the backend at all (opened source, positive sizes) it forces
    the Bayer layout GRBG; if the backend refuses a dimension the requested
    size is taken over for playback and the answer is false.  Otherwise
    (unopened source or a size that is not positive) nothing happens. *)
Theorem setWH_exact_match (s : t) (c : cv.VideoCapture) (width height : Z) :
  _cap s = Some c ->
  let ret := fst (fst (setWH s width height)) in
  let s' := snd (fst (setWH s width height)) in
  let attempted := _open s && (0 <? width) && (0 <? height) in
  let '(width_set, height_set, c') := resized c width height in
  (ret = true ->
   attempted = true /\ _width s' = width /\ _height s' = height
   /\ static_cast_int (cv.get c' CAP_PROP_FRAME_WIDTH) = width
   /\ static_cast_int (cv.get c' CAP_PROP_FRAME_HEIGHT) = height)
  /\ (attempted = true ->
      _bayerType s' = BAYER_GRBG /\ _cap s' = Some c'
      /\ (width_set && height_set = false ->
          ret = false /\ _width s' = width /\ _height s' = height)
      /\ (width_set && height_set = true ->
          _width s' = static_cast_int (cv.get c' CAP_PROP_FRAME_WIDTH)
          /\ _height s' = static_cast_int (cv.get c' CAP_PROP_FRAME_HEIGHT)
          /\ ret = (_width s' =? width) && (_height s' =? height)))
  /\ (attempted = false -> setWH s width height = (false, s, [])).
Proof.
  intros Hc. cbv zeta. unfold setWH, resized. rewrite Hc.
  destruct (cv.set c CAP_PROP_FOURCC _) as [o1 c1] eqn:E1.
  cbn [fst snd].
  destruct (cv.set c1 CAP_PROP_CONVERT_RGB _) as [o2 c2] eqn:E2.
  cbn [fst snd].
  destruct (cv.set c2 CAP_PROP_FRAME_WIDTH _) as [o3 c3] eqn:E3.
  destruct (cv.set c3 CAP_PROP_FRAME_HEIGHT _) as [o4 c4] eqn:E4.
  destruct (_open s && (0 <? width) && (0 <? height)) eqn:Hatt.
  2:{ simpl. repeat split; intros; discriminate. }
  destruct (o3 && o4) eqn:Hset; cbn [negb].
  - cbn [fst snd _width _height with_wh].
    destruct (Z.eqb_spec (static_cast_int (cv.get c4 CAP_PROP_FRAME_WIDTH)) width)
      as [Ew|Ew];
    destruct (Z.eqb_spec (static_cast_int (cv.get c4 CAP_PROP_FRAME_HEIGHT)) height)
      as [Eh|Eh]; simpl.
    all: split; [try discriminate; auto|].
    all: split; [|discriminate].
    all: intros _; split; [reflexivity|]; split; [reflexivity|];
         split; [discriminate|]; intros _.
    all: split; [reflexivity|]; split; [reflexivity|].
    all: rewrite <- ?Ew, <- ?Eh, ?Z.eqb_refl; simpl; try reflexivity.
    all: try (symmetry; apply Z.eqb_neq; exact Eh).
    all: try (symmetry; apply andb_false_iff).
    all: try (left; apply Z.eqb_neq; exact Ew).
    all: try (right; apply Z.eqb_neq; exact Eh).
  - simpl. split; [discriminate|]. split; [|discriminate].
    intros _. split; [reflexivity|]. split; [reflexivity|].
    split; [auto|]. discriminate.
Qed.

Lemma setWH_exact_match_witness :
  (exists c, _cap Ex.camera_source = Some c)
  /\ fst (fst (setWH Ex.camera_source 320 240)) = true
  /\ _bayerType (snd (fst (setWH Ex.camera_source 320 240))) = BAYER_GRBG.
Proof.
  split; [eexists; reflexivity|]. split; [reflexivity|].
  pose proof (setWH_exact_match Ex.camera_source _ 320 240 eq_refl) as H.
  cbv zeta in H.
  destruct (resized _ 320 240) as [[width_set height_set] c'].
  destruct H as (_ & H & _). apply H. reflexivity.
Defined.

(** X7. On a source that is not open no operation goes to the backend:
    [grab] returns false with the caller's frame, [getFPS] answers the
    stored rate, and [setFPS], [setWH] and [rewind] answer false; the
    object is left as it was and nothing is logged. *)
Theorem closed_source_inert (s : t) :
  _open s = false ->
  (forall w clk frame, grab w clk s frame = Returned false frame s [])
  /\ getFPS s = (_fps s, [])
  /\ (forall fps, setFPS s fps = (false, s, []))
  /\ (forall width height, setWH s width height = (false, s, []))
  /\ rewind s = (false, s, []).
Proof.
  intros Ho. unfold grab, getFPS, setFPS, setWH, rewind. rewrite Ho.
  destruct (_cap s); simpl; auto.
Qed.

Lemma closed_source_inert_witness :
  _open ExSource.unresolved = false
  /\ rewind ExSource.unresolved = (false, ExSource.unresolved, []).
Proof.
  split; [reflexivity|].
  apply (closed_source_inert ExSource.unresolved eq_refl).
Defined.

(** X8. A rate the backend accepts is not taken over as requested: the
    source asks the backend back and holds the rate it then reports.  A
    rate that is not positive is not forwarded at all and changes
    nothing. *)
Theorem setFPS_takes_reported_rate (s : t) (c : cv.VideoCapture)
    (fps : double) :
  _open s = true ->
  _cap s = Some c ->
  (dlt 0%Q fps = true ->
   fst (cv.set c CAP_PROP_FPS fps) = true ->
   _fps (snd (fst (setFPS s fps))) = cv.reported c CAP_PROP_FPS fps
   /\ _cap (snd (fst (setFPS s fps))) = Some (snd (cv.set c CAP_PROP_FPS fps))
   /\ snd (setFPS s fps)
      = [CapSet CAP_PROP_FPS fps; CapGet CAP_PROP_FPS;
         Log INF "Device frame rate is now %.2f"])
  /\ (dlt 0%Q fps = false -> setFPS s fps = (false, s, [])).
Proof.
  intros Ho Hc. unfold setFPS. rewrite Hc, Ho. simpl. split.
  - intros -> Hacc. unfold cv.set in *.
    destruct (cv.isOpened c && cv.accepts c CAP_PROP_FPS fps) eqn:E;
      [|discriminate].
    apply andb_true_iff in E. destruct E as (Hop & _).
    simpl. unfold getFPS. simpl. rewrite Ho. simpl.
    unfold cv.get. simpl. rewrite Hop. simpl. auto.
  - intros ->. reflexivity.
Qed.

Lemma setFPS_takes_reported_rate_witness :
  _open Ex.camera_source = true
  /\ (exists c, _cap Ex.camera_source = Some c
        /\ _fps (snd (fst (setFPS Ex.camera_source 30%Q)))
           = cv.reported c CAP_PROP_FPS 30%Q).
Proof.
  split; [reflexivity|]. eexists. split; [reflexivity|].
  eapply (setFPS_takes_reported_rate Ex.camera_source _ 30%Q);
    reflexivity.
Defined.

(** X9. The constructor takes the size of a still image from its decode and
    the size of a camera or video from the backend (truncated to int); it
    reads the rate from the backend for a camera only: for a video or an
    image, and when nothing opens, the rate is left as the header set it.
    The Bayer layout and the pacing state are never touched. *)
Theorem constructor_size_and_rate (w : cv.World) (base : t) (input : string) :
  let s := fst (new w base input) in
  _bayerType s = _bayerType base /\ statics s = statics base
  /\ match Spec.classify w input with
     | Some CameraId =>
         exists id, stoi input = Some id
           /\ _width s = static_cast_int
                           (cv.get (cv.camera w id) CAP_PROP_FRAME_WIDTH)
           /\ _height s = static_cast_int
                            (cv.get (cv.camera w id) CAP_PROP_FRAME_HEIGHT)
           /\ _fps s = cv.get (cv.camera w id) CAP_PROP_FPS
     | Some VideoFile =>
         _width s = static_cast_int
                      (cv.get (cv.file w input) CAP_PROP_FRAME_WIDTH)
         /\ _height s = static_cast_int
                          (cv.get (cv.file w input) CAP_PROP_FRAME_HEIGHT)
         /\ _fps s = _fps base
     | Some ImageFile =>
         _width s = cv.cols (cv.imread w input)
         /\ _height s = cv.rows (cv.imread w input)
         /\ _fps s = _fps base
     | None =>
         _width s = _width base /\ _height s = _height base
         /\ _fps s = _fps base
     end.
Proof.
  destruct (new_fields w base input) as (Hb & Hst & H). cbv zeta.
  split; [exact Hb|]. split; [exact Hst|].
  destruct (Spec.classify w input) as [[| |]|].
  - destruct H as (id & Hid & _ & H). eauto.
  - destruct H as (_ & H). exact H.
  - destruct H as (_ & H). exact H.
  - destruct H as (_ & H). exact H.
Qed.

End CVSourceMore.

(** * Further properties of the calibration session *)

Section MouseMore.

Import ConfigGui GuiSpec SessionSpec.




Lemma left_click_active p d :
  collecting (mode d) = true ->
  active_points (left_click p d) = active_points d ++ [clicked p]
  /\ removelast (ignrPts (left_click p d)) = removelast (ignrPts d).
Proof.
  intros H. destruct (mode d) eqn:Hm; try discriminate H.
  - unfold active_points. rewrite left_click_mode, Hm.
    unfold left_click, onMouseEvent. rewrite Hm. split; reflexivity.
  - destruct (left_click_ignr p d Hm) as (H0 & H1 & _).
    unfold active_points. rewrite left_click_mode, Hm.
    destruct (ignrPts d) as [|a l] eqn:Hi using rev_ind.
    + rewrite (H0 eq_refl). split; reflexivity.
    + clear IHl. rewrite (H1 _ _ eq_refl).
      rewrite !last_snoc, !removelast_last. split; reflexivity.
  - unfold active_points. rewrite left_click_mode, Hm.
    unfold left_click, onMouseEvent. rewrite Hm. split; reflexivity.
  - unfold active_points. rewrite left_click_mode, Hm.
    unfold left_click, onMouseEvent. rewrite Hm. split; reflexivity.
  - unfold active_points. rewrite left_click_mode, Hm.
    unfold left_click, onMouseEvent. rewrite Hm. split; reflexivity.
Qed.

(** X11. In a collecting mode a run of left-clicks appends the clicked
    points, in the order clicked, to the active container (the
    circumference points, the corners, or the last ignore polygon, which is
    created when there is none); every earlier ignore polygon is left as it
    was. *)
Theorem clicks_collect_in_order (ps : list (Z * Z)) (d : INPUT_DATA) :
  collecting (mode d) = true ->
  active_points (clicks ps d) = active_points d ++ map clicked ps
  /\ removelast (ignrPts (clicks ps d)) = removelast (ignrPts d)
  /\ mode (clicks ps d) = mode d.
Proof.
  intros H. split; [|split; [|apply clicks_mode]].
  - revert d H. induction ps as [|p ps IH]; intros d H.
    + simpl. now rewrite app_nil_r.
    + unfold clicks in *. cbn [fold_left map].
      rewrite IH by (rewrite left_click_mode; exact H).
      destruct (left_click_active p d H) as [-> _].
      now rewrite <- app_assoc.
  - revert d H. induction ps as [|p ps IH]; intros d H.
    + reflexivity.
    + unfold clicks in *. cbn [fold_left].
      rewrite IH by (rewrite left_click_mode; exact H).
      apply (left_click_active p d H).
Qed.

Lemma clicks_collect_in_order_witness :
  collecting (mode ExGui.one_point_polygon) = true
  /\ active_points (clicks [(1, 2); (3, 4)] ExGui.one_point_polygon)
     = [Point2d.of_ints 10 10] ++ map clicked [(1, 2); (3, 4)].
Proof.
  split; [reflexivity|].
  apply (clicks_collect_in_order [(1, 2); (3, 4)] ExGui.one_point_polygon
           eq_refl).
Defined.

End MouseMore.

Section StagesMore.

Import ConfigGui GuiSpec SessionSpec.

Ltac fields :=
  cbn [_cfg _open _input_data R t c r key cfg_r_src stdin ticks out _config_fn
       set_open set_cfg set_input set_Rt set_cr
       set_key set_src set_stdin set_ticks emit changeState cfg_add
       mode circPts ignrPts sqrPts newEvent cursorPt
       set_mode set_newEvent set_circPts set_ignrPts set_sqrPts set_cursorPt
       addPoly fst snd] in *.

(** The pass of the ignore-region stage that reads Enter. *)
Lemma IGNR_PTS_enter (w : World) (s : Session) (tk : Tick)
    (rest : list Tick) :
  mode (_input_data s) = IGNR_PTS ->
  ticks s = tk :: rest ->
  to_char (pressed tk) = enter_key w ->
  let polys := ignrPts (apply_mouse (mouse tk) (_input_data s)) in
  let ret := write_result w (ConfigParser.nwrites (_cfg s)) in
  exists s',
    step w s = Some s'
    /\ match last polys with
       | Some (_ :: _) =>
           ignrPts (_input_data s') = polys ++ [[]]
           /\ _cfg s' = _cfg s /\ _open s' = _open s
           /\ mode (_input_data s') = IGNR_PTS
       | _ =>
           ignrPts (_input_data s') = removelast polys
           /\ ConfigParser.getVVecInt "roi_ignr" (_cfg s')
              = Some (map dump_points (removelast polys))
           /\ ConfigParser.mem (_cfg s')
              = <["roi_ignr" := ConfigParser.VVVecInt
                                  (map dump_points (removelast polys))]>
                  (ConfigParser.mem (_cfg s))
           /\ ConfigParser.disk (_cfg s')
              = (if 0 <? ret then ConfigParser.mem (_cfg s')
                 else ConfigParser.disk (_cfg s))
           /\ ConfigParser.nwrites (_cfg s') = S (ConfigParser.nwrites (_cfg s))
           /\ _open s' = (if ret <=? 0 then false else _open s)
           /\ mode (_input_data s') = R_INIT
       end.
Proof.
  intros Hm Ht Hk. cbv zeta. unfold step. rewrite Hm.
  unfold stage_IGNR_PTS, waitKey. rewrite Ht. fields.
  rewrite Hk, Z.eqb_refl.
  assert (Hmode : mode (apply_mouse (mouse tk) (_input_data s)) = IGNR_PTS)
    by (rewrite apply_mouse_mode; exact Hm).
  destruct (ignrPts (apply_mouse (mouse tk) (_input_data s)))
    as [|b v] eqn:E.
  - eexists. split; [reflexivity|].
    unfold write_cfg, ConfigParser.write, ConfigParser.getVVecInt.
    simpl. rewrite ?E. simpl.
    destruct (write_result w (ConfigParser.nwrites (_cfg s)) <=? 0);
      simpl; rewrite ?E; simpl; rewrite ?lookup_insert_eq;
      repeat split; reflexivity.
  - unfold back_empty. destruct (last (b :: v)) as [[|p poly]|] eqn:El.
    + eexists. split; [reflexivity|].
      unfold write_cfg, ConfigParser.write, ConfigParser.getVVecInt, pop_back.
      fields. cbn [ConfigParser.nwrites ConfigParser.add].
      destruct (write_result w (ConfigParser.nwrites (_cfg s)) <=? 0);
        fields; cbn [ConfigParser.mem ConfigParser.disk ConfigParser.nwrites
                     ConfigParser.add];
        rewrite ?E, ?lookup_insert_eq; repeat split; reflexivity.
    + eexists. split; [reflexivity|]. fields. rewrite E, Hmode.
      repeat split; reflexivity.
    + apply last_None in El. discriminate El.
Qed.

Lemma updated_session w ref s :
  let s0 := if (length (sqrPts (_input_data s)) =? 4)%nat
            then snd (updateC2ATransform w ref s) else s in
  ticks s0 = ticks s /\ _cfg s0 = _cfg s /\ _open s0 = _open s
  /\ stdin s0 = stdin s
  /\ exists b, _input_data s0 = set_newEvent b (_input_data s).
Proof.
  cbv zeta. destruct (length (sqrPts (_input_data s)) =? 4)%nat.
  - unfold updateC2ATransform. destruct (newEvent (_input_data s)) eqn:E.
    + destruct (computeRtFromSquare w ref _ _) as [ret [R' t']]. simpl.
      repeat split; eauto.
    + simpl. repeat split; auto. exists false.
      rewrite <- E. symmetry. apply set_newEvent_id.
  - repeat split; auto. exists (newEvent (_input_data s)).
    symmetry. apply set_newEvent_id.
Qed.


Lemma dump_points_clicked (ps : list (Z * Z)) :
  dump_points (map clicked ps)
  = flat_map (fun p => [stored (fst p); stored (snd p)]) ps.
Proof. unfold clicked. apply dump_points_of_ints_any. Qed.

Lemma dump_polys_clicked (pss : list (list (Z * Z))) :
  map dump_points (map (map clicked) pss)
  = map (flat_map (fun p => [stored (fst p); stored (snd p)])) pss.
Proof.
  rewrite map_map. apply map_ext. intros ps. apply dump_points_clicked.
Qed.

(** X12. Enter in the ignore-region stage: when the active polygon has
    points, a new empty polygon is started and nothing is stored; when there
    is no polygon or the active one is empty, that empty polygon is dropped,
    the remaining polygons are stored under roi_ignr, the store is written
    once, and the session moves on to the transform, closed if the write
    failed.  What is stored of a point is each coordinate cast to int after
    adding one half: of a clicked point, the clicked coordinate when it is
    not negative and one more when it is. *)
Theorem ignore_region_enter (w : World) (s : Session) (tk : Tick)
    (rest : list Tick) :
  mode (_input_data s) = IGNR_PTS ->
  ticks s = tk :: rest ->
  to_char (pressed tk) = enter_key w ->
  let polys := ignrPts (apply_mouse (mouse tk) (_input_data s)) in
  let ret := write_result w (ConfigParser.nwrites (_cfg s)) in
  exists s',
    step w s = Some s'
    /\ match last polys with
       | Some (_ :: _) =>
           ignrPts (_input_data s') = polys ++ [[]]
           /\ _cfg s' = _cfg s /\ _open s' = _open s
           /\ mode (_input_data s') = IGNR_PTS
       | _ =>
           ignrPts (_input_data s') = removelast polys
           /\ ConfigParser.getVVecInt "roi_ignr" (_cfg s')
              = Some (map dump_points (removelast polys))
           /\ (forall pss,
                 removelast polys = map (map clicked) pss ->
                 ConfigParser.getVVecInt "roi_ignr" (_cfg s')
                 = Some (map (flat_map (fun p => [stored (fst p);
                                                  stored (snd p)])) pss))
           /\ ConfigParser.mem (_cfg s')
              = <["roi_ignr" := ConfigParser.VVVecInt
                                  (map dump_points (removelast polys))]>
                  (ConfigParser.mem (_cfg s))
           /\ ConfigParser.disk (_cfg s')
              = (if 0 <? ret then ConfigParser.mem (_cfg s')
                 else ConfigParser.disk (_cfg s))
           /\ ConfigParser.nwrites (_cfg s') = S (ConfigParser.nwrites (_cfg s))
           /\ _open s' = (if ret <=? 0 then false else _open s)
           /\ mode (_input_data s') = R_INIT
       end.
Proof.
  intros Hm Ht Hk polys ret.
  destruct (IGNR_PTS_enter w s tk rest Hm Ht Hk) as (s' & Hs & H).
  cbv zeta in H. fold polys ret in H.
  exists s'. split; [exact Hs|].
  assert (Hst : forall pss,
            ConfigParser.getVVecInt "roi_ignr" (_cfg s')
            = Some (map dump_points (removelast polys)) ->
            removelast polys = map (map clicked) pss ->
            ConfigParser.getVVecInt "roi_ignr" (_cfg s')
            = Some (map (flat_map (fun p => [stored (fst p);
                                             stored (snd p)])) pss)).
  { intros pss Hg E. rewrite Hg, E, dump_polys_clicked. reflexivity. }
  destruct (last polys) as [[|p poly]|]; [|exact H|];
    destruct H as (H1 & H2 & H3);
    (split; [exact H1|]); (split; [exact H2|]);
    (split; [intros pss; apply Hst, H2|exact H3]).
Qed.

Lemma ignore_region_enter_witness :
  let w := ExGui.world ExGui.disk_ok in
  let s := ExSession.region_outside in
  mode (_input_data s) = IGNR_PTS
  /\ ticks s = [ExGui.press 10]
  /\ to_char (pressed (ExGui.press 10)) = enter_key w
  /\ exists s',
       step w s = Some s'
       /\ ignrPts (_input_data s') = [[clicked (-1, -1)]]
       /\ ConfigParser.getVVecInt "roi_ignr" (_cfg s') = Some [[0; 0]]
       /\ mode (_input_data s') = R_INIT.
Proof.
  cbv zeta. split; [reflexivity|]. split; [reflexivity|].
  split; [reflexivity|].
  destruct (ignore_region_enter (ExGui.world ExGui.disk_ok)
              ExSession.region_outside
              (ExGui.press 10) [] eq_refl eq_refl eq_refl)
    as (s' & Hs & H).
  exists s'. split; [exact Hs|]. cbv zeta in H. simpl in H.
  destruct H as (H0 & _ & H1 & _ & _ & _ & _ & H2).
  split; [exact H0|]. split; [|exact H2].
  apply (H1 [[(-1, -1)]]). reflexivity.
Defined.



Lemma R_EXT_commit w s :
  let ret := write_result w (ConfigParser.nwrites (_cfg s)) in
  exists s',
    stage_R_EXT w s = Some s'
    /\ ConfigParser.mem (_cfg s')
       = <["c2a_src" := ConfigParser.VStr "ext"]>
           (<["c2a_r" := default (ConfigParser.VVecDbl [0%Q; 0%Q; 0%Q])
                                 (ConfigParser.mem (_cfg s) !! "c2a_r")]>
              (ConfigParser.mem (_cfg s)))
    /\ ConfigParser.disk (_cfg s')
       = (if 0 <? ret then ConfigParser.mem (_cfg s')
          else ConfigParser.disk (_cfg s))
    /\ ConfigParser.nwrites (_cfg s') = S (ConfigParser.nwrites (_cfg s))
    /\ _open s' = (if ret <=? 0 then false else _open s)
    /\ mode (_input_data s') = EXIT
    /\ stdin s' = stdin s /\ ticks s' = ticks s
    /\ circPts (_input_data s') = circPts (_input_data s)
    /\ ignrPts (_input_data s') = ignrPts (_input_data s)
    /\ sqrPts (_input_data s') = sqrPts (_input_data s).
Proof.
  cbv zeta. unfold stage_R_EXT, ConfigParser.getStr, write_cfg,
    ConfigParser.write.
  destruct (ConfigParser.mem (_cfg s) !! "c2a_r") as [v|] eqn:E.
  - assert (Hins : <["c2a_r" := v]> (ConfigParser.mem (_cfg s))
                   = ConfigParser.mem (_cfg s))
      by (apply insert_id; exact E).
    destruct v; simpl;
      destruct (write_result w (ConfigParser.nwrites (_cfg s)) <=? 0);
      eexists; (split; [reflexivity|]); simpl; rewrite ?Hins;
      repeat split; reflexivity.
  - simpl.
    destruct (write_result w (ConfigParser.nwrites (_cfg s)) <=? 0);
      eexists; (split; [reflexivity|]); simpl;
      repeat split; reflexivity.
Qed.

(** X14. The external method asks the user nothing: it stores "ext" under
    c2a_src, keeps whatever is stored under c2a_r or, when there is
    nothing, stores a zero rotation, leaves every other key alone, writes
    the store once and goes to EXIT, closed if the write failed. *)
Theorem external_transform_commit (w : World) (s : Session) :
  mode (_input_data s) = R_EXT ->
  let ret := write_result w (ConfigParser.nwrites (_cfg s)) in
  exists s',
    step w s = Some s'
    /\ ConfigParser.getStr "c2a_src" (_cfg s') = Some "ext"
    /\ ConfigParser.mem (_cfg s') !! "c2a_r"
       = Some (default (ConfigParser.VVecDbl [0%Q; 0%Q; 0%Q])
                       (ConfigParser.mem (_cfg s) !! "c2a_r"))
    /\ (forall k, k <> "c2a_src" -> k <> "c2a_r" ->
        ConfigParser.mem (_cfg s') !! k = ConfigParser.mem (_cfg s) !! k)
    /\ ConfigParser.disk (_cfg s')
       = (if 0 <? ret then ConfigParser.mem (_cfg s')
          else ConfigParser.disk (_cfg s))
    /\ ConfigParser.nwrites (_cfg s') = S (ConfigParser.nwrites (_cfg s))
    /\ _open s' = (if ret <=? 0 then false else _open s)
    /\ mode (_input_data s') = EXIT
    /\ stdin s' = stdin s /\ ticks s' = ticks s.
Proof.
  intros Hm. cbv zeta. unfold step. rewrite Hm.
  destruct (R_EXT_commit w s)
    as (s' & Hs & Hmem & Hd & Hn & Ho & Hmo & Hi & Ht & _).
  exists s'. split; [exact Hs|]. unfold ConfigParser.getStr.
  rewrite Hmem, lookup_insert_eq.
  rewrite lookup_insert_ne by discriminate. rewrite lookup_insert_eq.
  repeat split; auto.
  - intros k N1 N2. rewrite !lookup_insert_ne by congruence. reflexivity.
  - rewrite <- Hmem. exact Hd.
Qed.

Lemma external_transform_commit_witness :
  mode (_input_data ExSession.external_chosen) = R_EXT
  /\ exists s',
       step (ExGui.world ExGui.disk_ok) ExSession.external_chosen = Some s'
       /\ ConfigParser.getStr "c2a_src" (_cfg s') = Some "ext".
Proof.
  split; [reflexivity|].
  destruct (external_transform_commit (ExGui.world ExGui.disk_ok)
              ExSession.external_chosen eq_refl) as (s' & Hs & H & _).
  exists s'. split; assumption.
Defined.

(** X15. A transform committed with the external method is never offered
    for keeping: in a later session that loads the file as it was written,
    the transform stage finds no corners under the name c2a_src holds and
    goes to the method menu without reading the console (unless the file
    has a key named ext that holds an integer list). *)
Theorem external_method_asked_again (w : World) (s s1 s2 : Session) :
  mode (_input_data s) = R_EXT ->
  step w s = Some s1 ->
  0 < write_result w (ConfigParser.nwrites (_cfg s)) ->
  ConfigParser.getVecInt "ext" (_cfg s) = None ->
  ConfigParser.mem (_cfg s2) = ConfigParser.disk (_cfg s1) ->
  mode (_input_data s2) = R_INIT ->
  exists s3,
    step w s2 = Some s3
    /\ mode (_input_data s3) = R_SLCT
    /\ cfg_r_src s3 = "ext"
    /\ stdin s3 = stdin s2 /\ ticks s3 = ticks s2
    /\ _cfg s3 = _cfg s2 /\ _open s3 = _open s2.
Proof.
  intros Hm Hs Hret Hext Hload Hm2.
  unfold step in Hs. rewrite Hm in Hs.
  destruct (R_EXT_commit w s) as (s' & Hs' & Hmem & Hd & _).
  rewrite Hs' in Hs. injection Hs as <-. cbv zeta in Hd.
  apply Z.ltb_lt in Hret. rewrite Hret, Hmem in Hd.
  unfold step. rewrite Hm2. unfold stage_R_INIT, ConfigParser.getStr.
  rewrite Hload, Hd, lookup_insert_eq. fields.
  unfold ConfigParser.getVecInt in *. rewrite Hload, Hd.
  rewrite !lookup_insert_ne by discriminate. rewrite Hext.
  eexists. split; [reflexivity|]. fields. repeat split; reflexivity.
Qed.

Lemma external_method_asked_again_witness :
  let w := ExGui.world ExGui.disk_ok in
  mode (_input_data ExSession.external_chosen) = R_EXT
  /\ step w ExSession.external_chosen = Some ExSession.after_external
  /\ ConfigParser.mem (_cfg ExSession.reloaded)
     = ConfigParser.disk (_cfg ExSession.after_external)
  /\ mode (_input_data ExSession.reloaded) = R_INIT
  /\ exists s3,
       step w ExSession.reloaded = Some s3
       /\ mode (_input_data s3) = R_SLCT.
Proof.
  cbv zeta.
  assert (H1 : step (ExGui.world ExGui.disk_ok) ExSession.external_chosen
               = Some ExSession.after_external)
    by (vm_compute; reflexivity).
  assert (H2 : ConfigParser.getVecInt "ext" (_cfg ExSession.external_chosen)
               = None) by (vm_compute; reflexivity).
  split; [reflexivity|]. split; [exact H1|]. split; [reflexivity|].
  split; [reflexivity|].
  destruct (external_method_asked_again (ExGui.world ExGui.disk_ok)
              ExSession.external_chosen ExSession.after_external
              ExSession.reloaded eq_refl H1 eq_refl H2 eq_refl eq_refl)
    as (s3 & Hs & Hm & _).
  exists s3. split; assumption.
Defined.

(** *** The method menu and the keep prompts at the console *)

Lemma read_line_shorter l : forall a b e,
  read_line l = (a, b, e) -> l <> [] -> (length b < length l)%nat.
Proof.
  induction l as [|ch l IH]; intros a b e H Hne; [congruence|].
  cbn [read_line] in H. destruct (ch =? 10).
  - injection H as _ <- _. simpl. lia.
  - destruct (read_line l) as [[a' b'] e'] eqn:E. injection H as _ <- _.
    destruct l as [|ch' l'].
    + simpl in E. injection E as _ <- _. simpl. lia.
    + specialize (IH a' b' e' eq_refl ltac:(discriminate)). simpl in *. lia.
Qed.

Lemma console_lines_read_line l :
  console_lines l =
    let '(a, b, e) := read_line l in
    if e then [a] else a :: console_lines b.
Proof.
  induction l as [|ch l IH]; [reflexivity|].
  cbn [console_lines read_line]. destruct (ch =? 10); [reflexivity|].
  rewrite IH. destruct (read_line l) as [[a b] e]. destruct e; reflexivity.
Qed.

Lemma read_line_terminated line rest :
  Forall (fun ch => ch <> 10) line ->
  read_line (line ++ 10 :: rest) = (line, rest, false).
Proof.
  induction 1 as [|ch line Hch _ IH]; [reflexivity|].
  cbn [app read_line]. destruct (Z.eqb_spec ch 10); [contradiction|].
  rewrite IH. reflexivity.
Qed.

(** One pass of the menu on the line it acts on. *)
Lemma choice_cases (A : Type) (str : string) (f1 f2 f3 f5 bad : A) :
  match (if String.eqb str EmptyString then Some 1 else stoi str) with
  | None => bad
  | Some 1 => f1
  | Some 2 => f2
  | Some 3 => f3
  | Some 5 => f5
  | Some _ => bad
  end
  = match method_of str with
    | Some R_XY => f1
    | Some R_YZ => f2
    | Some R_XZ => f3
    | Some R_EXT => f5
    | _ => bad
    end.
Proof.
  unfold method_of. destruct str as [|ch str]; [reflexivity|].
  cbn [String.eqb].
  destruct (stoi (String ch str)) as [z|]; [|reflexivity].
  destruct z as [|p|p]; try reflexivity.
  repeat match goal with
         | |- context [match ?q with xH => _ | _ => _ end] =>
             is_var q; destruct q
         end; reflexivity.
Qed.

Lemma method_of_rank str m : method_of str = Some m -> rank m = 6%nat.
Proof.
  unfold method_of. destruct str as [|ch str]; [intros [= <-]; reflexivity|].
  destruct (stoi (String ch str)) as [z|]; [|discriminate].
  destruct z as [|p|p]; try discriminate.
  repeat match goal with
         | |- context [match ?q with xH => _ | _ => _ end] =>
             is_var q; destruct q
         end; try discriminate; intros [= <-]; reflexivity.
Qed.

(** With the end of the input behind it the menu acts on the same line at
    every pass. *)
Lemma select_method_stuck fuel : forall str s,
  method_of str = None -> select_method fuel true str s = None.
Proof.
  induction fuel as [|fuel IH]; intros str s Hbad; [reflexivity|].
  cbn [select_method getline]. rewrite choice_cases, Hbad. apply IH, Hbad.
Qed.

Lemma select_method_repeats fuel : forall str s,
  first_choice (console_lines (stdin s)) = None ->
  select_method fuel false str s = None.
Proof.
  induction fuel as [|fuel IH]; intros str s Hnone; [reflexivity|].
  cbn [select_method]. unfold getline. fields.
  rewrite console_lines_read_line in Hnone.
  destruct (read_line (stdin s)) as [[a b] e] eqn:Er.
  rewrite choice_cases.
  destruct e; cbn [first_choice] in Hnone;
    destruct (method_of (string_of_chars a)) eqn:Hm; try discriminate.
  - apply select_method_stuck, Hm.
  - apply IH. fields. exact Hnone.
Qed.

Lemma select_method_chooses fuel : forall str s m,
  (length (stdin s) < fuel)%nat ->
  first_choice (console_lines (stdin s)) = Some m ->
  exists s',
    select_method fuel false str s = Some s'
    /\ mode (_input_data s') = m
    /\ ticks s' = ticks s.
Proof.
  induction fuel as [|fuel IH]; intros str s m Hlen Hsome; [lia|].
  cbn [select_method]. unfold getline. fields.
  rewrite console_lines_read_line in Hsome.
  destruct (read_line (stdin s)) as [[a b] e] eqn:Er.
  rewrite choice_cases.
  assert (Hfst : forall m', method_of (string_of_chars a) = Some m' -> m' = m).
  { intros m' Hm'. destruct e; cbn [first_choice] in Hsome;
      rewrite Hm' in Hsome; congruence. }
  destruct (method_of (string_of_chars a)) as [m'|] eqn:Hm.
  - pose proof (method_of_rank _ _ Hm) as Hr.
    specialize (Hfst m' eq_refl). subst m'.
    destruct m; try discriminate Hr;
      (eexists; split; [reflexivity|]; fields; split; reflexivity).
  - destruct e; cbn [first_choice] in Hsome; rewrite Hm in Hsome;
      [discriminate|].
    assert (Hne : stdin s <> []).
    { intros E. rewrite E in Er. simpl in Er. congruence. }
    pose proof (read_line_shorter _ _ _ _ Er Hne) as Hb.
    destruct (IH (string_of_chars a)
                (emit (Log WRN "Invalid input!")
                   (set_stdin b
                      (emit (Printf "Please enter your preferred method [1]: ")
                         s))) m) as (s' & Hs & Hmode & Ht);
      [fields; lia|fields; exact Hsome|].
    exists s'. split; [exact Hs|]. split; [exact Hmode|exact Ht].
Qed.

Lemma select_method_first fuel str s line rest m :
  stdin s = line ++ 10 :: rest ->
  Forall (fun ch => ch <> 10) line ->
  method_of (string_of_chars line) = Some m ->
  forall s', select_method (S fuel) false str s = Some s' -> stdin s' = rest.
Proof.
  intros Hin Hline Hm s'. cbn [select_method]. unfold getline. fields.
  rewrite Hin, (read_line_terminated _ _ Hline), choice_cases, Hm.
  pose proof (method_of_rank _ _ Hm) as Hr.
  destruct m; try discriminate Hr; intros [= <-]; reflexivity.
Qed.

Lemma select_method_rank fuel : forall eof str s s',
  select_method fuel eof str s = Some s' ->
  rank (mode (_input_data s')) = 6%nat.
Proof.
  induction fuel as [|fuel IH]; intros eof str s s' H; [discriminate|].
  cbn [select_method] in H.
  destruct (getline eof str _) as [[str1 eof1] s1].
  rewrite choice_cases in H.
  destruct (method_of str1) as [m|] eqn:Hm; [|apply IH in H; exact H].
  pose proof (method_of_rank _ _ Hm) as Hr.
  destruct m; try discriminate Hr; injection H as <-; reflexivity.
Qed.

(** X16. The method menu reads the console line by line until a line
    chooses a method: nothing typed chooses the XY square, 1, 2, 3 and 5
    choose the XY, YZ and XZ squares and the external transform.  The menu
    ends at the first such line, in the mode it chooses, having touched
    neither the store nor the window; when that line ends in a newline the
    console input is left behind it.  The end of the input counts as an
    empty line when it follows a newline or nothing at all.  When no line
    chooses a method, so that the input ends in an unterminated line that
    chooses none, the menu never ends: [std::getline] fails from then on
    and every pass finds the same line. *)
Theorem method_menu_answers_or_repeats (w : World) (s : Session) :
  mode (_input_data s) = R_SLCT ->
  (forall m,
     first_choice (console_lines (stdin s)) = Some m ->
     exists s',
       step w s = Some s'
       /\ mode (_input_data s') = m
       /\ rank m = 6%nat
       /\ same_store s s'
       /\ ticks s' = ticks s)
  /\ (first_choice (console_lines (stdin s)) = None ->
      step w s = None
      /\ forall fuel,
           select_method fuel false EmptyString
             (emit (Printf "Define the animal's coordinate frame.") s)
           = None)
  /\ (forall line rest m,
        stdin s = line ++ 10 :: rest ->
        Forall (fun ch => ch <> 10) line ->
        method_of (string_of_chars line) = Some m ->
        exists s',
          step w s = Some s'
          /\ mode (_input_data s') = m
          /\ stdin s' = rest)
  /\ (stdin s = [] ->
      exists s', step w s = Some s' /\ mode (_input_data s') = R_XY).
Proof.
  intros Hm. unfold step. rewrite Hm. unfold stage_R_SLCT.
  set (s0 := emit (Printf "Define the animal's coordinate frame.") s).
  assert (Hin : stdin s0 = stdin s) by reflexivity.
  assert (Hchoose : forall m,
            first_choice (console_lines (stdin s)) = Some m ->
            exists s',
              select_method (S (length (stdin s0))) false EmptyString s0
              = Some s'
              /\ mode (_input_data s') = m
              /\ rank m = 6%nat
              /\ same_store s s'
              /\ ticks s' = ticks s).
  { intros m Hc.
    destruct (select_method_chooses (S (length (stdin s0))) EmptyString s0 m)
      as (s' & Hs & Hmode & Ht); [lia|rewrite Hin; exact Hc|].
    exists s'. split; [exact Hs|]. split; [exact Hmode|].
    split; [rewrite <- Hmode; apply (select_method_rank _ _ _ _ _ Hs)|].
    split; [|exact Ht].
    apply select_method_store in Hs. destruct Hs. split; assumption. }
  split; [exact Hchoose|]. split; [|split].
  - intros Hnone. split; [|intros fuel];
      apply select_method_repeats; rewrite Hin; exact Hnone.
  - intros line rest m Hs Hline Hmeth.
    assert (Hc : first_choice (console_lines (stdin s)) = Some m).
    { rewrite console_lines_read_line, Hs, (read_line_terminated _ _ Hline).
      cbn [first_choice]. rewrite Hmeth. reflexivity. }
    destruct (Hchoose m Hc) as (s' & Hrun & Hmode & _).
    exists s'. split; [exact Hrun|]. split; [exact Hmode|].
    apply (select_method_first _ _ s0 line rest m Hs Hline Hmeth _ Hrun).
  - intros Hs.
    assert (Hc : first_choice (console_lines (stdin s)) = Some R_XY)
      by (rewrite Hs; reflexivity).
    destruct (Hchoose R_XY Hc) as (s' & Hrun & Hmode & _).
    exists s'. split; assumption.
Qed.

Lemma method_menu_answers_or_repeats_witness :
  mode (_input_data ExSession.second_try) = R_SLCT
  /\ (exists s',
        step (ExGui.world ExGui.disk_ok) ExSession.second_try = Some s'
        /\ mode (_input_data s') = R_YZ)
  /\ mode (_input_data ExSession.unterminated) = R_SLCT
  /\ step (ExGui.world ExGui.disk_ok) ExSession.unterminated = None.
Proof.
  split; [reflexivity|]. split.
  - destruct (method_menu_answers_or_repeats (ExGui.world ExGui.disk_ok)
                ExSession.second_try eq_refl) as (Hc & _).
    destruct (Hc R_YZ eq_refl) as (s' & Hs & Hmode & _).
    exists s'. split; assumption.
  - split; [reflexivity|].
    destruct (method_menu_answers_or_repeats (ExGui.world ExGui.disk_ok)
                ExSession.unterminated eq_refl) as (_ & Hn & _).
    apply Hn. reflexivity.
Defined.

Lemma keep_prompt_unanswered question next fuel : forall s,
  unanswered (stdin s) = true ->
  keep_prompt fuel question next s = None.
Proof.
  induction fuel as [|fuel IH]; intros s H; [reflexivity|].
  cbn [keep_prompt].
  destruct (waitKey s) as [k s1] eqn:Ew.
  assert (Hin : stdin s1 = stdin s).
  { pose proof (waitKey_stdin s) as E. rewrite Ew in E. exact E. }
  unfold getchar. cbn [stdin emit]. rewrite Hin.
  destruct (stdin s) as [|a [|b rest]].
  - simpl. rewrite Hin. apply IH. simpl. rewrite Hin. reflexivity.
  - cbn [unanswered] in H. unfold is_answer in H.
    destruct (a =? 121), (a =? 89), (a =? 10), (a =? 110), (a =? 78);
      try discriminate H.
    simpl. apply IH. reflexivity.
  - cbn [unanswered] in H. unfold is_answer in H.
    destruct (a =? 121), (a =? 89), (a =? 10), (a =? 110), (a =? 78);
      try discriminate H.
    simpl. apply IH. exact H.
Qed.

Lemma keep_prompt_answered question next fuel : forall s,
  (length (stdin s) < fuel)%nat ->
  unanswered (stdin s) = false ->
  exists s', keep_prompt fuel question next s = Some s'.
Proof.
  induction fuel as [|fuel IH]; intros s Hlen H; [lia|].
  cbn [keep_prompt].
  destruct (waitKey s) as [k s1] eqn:Ew.
  assert (Hin : stdin s1 = stdin s).
  { pose proof (waitKey_stdin s) as E. rewrite Ew in E. exact E. }
  unfold getchar. cbn [stdin emit]. rewrite Hin.
  destruct (stdin s) as [|a [|b rest]].
  - discriminate H.
  - cbn [unanswered] in H. unfold is_answer in H.
    destruct (a =? 121), (a =? 89), (a =? 10), (a =? 110), (a =? 78);
      try discriminate H; simpl; eexists; reflexivity.
  - cbn [unanswered] in H. unfold is_answer in H.
    destruct (a =? 121), (a =? 89), (a =? 10), (a =? 110), (a =? 78);
      cbn [orb negb andb] in H; simpl;
      try (eexists; reflexivity).
    apply IH; [simpl in *; lia|exact H].
Qed.

(** X17. A keep-existing prompt looks at one character of console input per
    pass and discards the next.  It returns exactly when one of the
    characters it looks at is y, Y, n, N or a newline; if the input ends
    before that, it asks again without end. *)
Theorem keep_prompt_needs_an_answer (question : string) (next : INPUT_MODE)
    (s : Session) :
  (unanswered (stdin s) = true ->
   forall fuel, keep_prompt fuel question next s = None)
  /\ (unanswered (stdin s) = false ->
      exists s', ask_keep question next s = Some s').
Proof.
  split.
  - intros H fuel. apply keep_prompt_unanswered. exact H.
  - intros H. apply keep_prompt_answered; [lia|exact H].
Qed.

Lemma keep_prompt_needs_an_answer_witness :
  unanswered (stdin (ExGui.session ExGui.store0 [120; 10; 113] [])) = true
  /\ keep_prompt 50 "Would you like to keep the existing transform ([y]/n)? "
       EXIT (ExGui.session ExGui.store0 [120; 10; 113] []) = None.
Proof.
  split; [reflexivity|].
  apply (keep_prompt_needs_an_answer
           "Would you like to keep the existing transform ([y]/n)? " EXIT
           (ExGui.session ExGui.store0 [120; 10; 113] [])).
  reflexivity.
Defined.

(** *** Escape *)

Lemma enter_is_not_escape w : (exit_key =? enter_key w) = false.
Proof. unfold enter_key. destruct (WIN32 w); reflexivity. Qed.

Lemma escape_step w s tk rest :
  collecting (mode (_input_data s)) = true ->
  ticks s = tk :: rest ->
  to_char (pressed tk) = exit_key ->
  exists s1,
    step w s = Some s1 /\ key s1 = exit_key
    /\ _cfg s1 = _cfg s /\ _open s1 = _open s
    /\ mode (_input_data s1) = mode (_input_data s)
    /\ stdin s1 = stdin s.
Proof.
  intros Hcol Ht Hk.
  assert (Hsq : forall ref, exists s1,
    stage_R_square w ref s = Some s1 /\ key s1 = exit_key
    /\ _cfg s1 = _cfg s /\ _open s1 = _open s
    /\ mode (_input_data s1) = mode (_input_data s)
    /\ stdin s1 = stdin s).
  { intros ref. unfold stage_R_square.
    pose proof (updated_session w ref s) as Hs0. cbv zeta in Hs0.
    set (s0 := if (length (sqrPts (_input_data s)) =? 4)%nat
               then snd (updateC2ATransform w ref s) else s) in *.
    destruct Hs0 as (Ht0 & Hc0 & Ho0 & Hi0 & b & Hd0). clearbody s0.
    unfold waitKey. rewrite Ht0, Ht. fields.
    rewrite Hk, enter_is_not_escape. cbn [Z.eqb exit_key Pos.eqb].
    eexists. split; [reflexivity|]. fields. rewrite Hd0.
    destruct (apply_mouse_newEvent (mouse tk) b (_input_data s)) as [b' ->].
    fields. rewrite apply_mouse_mode. auto. }
  unfold step. destruct (mode (_input_data s)) eqn:Hm; try discriminate Hcol;
    try apply Hsq.
  - unfold stage_CIRC_PTS.
    set (s0 := if newEvent (_input_data s) then _ else s).
    assert (H0 : _cfg s0 = _cfg s /\ _open s0 = _open s /\ ticks s0 = ticks s
                 /\ stdin s0 = stdin s
                 /\ mode (_input_data s0) = mode (_input_data s)).
    { subst s0. destruct (newEvent (_input_data s)); [|auto].
      destruct (3 <=? _)%nat; [destruct (circleFit_camModel _ _ _)|];
        repeat split; reflexivity. }
    destruct H0 as (C0 & O0 & T0 & I0 & M0). clearbody s0.
    unfold waitKey. rewrite T0, Ht. fields.
    rewrite Hk, enter_is_not_escape.
    eexists. split; [reflexivity|]. fields.
    rewrite apply_mouse_mode, M0, Hm. auto.
  - unfold stage_IGNR_PTS, waitKey. rewrite Ht. fields.
    rewrite Hk, enter_is_not_escape.
    eexists. split; [reflexivity|]. fields.
    rewrite apply_mouse_mode, Hm. auto.
Qed.

(** X18. Escape while points are being collected ends the loop with that
    pass: nothing is stored or written, no later stage is entered, and the
    session still ends reporting success. *)
Theorem escape_ends_without_writing (w : World) (s : Session) (tk : Tick)
    (rest : list Tick) (fuel : nat) :
  collecting (mode (_input_data s)) = true ->
  _open s = true ->
  key s <> exit_key ->
  ticks s = tk :: rest ->
  to_char (pressed tk) = exit_key ->
  exists s',
    loop w (S fuel) s = Some s'
    /\ visited w (S fuel) s = [mode (_input_data s)]
    /\ _cfg s' = _cfg s
    /\ mode (_input_data s') = mode (_input_data s)
    /\ fst (finish w s') = true
    /\ In status_complete (out (snd (finish w s'))).
Proof.
  intros Hcol Ho Hkey Ht Hk.
  destruct (escape_step w s tk rest Hcol Ht Hk)
    as (s1 & Hs & Hk1 & Hc1 & Ho1 & Hm1 & _).
  assert (Hcond : _open s && negb (key s =? exit_key) = true).
  { rewrite Ho. apply Z.eqb_neq in Hkey. rewrite Hkey. reflexivity. }
  assert (Hend : forall n, loop w n s1 = Some s1 /\ visited w n s1 = []).
  { intros n. destruct n; simpl; rewrite Hk1, Z.eqb_refl, andb_false_r; auto. }
  exists s1. cbn [loop visited]. rewrite Hcond, Hs.
  cbn [mbind option_bind]. destruct (Hend fuel) as [-> ->].
  destruct (finish_spec w s1) as (F1 & _ & F3).
  rewrite Ho1, Ho in F1, F3. repeat split; auto.
Qed.

Lemma escape_ends_without_writing_witness :
  let w := ExGui.world ExGui.disk_ok in
  collecting (mode (_input_data ExSession.escaping)) = true
  /\ ticks ExSession.escaping = [ExGui.press 27]
  /\ exists s',
       loop w 5 ExSession.escaping = Some s'
       /\ _cfg s' = _cfg ExSession.escaping
       /\ fst (finish w s') = true.
Proof.
  cbv zeta. split; [reflexivity|]. split; [reflexivity|].
  destruct (escape_ends_without_writing (ExGui.world ExGui.disk_ok)
              ExSession.escaping (ExGui.press 27) [] 4 eq_refl eq_refl
              ltac:(discriminate) eq_refl eq_refl)
    as (s' & Hl & _ & Hc & _ & Hf & _).
  exists s'. auto.
Defined.

End StagesMore.

Section OrderMore.

Import ConfigGui GuiSpec SessionSpec.

Ltac fields :=
  cbn [_cfg _open _input_data R t c r key cfg_r_src stdin ticks out _config_fn
       set_open set_cfg set_input set_Rt set_cr
       set_key set_src set_stdin set_ticks emit changeState cfg_add
       mode circPts ignrPts sqrPts newEvent cursorPt
       set_mode set_newEvent set_circPts set_ignrPts set_sqrPts set_cursorPt
       addPoly fst snd] in *.

Lemma follows_rank m m' : follows m m' = true -> (rank m <= rank m')%nat.
Proof. destruct m, m'; simpl; intros; try discriminate; lia. Qed.

Lemma ask_keep_mode question next s s' :
  ask_keep question next s = Some s' ->
  mode (_input_data s') = next
  \/ mode (_input_data s') = mode (_input_data s).
Proof. intros H. apply keep_prompt_frame in H. apply H. Qed.

Lemma stage_CIRC_INIT_mode w s s' :
  mode (_input_data s) = CIRC_INIT ->
  stage_CIRC_INIT w s = Some s' ->
  mode (_input_data s') = CIRC_PTS \/ mode (_input_data s') = IGNR_INIT.
Proof.
  intros Hm. unfold stage_CIRC_INIT.
  assert (Htail : forall s2,
    mode (_input_data s2) = CIRC_INIT \/ mode (_input_data s2) = IGNR_INIT ->
    (if INPUT_MODE_eqb (mode (_input_data s2)) CIRC_INIT
     then Some (changeState CIRC_PTS
            (emit (Printf "Define the circumference of the track ball.")
               (set_input (set_circPts [] (_input_data s2)) s2)))
     else Some s2) = Some s' ->
    mode (_input_data s') = CIRC_PTS \/ mode (_input_data s') = IGNR_INIT).
  { intros s2 [A|A]; rewrite A; simpl; intros [= <-]; simpl; auto. }
  destruct (ConfigParser.getVecInt "roi_circ" (_cfg s)) as [cfg_pts|].
  2:{ cbn [mbind option_bind]. apply Htail. auto. }
  destruct (load_points cfg_pts) as [pts|]; [|discriminate].
  cbn [mbind option_bind].
  set (s1 := set_input _ s).
  assert (M1 : mode (_input_data s1) = CIRC_INIT) by (subst s1; exact Hm).
  destruct (3 <=? length pts)%nat; [|apply Htail; auto].
  destruct (circleFit_camModel w pts (c s1, r s1)) as [c' r'].
  destruct (dlt 0%Q r'); [|apply Htail; auto].
  destruct (waitKey (set_cr c' r' s1)) as [k s2] eqn:Hw.
  pose proof (waitKey_mode (set_cr c' r' s1)) as M2. rewrite Hw in M2.
  cbn [snd] in M2.
  destruct (ask_keep _ IGNR_INIT _) as [s4|] eqn:Hask; [|discriminate].
  apply ask_keep_mode in Hask. cbn [mbind option_bind]. apply Htail.
  destruct Hask as [A|A]; [right; exact A|left].
  rewrite A. cbn [_input_data emit] in *. rewrite M2. exact M1.
Qed.

Lemma stage_IGNR_INIT_mode w s s' :
  mode (_input_data s) = IGNR_INIT ->
  stage_IGNR_INIT w s = Some s' ->
  mode (_input_data s') = IGNR_PTS \/ mode (_input_data s') = R_INIT.
Proof.
  intros Hm. unfold stage_IGNR_INIT.
  assert (Htail : forall s2,
    mode (_input_data s2) = IGNR_INIT \/ mode (_input_data s2) = R_INIT ->
    (if INPUT_MODE_eqb (mode (_input_data s2)) IGNR_INIT
     then Some (changeState IGNR_PTS
            (emit (Printf "Define ignore regions.")
               (set_input (set_ignrPts [] (_input_data s2)) s2)))
     else Some s2) = Some s' ->
    mode (_input_data s') = IGNR_PTS \/ mode (_input_data s') = R_INIT).
  { intros s2 [A|A]; rewrite A; simpl; intros [= <-]; simpl; auto. }
  destruct (ConfigParser.getVVecInt "roi_ignr" (_cfg s)) as [cfg_polys|].
  2:{ cbn [mbind option_bind]. apply Htail. auto. }
  destruct (load_polys cfg_polys []) as [polys|]; [|discriminate].
  cbn [mbind option_bind].
  destruct (waitKey _) as [k s2] eqn:Hw.
  match type of Hw with waitKey ?x = _ =>
    pose proof (waitKey_mode x) as M2 end.
  rewrite Hw in M2. cbn [snd _input_data set_input mode set_ignrPts] in M2.
  destruct (ask_keep _ R_INIT _) as [s4|] eqn:Hask; [|discriminate].
  apply ask_keep_mode in Hask. cbn [mbind option_bind]. apply Htail.
  destruct Hask as [A|A]; [right; exact A|left].
  rewrite A. cbn [_input_data emit] in *. rewrite M2. exact Hm.
Qed.

Lemma stage_R_INIT_mode w s s' :
  mode (_input_data s) = R_INIT ->
  stage_R_INIT w s = Some s' ->
  mode (_input_data s') = R_SLCT \/ mode (_input_data s') = EXIT.
Proof.
  intros Hm. unfold stage_R_INIT.
  destruct (ConfigParser.getStr "c2a_src" (_cfg s)) as [src|].
  2:{ rewrite Hm. simpl. intros [= <-]. simpl. auto. }
  destruct (ConfigParser.getVecInt _ _) as [cfg_pts|];
    [|intros [= <-]; simpl; auto].
  destruct (load_points cfg_pts) as [pts|]; [|discriminate].
  cbn [mbind option_bind].
  destruct (ConfigParser.getVecDbl "c2a_r" _) as [vr|];
    [|intros [= <-]; simpl; auto].
  destruct (ConfigParser.getVecDbl "c2a_t" _) as [vt|];
    [|intros [= <-]; simpl; auto].
  destruct (vec3 vt) as [[tx ty] tz].
  destruct (waitKey _) as [k s2] eqn:Hw.
  match type of Hw with waitKey ?x = _ =>
    pose proof (waitKey_mode x) as M2 end.
  rewrite Hw in M2. simpl in M2.
  destruct (ask_keep _ EXIT _) as [s4|] eqn:Hask; [|discriminate].
  apply ask_keep_mode in Hask. cbn [mbind option_bind].
  destruct Hask as [A|A]; rewrite A.
  - simpl. intros [= <-]. auto.
  - cbn [_input_data emit]. rewrite M2, Hm. simpl. intros [= <-]. simpl. auto.
Qed.

Lemma not_calibration k :
  is_calibration_key k = false ->
  k <> "roi_circ" /\ k <> "roi_ignr" /\ k <> "c2a_cnrs_xy"
  /\ k <> "c2a_cnrs_yz" /\ k <> "c2a_cnrs_xz" /\ k <> "c2a_src"
  /\ k <> "c2a_r" /\ k <> "c2a_t".
Proof.
  unfold is_calibration_key, calibration_keys. cbn [existsb].
  rewrite !orb_false_iff, !String.eqb_neq. tauto.
Qed.

Lemma same_store_kept s s' : same_store s s' -> kept s s'.
Proof. intros [A _]. unfold kept. rewrite A. split; auto. Qed.

Lemma stage_CIRC_PTS_effect w s s' :
  mode (_input_data s) = CIRC_PTS ->
  stage_CIRC_PTS w s = Some s' ->
  (mode (_input_data s') = CIRC_PTS \/ mode (_input_data s') = IGNR_INIT)
  /\ kept s s'.
Proof.
  intros Hm. unfold stage_CIRC_PTS.
  set (s0 := if newEvent (_input_data s) then _ else s).
  assert (H0 : _cfg s0 = _cfg s /\ _open s0 = _open s
               /\ mode (_input_data s0) = mode (_input_data s)).
  { subst s0. destruct (newEvent (_input_data s)); [|auto].
    destruct (3 <=? _)%nat; [destruct (circleFit_camModel _ _ _)|];
      repeat split; reflexivity. }
  destruct H0 as (C0 & O0 & M0). clearbody s0.
  destruct (waitKey s0) as [k s1] eqn:Hw.
  pose proof (waitKey_mode s0) as M1. rewrite Hw in M1. cbn [snd] in M1.
  apply waitKey_store in Hw. destruct Hw as [C1 O1].
  cbn [key set_key]. destruct (to_char k =? enter_key w).
  2:{ intros [= <-]. split.
      - simpl. rewrite M1, M0. auto.
      - apply same_store_kept. split; simpl; congruence. }
  cbn [_input_data set_key].
  destruct (3 <=? length (circPts (_input_data s1)))%nat.
  2:{ intros [= <-]. split.
      - simpl. rewrite M1, M0. auto.
      - apply same_store_kept. split; simpl; congruence. }
  unfold write_cfg, cfg_add, ConfigParser.write, ConfigParser.add.
  intros [= <-]. split; [|split].
  - destruct (_ <=? 0); simpl; auto.
  - intros k0 Hk. apply not_calibration in Hk.
    destruct (_ <=? 0); simpl; rewrite C1, C0;
      apply lookup_insert_ne; intros E; symmetry in E; tauto.
  - destruct (_ <=? 0) eqn:Hr; simpl in *.
    + assert (Hlt : (0 <? write_result w (ConfigParser.nwrites (_cfg s1)))
                    = false) by (apply Z.ltb_ge, Z.leb_le; exact Hr).
      rewrite Hlt, C1, C0. auto.
    + assert (Hlt : (0 <? write_result w (ConfigParser.nwrites (_cfg s1)))
                    = true) by (apply Z.ltb_lt, Z.leb_gt; exact Hr).
      rewrite Hlt. auto.
Qed.

Lemma write_disk (ret : Z) (m d : gmap string ConfigParser.Value) :
  (if 0 <? ret then m else d) = d \/ (if 0 <? ret then m else d) = m.
Proof. destruct (0 <? ret); auto. Qed.

Lemma stage_IGNR_PTS_effect w s s' :
  mode (_input_data s) = IGNR_PTS ->
  stage_IGNR_PTS w s = Some s' ->
  (mode (_input_data s') = IGNR_PTS \/ mode (_input_data s') = R_INIT)
  /\ kept s s'.
Proof.
  intros Hm. unfold stage_IGNR_PTS.
  destruct (waitKey s) as [k s1] eqn:Hw.
  pose proof (waitKey_mode s) as M1. rewrite Hw in M1. cbn [snd] in M1.
  apply waitKey_store in Hw. destruct Hw as [C1 O1].
  cbn [key set_key]. destruct (to_char k =? enter_key w).
  2:{ intros [= <-]. split.
      - simpl. rewrite M1. auto.
      - apply same_store_kept. split; simpl; congruence. }
  cbn [_input_data set_key].
  destruct (match ignrPts (_input_data s1) with
            | [] => true
            | _ => back_empty (ignrPts (_input_data s1))
            end).
  2:{ intros [= <-]. split.
      - simpl. rewrite M1. auto.
      - apply same_store_kept. split; simpl; congruence. }
  set (s2 := match ignrPts (_input_data s1) with [] => _ | _ => _ end).
  assert (H2 : _cfg s2 = _cfg s1).
  { subst s2. destruct (ignrPts (_input_data s1)); reflexivity. }
  clearbody s2.
  unfold write_cfg, cfg_add, ConfigParser.write, ConfigParser.add.
  intros [= <-]. split; [|split].
  - destruct (_ <=? 0); simpl; auto.
  - intros k0 Hk. apply not_calibration in Hk.
    destruct (_ <=? 0); simpl; rewrite H2, C1;
      apply lookup_insert_ne; intros E; symmetry in E; tauto.
  - destruct (_ <=? 0); simpl; rewrite H2, C1; apply write_disk.
Qed.

Lemma stage_R_square_effect w ref s s' :
  square_of (mode (_input_data s)) <> None ->
  stage_R_square w ref s = Some s' ->
  (mode (_input_data s') = mode (_input_data s)
   \/ mode (_input_data s') = EXIT)
  /\ kept s s'.
Proof.
  intros Hm. unfold stage_R_square.
  pose proof (updated_session w ref s) as Hs0. cbv zeta in Hs0.
  set (s0 := if (length (sqrPts (_input_data s)) =? 4)%nat
             then snd (updateC2ATransform w ref s) else s) in *.
  destruct Hs0 as (_ & C0 & O0 & _ & b & Hd0).
  assert (M0 : mode (_input_data s0) = mode (_input_data s))
    by (rewrite Hd0; reflexivity).
  clearbody s0.
  destruct (waitKey s0) as [k s1] eqn:Hw.
  pose proof (waitKey_mode s0) as M1. rewrite Hw in M1. cbn [snd] in M1.
  apply waitKey_store in Hw. destruct Hw as [C1 O1].
  cbn [key set_key]. destruct (to_char k =? enter_key w).
  - cbn [_input_data set_key R].
    destruct ((length (sqrPts (_input_data s1)) =? 4)%nat
              && negb (bool_decide (R s1 = []))).
    2:{ intros [= <-]. split.
        - simpl. rewrite M1, M0. auto.
        - apply same_store_kept. split; simpl; congruence. }
    unfold saveC2ATransform, write_cfg, cfg_add, ConfigParser.write,
      ConfigParser.add.
    cbn [R t _cfg _open _input_data set_key emit set_cfg].
    destruct (matrixToOmega w (R s1)) as [[a0 a1] a2].
    rewrite M1, M0.
    assert (Hkey : exists k1,
              match mode (_input_data s) with
              | R_XY => "c2a_cnrs_xy"
              | R_YZ => "c2a_cnrs_yz"
              | R_XZ => "c2a_cnrs_xz"
              | _ => EmptyString
              end = k1 /\ is_calibration_key k1 = true).
    { destruct (mode (_input_data s)); try (exfalso; apply Hm; reflexivity);
        eexists; split; reflexivity. }
    destruct Hkey as (k1 & -> & Hk1).
    destruct (_ <=? 0); cbn [negb]; intros [= <-]; (split; [|split]).
    + simpl. auto.
    + intros k0 Hk. pose proof Hk as Hk'. apply not_calibration in Hk.
      simpl. rewrite C1, C0.
      rewrite !lookup_insert_ne; [reflexivity|..];
        intros E; symmetry in E; try tauto; congruence.
    + simpl. rewrite C1, C0. apply write_disk.
    + simpl. auto.
    + intros k0 Hk. pose proof Hk as Hk'. apply not_calibration in Hk.
      simpl. rewrite C1, C0.
      rewrite !lookup_insert_ne; [reflexivity|..];
        intros E; symmetry in E; try tauto; congruence.
    + simpl. rewrite C1, C0. apply write_disk.
  - destruct (to_char k =? 102).
    + cbn [R set_key]. destruct (negb _); intros [= <-]; split;
        try (simpl; rewrite M1, M0; auto);
        apply same_store_kept; split; simpl; congruence.
    + intros [= <-]. split.
      * simpl. rewrite M1, M0. auto.
      * apply same_store_kept. split; simpl; congruence.
Qed.

Lemma stage_R_EXT_effect w s s' :
  stage_R_EXT w s = Some s' ->
  mode (_input_data s') = EXIT /\ kept s s'.
Proof.
  intros H. destruct (R_EXT_commit w s) as (s1 & Hs & Hmem & Hd & _ & _ & Hm & _).
  rewrite Hs in H. injection H as <-. split; [exact Hm|]. split.
  - intros k0 Hk. apply not_calibration in Hk. rewrite Hmem.
    rewrite !lookup_insert_ne; [reflexivity|..];
      intros E; symmetry in E; tauto.
  - cbv zeta in Hd. rewrite Hd. apply write_disk.
Qed.

Lemma step_effect w s s' :
  step w s = Some s' ->
  follows (mode (_input_data s)) (mode (_input_data s')) = true
  /\ kept s s'.
Proof.
  unfold step. destruct (mode (_input_data s)) eqn:Hm; intros H.
  - split; [|apply same_store_kept, (stage_CIRC_INIT_store w), H].
    destruct (stage_CIRC_INIT_mode w s s' Hm H) as [-> | ->]; reflexivity.
  - destruct (stage_CIRC_PTS_effect w s s' Hm H) as [[-> | ->] K]; auto.
  - split; [|apply same_store_kept, (stage_IGNR_INIT_store w), H].
    destruct (stage_IGNR_INIT_mode w s s' Hm H) as [-> | ->]; reflexivity.
  - destruct (stage_IGNR_PTS_effect w s s' Hm H) as [[-> | ->] K]; auto.
  - split; [|apply same_store_kept, (stage_R_INIT_store w), H].
    destruct (stage_R_INIT_mode w s s' Hm H) as [-> | ->]; reflexivity.
  - split; [|apply same_store_kept, (stage_R_SLCT_store w), H].
    unfold stage_R_SLCT in H. apply select_method_rank in H.
    destruct (mode (_input_data s')); try discriminate H; reflexivity.
  - destruct (stage_R_square_effect w XY_CNRS s s') as [[E | E] K];
      [rewrite Hm; discriminate|exact H|rewrite E, ?Hm; auto..].
  - destruct (stage_R_square_effect w YZ_CNRS s s') as [[E | E] K];
      [rewrite Hm; discriminate|exact H|rewrite E, ?Hm; auto..].
  - destruct (stage_R_square_effect w XZ_CNRS s s') as [[E | E] K];
      [rewrite Hm; discriminate|exact H|rewrite E, ?Hm; auto..].
  - destruct (stage_R_EXT_effect w s s' H) as [-> K]. auto.
  - injection H as <-. simpl. rewrite Hm.
    split; [reflexivity|apply same_store_kept; split; reflexivity].
Qed.

Lemma visited_head w fuel s :
  visited w fuel s = []
  \/ exists tl, visited w fuel s = mode (_input_data s) :: tl.
Proof.
  destruct fuel; cbn [visited];
    destruct (_open s && negb (key s =? exit_key)); eauto.
Qed.

(** X19. The session never goes back to an earlier stage.  Each pass of
    the loop either stays in its stage or moves along the fixed order
    circumference, ignore regions, transform (menu, then one of the four
    methods), exit; so does the whole loop, and so does the list of stages
    it entered. *)
Theorem stages_only_advance (w : World) :
  (forall s s', step w s = Some s' ->
     follows (mode (_input_data s)) (mode (_input_data s')) = true)
  /\ (forall fuel s s', loop w fuel s = Some s' ->
       (rank (mode (_input_data s)) <= rank (mode (_input_data s')))%nat)
  /\ (forall fuel s, in_order (visited w fuel s) = true).
Proof.
  split; [|split].
  - intros s s' H. apply (step_effect w s s' H).
  - induction fuel as [|fuel IH]; intros s s'; cbn [loop];
      destruct (_open s && negb (key s =? exit_key)).
    + discriminate.
    + intros [= <-]. lia.
    + destruct (step w s) as [s1|] eqn:Hs; [|discriminate].
      cbn [mbind option_bind]. intros H. apply IH in H.
      apply step_effect in Hs. destruct Hs as [Hs _].
      apply follows_rank in Hs. lia.
    + intros [= <-]. lia.
  - induction fuel as [|fuel IH]; intros s; cbn [visited];
      destruct (_open s && negb (key s =? exit_key)); try reflexivity.
    destruct (step w s) as [s1|] eqn:Hs; [|reflexivity].
    apply step_effect in Hs. destruct Hs as [Hs _].
    specialize (IH s1).
    destruct (visited_head w fuel s1) as [E | [tl E]]; rewrite E in *.
    + reflexivity.
    + cbn [in_order] in *. rewrite Hs. exact IH.
Qed.

Lemma loop_kept w k fuel : forall s s',
  is_calibration_key k = false ->
  loop w fuel s = Some s' ->
  ConfigParser.mem (_cfg s') !! k = ConfigParser.mem (_cfg s) !! k
  /\ (ConfigParser.disk (_cfg s') !! k = ConfigParser.disk (_cfg s) !! k
      \/ ConfigParser.disk (_cfg s') !! k = ConfigParser.mem (_cfg s) !! k).
Proof.
  induction fuel as [|fuel IH]; intros s s' Hk; cbn [loop];
    destruct (_open s && negb (key s =? exit_key)).
  - discriminate.
  - intros [= <-]. auto.
  - destruct (step w s) as [s1|] eqn:Hs; [|discriminate].
    cbn [mbind option_bind]. intros H. apply (IH _ _ Hk) in H.
    apply step_effect in Hs. destruct Hs as [_ [Km Kd]].
    destruct H as [Hm Hd]. rewrite (Km k Hk) in Hm, Hd.
    split; [exact Hm|].
    destruct Hd as [Hd|Hd]; [|auto].
    rewrite Hd. destruct Kd as [-> | ->]; [auto|].
    right. apply Km, Hk.
  - intros [= <-]. auto.
Qed.

Lemma finish_cfg w s : _cfg (snd (finish w s)) = _cfg s.
Proof.
  unfold finish, getchar_clean, getchar.
  destruct (imwrite w (cfg_img_fn s)); cbn [negb];
    destruct (_open s) eqn:Ho; simpl; rewrite ?Ho;
    destruct (stdin s) eqn:Hst; simpl; rewrite ?Ho, ?Hst; reflexivity.
Qed.

(** X20. A session changes nothing but the calibration keys: whatever
    the user does and however the writes go, a key of the store that is
    not one of roi_circ, roi_ignr, the three corner keys, c2a_src, c2a_r
    and c2a_t has after [run] the value it had before, in the table, and
    in the file the value it had there or the one the table had. *)
Theorem other_keys_untouched (w : World) (fuel : nat) (s s' : Session)
    (ok : bool) (k : string) :
  is_calibration_key k = false ->
  run w fuel s = Some (ok, s') ->
  ConfigParser.mem (_cfg s') !! k = ConfigParser.mem (_cfg s) !! k
  /\ (ConfigParser.disk (_cfg s') !! k = ConfigParser.disk (_cfg s) !! k
      \/ ConfigParser.disk (_cfg s') !! k = ConfigParser.mem (_cfg s) !! k).
Proof.
  intros Hk. unfold run.
  destruct (loop w fuel (begin s)) as [s1|] eqn:Hl; [|discriminate].
  cbn [mbind option_bind]. intros [= E].
  replace s' with (snd (finish w s1)) by (rewrite E; reflexivity).
  rewrite finish_cfg. apply (loop_kept w k fuel _ _ Hk) in Hl. exact Hl.
Qed.

Lemma other_keys_untouched_witness :
  is_calibration_key "vfov" = false
  /\ match run (ExGui.world ExGui.disk_ok) 20 ExSession.with_vfov with
     | Some (ok, s') =>
         ConfigParser.mem (_cfg s') !! "vfov"
         = ConfigParser.mem (_cfg ExSession.with_vfov) !! "vfov"
     | None => False
     end.
Proof.
  split; [reflexivity|].
  destruct (run (ExGui.world ExGui.disk_ok) 20 ExSession.with_vfov)
    as [[ok s']|] eqn:E.
  - apply (other_keys_untouched _ _ _ _ _ "vfov" eq_refl E).
  - vm_compute in E. discriminate E.
Defined.

End OrderMore.

Section RoundTripMore.

Import ConfigGui GuiSpec SessionSpec.

(** X21. The circumference stage asks the user about stored points only
    when at least three were loaded and the circle fitted to them has a
    positive radius.  Otherwise (no points stored, too few, or no fit) it
    reads nothing from the console, clears the points and goes on to
    collecting. *)
Theorem circumference_prompt_needs_a_fit (w : World) (s : Session) :
  mode (_input_data s) = CIRC_INIT ->
  match ConfigParser.getVecInt "roi_circ" (_cfg s) with
  | Some cfg_pts =>
      Z.of_nat (length cfg_pts) <= UINT_MAX
      /\ ((length (pairs cfg_pts) < 3)%nat
          \/ dlt 0%Q (snd (circleFit_camModel w (pairs cfg_pts) (c s, r s)))
             = false)
  | None => True
  end ->
  exists s',
    step w s = Some s'
    /\ mode (_input_data s') = CIRC_PTS
    /\ circPts (_input_data s') = []
    /\ stdin s' = stdin s /\ ticks s' = ticks s /\ _cfg s' = _cfg s.
Proof.
  intros Hm Hc. unfold step. rewrite Hm. unfold stage_CIRC_INIT.
  destruct (ConfigParser.getVecInt "roi_circ" (_cfg s)) as [cfg_pts|].
  - destruct Hc as [Hlen Hc]. rewrite (load_points_pairs _ Hlen).
    cbn [mbind option_bind].
    destruct (3 <=? length (pairs cfg_pts))%nat eqn:H3.
    + destruct Hc as [Hc|Hc]; [apply Nat.leb_le in H3; lia|].
      cbn [c r set_input].
      destruct (circleFit_camModel w (pairs cfg_pts) (c s, r s)) as [c' r'].
      cbn [snd] in Hc. rewrite Hc. cbn [mbind option_bind].
      cbn [_input_data set_input set_cr mode set_circPts]. rewrite Hm.
      eexists. split; [reflexivity|]. simpl. repeat split; reflexivity.
    + cbn [mbind option_bind].
      cbn [_input_data set_input mode set_circPts]. rewrite Hm.
      eexists. split; [reflexivity|]. simpl. repeat split; reflexivity.
  - cbn [mbind option_bind]. rewrite Hm.
    eexists. split; [reflexivity|]. simpl. repeat split; reflexivity.
Qed.

Lemma circumference_prompt_needs_a_fit_witness :
  mode (_input_data (begin ExSession.two_stored_points)) = CIRC_INIT
  /\ exists s',
       step (ExGui.world ExGui.disk_ok) (begin ExSession.two_stored_points)
       = Some s'
       /\ mode (_input_data s') = CIRC_PTS
       /\ stdin s' = [121; 10].
Proof.
  split; [reflexivity|].
  destruct (circumference_prompt_needs_a_fit (ExGui.world ExGui.disk_ok)
              (begin ExSession.two_stored_points) eq_refl)
    as (s' & Hs & Hm & _ & Hi & _).
  - vm_compute. split; [discriminate|]. left. lia.
  - exists s'. split; [exact Hs|]. split; [exact Hm|exact Hi].
Defined.

Lemma pairs_flat_map (ps : list (Z * Z)) :
  pairs (flat_map (fun p => [stored (fst p); stored (snd p)]) ps)
  = map (fun p => clicked (stored (fst p), stored (snd p))) ps.
Proof.
  induction ps as [|p ps IH]; [reflexivity|].
  cbn [flat_map app pairs map]. rewrite IH. reflexivity.
Qed.

Lemma length_dump_points pts :
  length (dump_points pts) = (2 * length pts)%nat.
Proof.
  unfold dump_points. induction pts as [|p pts IH]; [reflexivity|].
  cbn [flat_map app length]. rewrite IH. lia.
Qed.

Lemma stored_nonneg (ps : list (Z * Z)) :
  Forall (fun p => 0 <= fst p /\ 0 <= snd p) ps ->
  map (fun p => clicked (stored (fst p), stored (snd p))) ps = map clicked ps.
Proof.
  induction 1 as [|[x y] ps [Hx Hy] _ IH]; [reflexivity|].
  cbn [map fst snd] in *. rewrite IH. unfold stored.
  apply Z.leb_le in Hx, Hy. rewrite Hx, Hy. reflexivity.
Qed.

Lemma substring_prefix (stem ext : string) :
  String.substring 0 (String.length stem) (stem +:+ ext) = stem.
Proof.
  induction stem as [|ch stem IH].
  - destruct ext; reflexivity.
  - change (String ch stem +:+ ext) with (String ch (stem +:+ ext)).
    cbn [String.length String.substring]. rewrite IH. reflexivity.
Qed.

Lemma substring_none (str : string) : String.substring 0 0 str = EmptyString.
Proof. destruct str; reflexivity. Qed.

Lemma length_string_app (a b : string) :
  String.length (a +:+ b) = (String.length a + String.length b)%nat.
Proof.
  induction a as [|ch a IH]; [reflexivity|].
  change (String ch a +:+ b) with (String ch (a +:+ b)).
  cbn [String.length]. rewrite IH. reflexivity.
Qed.

(** X23. The annotated snapshot is named after the configuration file
    with its last four characters replaced by -configImg.png, whatever
    those four characters are; a name of four characters or fewer gives
    -configImg.png alone. *)
Theorem snapshot_name (s : Session) :
  (forall stem ext,
     _config_fn s = stem +:+ ext -> String.length ext = 4%nat ->
     cfg_img_fn s = stem +:+ "-configImg.png")
  /\ ((String.length (_config_fn s) <= 4)%nat ->
      cfg_img_fn s = "-configImg.png").
Proof.
  unfold cfg_img_fn. split.
  - intros stem ext -> Hext. rewrite length_string_app, Hext. 
    replace (Z.to_nat (Z.max (Z.of_nat (String.length stem + 4) - 4) 0))
      with (String.length stem) by lia.
    rewrite substring_prefix. reflexivity.
  - intros Hlen.
    replace (Z.to_nat (Z.max (Z.of_nat (String.length (_config_fn s)) - 4) 0))
      with 0%nat by lia.
    rewrite substring_none. reflexivity.
Qed.

End RoundTripMore.

(** * The constructor of the calibration GUI *)

Section CtorFacts.

Import ConfigGuiCtor CtorSpec.

Lemma load_spec e w fn :
  match chosen e w fn with
  | Some f => fst (fst (load e w fn)) = f /\ snd (fst (load e w fn)) = true
              /\ cv.empty f = false
  | None => snd (fst (load e w fn)) = false
  end.
Proof.
  unfold chosen, candidates, load, try_image, try_camera, try_video,
    first_frame.
  cbn [List.find].
  destruct (cv.empty (imread_gray e fn)) eqn:Hi; cbn [negb].
  2:{ cbn [fst snd]. auto. }
  destruct (stoi fn) as [id|]; cbn [app List.find].
  - destruct (cv.read (cv.camera w id)) as [[ok1 f1] c1]. cbn [fst snd].
    destruct (cv.empty f1) eqn:Hc; cbn [negb].
    2:{ cbn [fst snd]. auto. }
    destruct (cv.read (cv.file w fn)) as [[ok2 f2] c2]. cbn [fst snd].
    destruct (cv.empty f2) eqn:Hv; cbn [negb fst snd]; auto.
  - destruct (cv.read (cv.file w fn)) as [[ok2 f2] c2]. cbn [fst snd].
    destruct (cv.empty f2) eqn:Hv; cbn [negb fst snd]; auto.
Qed.

Lemma setFrame_spec e o frame :
  let r := setFrame e o frame in
  (fst (fst r) = true <->
     (cv.channels frame = 3 \/ cv.channels frame = 1)
     /\ dle (default 0%Q (getDbl e "vfov" (_cfg o))) 0%Q = false)
  /\ (fst (fst r) = true ->
      _frame (snd (fst r))
      = histStretch e (if cv.channels frame =? 3 then bgr2gray e frame
                       else frame)
      /\ _w (snd (fst r)) = cv.cols (_frame (snd (fst r)))
      /\ _h (snd (fst r)) = cv.rows (_frame (snd (fst r))))
  /\ _config_fn (snd (fst r)) = _config_fn o /\ _cfg (snd (fst r)) = _cfg o.
Proof.
  cbv zeta. unfold setFrame.
  destruct (Z.eqb_spec (cv.channels frame) 3) as [E3|N3].
  - cbn [_cfg with_frame].
    destruct (dle (default 0%Q (getDbl e "vfov" (_cfg o))) 0%Q);
      simpl; repeat split; auto; try discriminate; intros [_ H]; discriminate.
  - destruct (Z.eqb_spec (cv.channels frame) 1) as [E1|N1].
    + cbn [_cfg with_frame].
      destruct (dle (default 0%Q (getDbl e "vfov" (_cfg o))) 0%Q);
        simpl; repeat split; auto; try discriminate;
        intros [_ H]; discriminate.
    + simpl. repeat split; auto; try discriminate.
      intros [[H|H] _]; contradiction.
Qed.

(** X24. The calibration GUI comes up open exactly when the configuration
    file was read, names a source, that name yields a frame (the decoded
    image, else the first frame of the camera of that number, else the
    first frame of the video: the first of these that is not empty), the
    frame has one or three channels, and the field of view is positive.
    The frame kept for annotation is that frame, made gray and
    contrast-stretched. *)
Theorem gui_opens_iff (e : Env) (w : cv.World) (base : t)
    (config_fn : string) :
  let o := fst (new e w base config_fn) in
  let cfg := snd (read e config_fn) in
  let fn := lookup_string e "src_fn" cfg in
  (_open o = true <->
     0 < fst (read e config_fn) /\ fn <> EmptyString
     /\ exists f, chosen e w fn = Some f
          /\ (cv.channels f = 3 \/ cv.channels f = 1)
          /\ dle (default 0%Q (getDbl e "vfov" cfg)) 0%Q = false)
  /\ (_open o = true -> forall f, chosen e w fn = Some f ->
      _frame o = histStretch e (if cv.channels f =? 3 then bgr2gray e f
                                else f)
      /\ _w o = cv.cols (_frame o) /\ _h o = cv.rows (_frame o))
  /\ _config_fn o = config_fn /\ _cfg o = cfg.
Proof.
  cbv zeta. unfold new.
  destruct (read e config_fn) as [ret cfg]. cbn [fst snd _open].
  destruct (Z.ltb_spec 0 ret) as [Hret|Hret].
  2:{ simpl. repeat split; auto; try discriminate. intros [H _]. lia. }
  cbn [andb].
  destruct (String.eqb_spec (lookup_string e "src_fn" cfg) EmptyString)
    as [Hfn|Hfn].
  { simpl. repeat split; auto; try discriminate.
    intros (_ & H & _). contradiction. }
  cbn [_open].
  pose proof (load_spec e w (lookup_string e "src_fn" cfg)) as HL.
  destruct (load e w (lookup_string e "src_fn" cfg)) as [[f ok] tr].
  cbn [fst snd] in HL.
  destruct (chosen e w (lookup_string e "src_fn" cfg)) as [f0|].
  - destruct HL as (-> & -> & He). rewrite He. cbn [_open].
    set (o := {| _open := true; _config_fn := config_fn; _cfg := cfg;
                 _frame := _frame base; _w := _w base; _h := _h base |}).
    pose proof (setFrame_spec e o f0) as HS. cbv zeta in HS.
    destruct (setFrame e o f0) as [[ret2 o2] tr2]. cbn [fst snd] in *.
    destruct HS as (Hiff & Hfr & Hc1 & Hc2).
    split; [|split; [|split; assumption]].
    + rewrite Hiff. split.
      * intros [Hch Hv]. repeat split; auto. exists f0. auto.
      * intros (_ & _ & f1 & [= <-] & Hch & Hv). auto.
    + intros Ho f1 [= <-]. apply Hfr, Ho.
  - rewrite HL. cbn [_open with_open].
    destruct (cv.empty f); simpl; repeat split; auto; try discriminate;
      intros (_ & _ & f1 & H & _); discriminate.
Qed.

Lemma gui_opens_iff_witness :
  _open (fst (new ExCtor.env Ex.camera_world ExCtor.base0 "config.txt"))
  = true.
Proof.
  apply (gui_opens_iff ExCtor.env Ex.camera_world ExCtor.base0 "config.txt").
  split; [reflexivity|]. split; [discriminate|].
  exists Ex.flat_frame. split; [reflexivity|]. split; [left|]; reflexivity.
Defined.

Lemma tracker_long_name_no_camera w base input :
  (2 < String.length input)%nat ->
  existsb is_camera_open (snd (CVSource.new w base input)) = false.
Proof.
  intros Hlen. unfold CVSource.new, CVSource.resolve, CVSource.try_camera.
  replace (2 <? Z.of_nat (String.length input)) with true
    by (symmetry; apply Z.ltb_lt; lia).
  unfold CVSource.try_video, CVSource.try_image, CVSource.getFPS.
  destruct (cv.isOpened (cv.file w input)); cbn [negb].
  - destruct (cv.read (cv.file w input)) as [[ok f] c1].
    destruct (cv.empty f).
    + destruct (cv.empty _); simpl; reflexivity.
    + simpl. reflexivity.
  - destruct (cv.empty _); simpl; reflexivity.
Qed.

Lemma gui_image_only e w fn :
  cv.empty (imread_gray e fn) = false ->
  load e w fn
  = (imread_gray e fn, true,
     [Log DBG "Trying to load input %s as image ..."; ImRead fn;
      Log INF "Input frame read from image file (%s)."]).
Proof. intros H. unfold load, try_image. rewrite H. reflexivity. Qed.

Lemma new_trace_image e w base config_fn :
  let fn := lookup_string e "src_fn" (snd (read e config_fn)) in
  0 < fst (read e config_fn) ->
  fn <> EmptyString ->
  cv.empty (imread_gray e fn) = false ->
  filter (fun ev => is_probe ev = true) (snd (new e w base config_fn))
  = [ImRead fn].
Proof.
  cbv zeta. unfold new. destruct (read e config_fn) as [ret cfg].
  cbn [fst snd _open]. intros Hret Hfn Himg.
  apply Z.ltb_lt in Hret. rewrite Hret. cbn [andb].
  apply String.eqb_neq in Hfn. rewrite Hfn. cbn [_open].
  rewrite (gui_image_only e w _ Himg), Himg. cbn [_open].
  unfold setFrame.
  destruct (cv.channels _ =? 3); [|destruct (cv.channels _ =? 1)];
    cbn [_cfg with_frame]; try destruct (dle _ _); reflexivity.
Qed.

(** X25. The two programs resolve the same source name in different
    orders.  For a name that decodes as an image and also passes the
    tracker's camera probe (at most two characters, a number, a camera that
    delivers), the calibration GUI annotates the image and opens no
    capture at all, while the frame source runs live on the camera. *)
Theorem gui_prefers_image_tracker_prefers_camera (e : Env) (w : cv.World)
    (gui_base : t) (source_base : CVSource.t) (config_fn : string) :
  let fn := lookup_string e "src_fn" (snd (read e config_fn)) in
  0 < fst (read e config_fn) ->
  fn <> EmptyString ->
  cv.empty (imread_gray e fn) = false ->
  Spec.camera_probe w fn = true ->
  filter (fun ev => is_probe ev = true) (snd (new e w gui_base config_fn))
  = [ImRead fn]
  /\ chosen e w fn = Some (imread_gray e fn)
  /\ CVSource.classifications (snd (CVSource.new w source_base fn))
     = [CVSource.CameraId]
  /\ CVSource._live (fst (CVSource.new w source_base fn)) = true
  /\ CVSource._is_image (fst (CVSource.new w source_base fn)) = false.
Proof.
  cbv zeta. intros Hret Hfn Himg Hcam.
  split; [apply new_trace_image; assumption|].
  split.
  { unfold chosen, candidates. cbn [List.find]. rewrite Himg. reflexivity. }
  destruct (new_spec w source_base
              (lookup_string e "src_fn" (snd (read e config_fn))))
    as (Hcl & _ & Hl & Hi & _).
  unfold Spec.classify in *. rewrite Hcam in *.
  rewrite Hcl, Hl, Hi. repeat split.
Qed.

Lemma gui_prefers_image_tracker_prefers_camera_witness :
  Spec.camera_probe Ex.camera_world "0" = true
  /\ filter (fun ev => is_probe ev = true)
            (snd (new ExCtor.env_picture Ex.camera_world ExCtor.base0
                      "config.txt"))
     = [ImRead "0"]
  /\ CVSource._live (fst (CVSource.new Ex.camera_world Ex.base0 "0")) = true.
Proof.
  split; [reflexivity|].
  destruct (gui_prefers_image_tracker_prefers_camera ExCtor.env_picture
              Ex.camera_world ExCtor.base0 Ex.base0 "config.txt")
    as (H1 & _ & _ & H2 & _);
    [reflexivity|discriminate|reflexivity|reflexivity|].
  split; [exact H1|exact H2].
Defined.

(** X26. A number of more than two characters names a camera for the
    calibration GUI but never for the frame source: when no image of that
    name decodes, the GUI opens the camera of that number, whereas the
    frame source opens no camera for such a name, whatever the machine
    offers. *)
Theorem long_number_is_a_camera_for_the_gui_only (e : Env) (w : cv.World)
    (gui_base : t) (source_base : CVSource.t) (config_fn : string) (id : Z) :
  let fn := lookup_string e "src_fn" (snd (read e config_fn)) in
  0 < fst (read e config_fn) ->
  (2 < String.length fn)%nat ->
  stoi fn = Some id ->
  cv.empty (imread_gray e fn) = true ->
  In (CapOpenCamera id) (snd (new e w gui_base config_fn))
  /\ (cv.empty (first_frame (cv.camera w id)) = false ->
      chosen e w fn = Some (first_frame (cv.camera w id)))
  /\ existsb is_camera_open (snd (CVSource.new w source_base fn)) = false
  /\ (CVSource._open (fst (CVSource.new w source_base fn)) = true ->
      CVSource._live (fst (CVSource.new w source_base fn)) = false).
Proof.
  cbv zeta. intros Hret Hlen Hid Himg.
  split; [|split; [|split]].
  - unfold new. destruct (read e config_fn) as [ret cfg].
    cbn [fst snd _open] in *.
    apply Z.ltb_lt in Hret. rewrite Hret. cbn [andb].
    assert (Hfn : String.eqb (lookup_string e "src_fn" cfg) EmptyString
                  = false).
    { apply String.eqb_neq. intros E. rewrite E in Hlen. simpl in Hlen. lia. }
    rewrite Hfn. cbn [_open].
    unfold load, try_image, try_camera, try_video. rewrite Himg, Hid.
    destruct (cv.read (cv.camera w id)) as [[ok1 f1] c1].
    destruct (cv.empty f1) eqn:Hc.
    + destruct (cv.read (cv.file w _)) as [[ok2 f2] c2].
      destruct (cv.empty f2) eqn:Hv; rewrite ?Hv; cbn [_open with_open].
      * simpl. auto 10.
      * destruct (setFrame e _ f2) as [[r2 o2] tr2]. cbn [snd].
        rewrite !in_app_iff. simpl. auto 10.
    + rewrite Hc. cbn [_open].
      destruct (setFrame e _ f1) as [[r2 o2] tr2]. cbn [snd].
      rewrite !in_app_iff. simpl. auto 10.
  - intros Hc. unfold chosen, candidates. cbn [List.find].
    rewrite Himg, Hid. cbn [negb app List.find]. rewrite Hc. reflexivity.
  - apply tracker_long_name_no_camera. exact Hlen.
  - destruct (new_spec w source_base
                (lookup_string e "src_fn" (snd (read e config_fn))))
      as (_ & Ho & Hl & _).
    rewrite Ho, Hl. unfold Spec.classify, Spec.camera_probe.
    replace (String.length _ <=? 2)%nat with false
      by (symmetry; apply Nat.leb_gt; lia).
    cbn [andb].
    destruct (Spec.video_probe w _); [|destruct (Spec.image_probe w _)];
      try reflexivity.
    intros H. apply bool_decide_eq_true in H. destruct H as [k H].
    discriminate H.
Qed.

Lemma long_number_is_a_camera_for_the_gui_only_witness :
  (2 < String.length "100")%nat
  /\ stoi "100" = Some 100
  /\ In (CapOpenCamera 100)
        (snd (new ExCtor.env Ex.camera_world ExCtor.base0 "config.txt"))
  /\ existsb is_camera_open
       (snd (CVSource.new Ex.camera_world Ex.base0 "100")) = false.
Proof.
  split; [simpl; lia|]. split; [reflexivity|].
  destruct (long_number_is_a_camera_for_the_gui_only ExCtor.env
              Ex.camera_world ExCtor.base0 Ex.base0 "config.txt" 100)
    as (H1 & _ & H2 & _);
    [reflexivity|simpl; lia|reflexivity|reflexivity|].
  split; [exact H1|exact H2].
Defined.

End CtorFacts.

(** * Whole sessions and whole streams *)

Section KeepFacts.

Import ConfigGui GuiSpec SessionSpec KeepSpec.

Lemma waitKey_keeps s :
  stdin (snd (waitKey s)) = stdin s
  /\ carried s (snd (waitKey s))
  /\ mode (_input_data (snd (waitKey s))) = mode (_input_data s)
  /\ (collecting (mode (_input_data s)) = false ->
      circPts (_input_data (snd (waitKey s))) = circPts (_input_data s)
      /\ ignrPts (_input_data (snd (waitKey s))) = ignrPts (_input_data s)
      /\ sqrPts (_input_data (snd (waitKey s))) = sqrPts (_input_data s)).
Proof.
  split; [apply waitKey_stdin|]. split; [|split; [apply waitKey_mode|]].
  - unfold waitKey. destruct (ticks s); split; reflexivity.
  - apply waitKey_points.
Qed.

Lemma prompt_enter question next s rest :
  stdin s = 10 :: rest ->
  collecting (mode (_input_data s)) = false ->
  exists s',
    ask_keep question next s = Some s'
    /\ mode (_input_data s') = next /\ stdin s' = rest
    /\ carried s s'
    /\ circPts (_input_data s') = circPts (_input_data s)
    /\ ignrPts (_input_data s') = ignrPts (_input_data s)
    /\ sqrPts (_input_data s') = sqrPts (_input_data s).
Proof.
  intros Hin Hcol. unfold ask_keep. rewrite Hin.
  cbn [length keep_prompt].
  destruct (waitKey_keeps s) as (Hi & [Hc Ho Hk] & Hm & Hp).
  destruct (Hp Hcol) as (P1 & P2 & P3).
  destruct (waitKey s) as [k s1]. cbn [snd] in *.
  unfold getchar. cbn [stdin emit]. rewrite Hi, Hin.
  eexists. split; [reflexivity|]. simpl.
  repeat split; assumption.
Qed.


Lemma IGNR_INIT_keep w s cfg_polys rest :
  mode (_input_data s) = IGNR_INIT ->
  ConfigParser.getVVecInt "roi_ignr" (_cfg s) = Some cfg_polys ->
  Forall (fun poly => Z.of_nat (length poly) <= UINT_MAX) cfg_polys ->
  stdin s = 10 :: rest ->
  exists s',
    stage_IGNR_INIT w s = Some s'
    /\ mode (_input_data s') = R_INIT /\ stdin s' = rest
    /\ carried s s'
    /\ circPts (_input_data s') = circPts (_input_data s)
    /\ ignrPts (_input_data s') = loaded_polys cfg_polys
    /\ sqrPts (_input_data s') = sqrPts (_input_data s).
Proof.
  intros Hm Hcfg Hlen Hin. unfold stage_IGNR_INIT.
  rewrite Hcfg, (load_polys_pairs _ [] Hlen). cbn [mbind option_bind app].
  match goal with |- context [waitKey ?x] =>
    destruct (waitKey_keeps x) as (Hi & [Hc Ho Hk] & Hm1 & Hp);
    destruct (waitKey x) as [k s1] end.
  cbn [snd] in *. simpl in Hi, Hc, Ho, Hk, Hm1, Hp.
  rewrite Hm in *. destruct (Hp eq_refl) as (P1 & P2 & P3).
  match goal with |- context [ask_keep ?q ?n ?x] =>
    destruct (prompt_enter q n x rest)
      as (s4 & -> & M4 & I4 & [C4 O4 K4] & Q1 & Q2 & Q3)
  end.
  { simpl. rewrite Hi. exact Hin. }
  { simpl. rewrite Hm1. reflexivity. }
  cbn [mbind option_bind]. rewrite M4. cbn [INPUT_MODE_eqb].
  simpl in C4, O4, K4, Q1, Q2, Q3.
  exists s4. split; [reflexivity|]. split; [exact M4|]. split; [exact I4|].
  split; [split; congruence|]. unfold loaded_polys. repeat split; congruence.
Qed.









End KeepFacts.

Section StreamFacts.

Import CVSource SourceSpec StreamSpec.

Lemma read_pending c :
  cv.isOpened c = true ->
  cv.pending (snd (cv.read c)) = tl (cv.pending c)
  /\ cv.isOpened (snd (cv.read c)) = true.
Proof.
  intros Ho. unfold cv.read. rewrite Ho.
  destruct (cv.pending c) eqn:E; simpl; auto.
Qed.

Lemma usable_normalised f : usable f = true -> Spec.normalised f = Some f.
Proof.
  unfold usable, Spec.normalised. intros H. apply andb_true_iff in H.
  destruct H as [_ H]. apply negb_true_iff in H. rewrite H. reflexivity.
Qed.

Lemma handed_over_cons g gs :
  handed_over (g :: gs)
  = match g with
    | Returned true fr _ _ => fr :: handed_over gs
    | _ => handed_over gs
    end.
Proof. unfold handed_over. destruct g as [[|] ? ? ?| |]; reflexivity. Qed.

(** X28. An opened camera or video delivers each of the frames its
    capture still holds exactly once and in order: as long as frames are
    left, [grab] returns true and hands over the next frame,
    colour-converted and flipped; once they are used up every further call
    returns false.  On frames that are not empty and not a single row no
    call throws. *)
Theorem stream_delivers_each_frame_once (w : cv.World) (clks : list Clock) :
  forall (s : t) (c : cv.VideoCapture) (frame : cv.Mat),
  _open s = true ->
  _is_image s = false ->
  _cap s = Some c ->
  cv.isOpened c = true ->
  forallb usable (cv.pending c) = true ->
  map outcome (Spec.grab_n w clks s frame)
  = map (fun i => Some (i <? length (cv.pending c))%nat) (seq 0 (length clks))
  /\ handed_over (Spec.grab_n w clks s frame)
     = map (fun f => cv.flip0 (Spec.to_colour w (_bayerType s) f))
           (take (length clks) (cv.pending c)).
Proof.
  induction clks as [|clk clks IH]; intros s c frame Ho Hi Hc Hop Hus.
  - split; reflexivity.
  - cbn [Spec.grab_n length seq map]. rewrite <- seq_shift, map_map.
    destruct (read_pending c Hop) as [Hpend Hop'].
    destruct (cv.pending c) as [|f fs] eqn:Ep.
    + assert (Hin : Spec.frame_in s = Some (false, cv.Mat0)).
      { unfold Spec.frame_in. rewrite Hc, Hi. unfold cv.read.
        rewrite Hop, Ep. reflexivity. }
      rewrite (grab_read_fails w clk s frame c cv.Mat0 Ho Hc Hin).
      specialize (IH (with_frame_cap (with_cap s (Some (snd (cv.read c))))
                                    cv.Mat0)
                     (snd (cv.read c)) frame Ho Hi eq_refl Hop').
      rewrite Hpend in IH. destruct IH as [IH1 IH2]; [reflexivity|].
      cbn [tl length] in *. split.
      * cbn [outcome map]. f_equal. exact IH1.
      * rewrite handed_over_cons, IH2, !take_nil. reflexivity.
    + cbn [forallb] in Hus. apply andb_true_iff in Hus.
      destruct Hus as [Hf Hfs].
      assert (Hne : cv.empty f = false).
      { unfold usable in Hf. apply andb_true_iff in Hf.
        destruct Hf as [Hf _]. apply negb_true_iff in Hf. exact Hf. }
      assert (Hin : Spec.frame_in s = Some (true, f)).
      { unfold Spec.frame_in. rewrite Hc, Hi. unfold cv.read.
        rewrite Hop, Ep. cbn [fst]. rewrite Hne. reflexivity. }
      destruct (grab_returns_full w clk s frame c f f Ho Hc Hin
                  (usable_normalised f Hf))
        as (s' & tr & -> & Ho' & _ & Hi' & Hb' & _ & _ & _ & Hc' & _).
      rewrite Hi in Hc', Hi'.
      specialize (IH s' (snd (cv.read c))
                     (cv.flip0 (Spec.to_colour w (_bayerType s) f))
                     Ho' Hi' Hc' Hop').
      rewrite Hpend in IH. cbn [tl] in IH.
      destruct (IH Hfs) as [IH1 IH2]. split.
      * cbn [outcome map length]. f_equal. exact IH1.
      * rewrite handed_over_cons, IH2, Hb'. reflexivity.
Qed.

Lemma stream_delivers_each_frame_once_witness :
  _open ExStream.opened = true
  /\ map outcome
       (Spec.grab_n (ExSource.video_world ExStream.three_frames)
          [Ex.clk0; Ex.clk0; Ex.clk0] ExStream.opened ExSource.frame_a)
     = [Some true; Some true; Some false].
Proof.
  split; [reflexivity|].
  destruct (stream_delivers_each_frame_once
              (ExSource.video_world ExStream.three_frames)
              [Ex.clk0; Ex.clk0; Ex.clk0] ExStream.opened
              (snd (cv.read (ExSource.container ExStream.three_frames)))
              ExSource.frame_a eq_refl eq_refl eq_refl eq_refl eq_refl)
    as [H _].
  exact H.
Defined.

End StreamFacts.

Section LoadBackFacts.

Import ConfigGui GuiSpec SessionSpec KeepSpec.

Lemma pairs_dump_clicked (ps : list (Z * Z)) :
  pairs (dump_points (map clicked ps)) = map came_back ps.
Proof. rewrite dump_points_clicked. apply pairs_flat_map. Qed.

Lemma came_back_nonneg (ps : list (Z * Z)) :
  Forall (fun p => 0 <= fst p /\ 0 <= snd p) ps ->
  map came_back ps = map clicked ps.
Proof. apply stored_nonneg. Qed.



(** X29. Ignore regions stored by a commit load back in a later session.
    When Enter on an empty active polygon commits the regions and the
    write succeeds, a later session started on the file written, whose
    user keeps what is stored, loads the regions polygon by polygon, in
    order, without those that have no point; a point comes back as it was
    clicked when its coordinates are not negative, and a negative
    coordinate one greater. *)
Theorem committed_regions_load_back (pss : list (list (Z * Z))) :
  Forall (fun poly => 2 * Z.of_nat (length poly) <= UINT_MAX) pss ->
  forall w s tk rest,
    mode (_input_data s) = IGNR_PTS ->
    ticks s = tk :: rest ->
    to_char (pressed tk) = enter_key w ->
    ignrPts (apply_mouse (mouse tk) (_input_data s))
    = map (map clicked) pss ++ [[]] ->
    0 < write_result w (ConfigParser.nwrites (_cfg s)) ->
    exists s1,
      step w s = Some s1
      /\ mode (_input_data s1) = R_INIT
      /\ ignrPts (_input_data s1) = map (map clicked) pss
      /\ forall w2 s2 rest2,
           ConfigParser.mem (_cfg s2) = ConfigParser.disk (_cfg s1) ->
           mode (_input_data s2) = IGNR_INIT ->
           stdin s2 = 10 :: rest2 ->
           exists s3,
             step w2 s2 = Some s3
             /\ mode (_input_data s3) = R_INIT
             /\ ignrPts (_input_data s3)
                = filter (fun tmp => tmp <> []) (map (map came_back) pss)
             /\ (Forall (Forall (fun p => 0 <= fst p /\ 0 <= snd p)) pss ->
                 ignrPts (_input_data s3)
                 = filter (fun tmp => tmp <> []) (map (map clicked) pss)).
Proof.
  intros Hlen w s tk rest Hm Ht Hk Hps Hret.
  destruct (IGNR_PTS_enter w s tk rest Hm Ht Hk) as (s1 & Hs & H).
  cbv zeta in H. rewrite Hps, last_snoc, removelast_last in H.
  apply Z.ltb_lt in Hret. rewrite Hret in H.
  destruct H as (Hp1 & _ & Hmem & Hdisk & _ & _ & Hm1).
  change (ConfigParser.disk (_cfg s1) = ConfigParser.mem (_cfg s1)) in Hdisk.
  exists s1. split; [exact Hs|]. split; [exact Hm1|]. split; [exact Hp1|].
  intros w2 s2 rest2 Hcfg Hm2 Hin.
  assert (Hget : ConfigParser.getVVecInt "roi_ignr" (_cfg s2)
                 = Some (map dump_points (map (map clicked) pss))).
  { unfold ConfigParser.getVVecInt.
    rewrite Hcfg, Hdisk, Hmem, lookup_insert_eq. reflexivity. }
  assert (Hmax : Forall (fun poly => Z.of_nat (length poly) <= UINT_MAX)
                   (map dump_points (map (map clicked) pss))).
  { rewrite !Forall_map. clear -Hlen.
    induction Hlen as [|poly polys Hl _ IH]; constructor; [|exact IH].
    cbn. rewrite length_dump_points, length_map. lia. }
  destruct (IGNR_INIT_keep w2 s2 _ rest2 Hm2 Hget Hmax Hin)
    as (s3 & Hs3 & Hm3 & _ & _ & _ & Hp & _).
  assert (Hl : loaded_polys (map dump_points (map (map clicked) pss))
               = filter (fun tmp => tmp <> []) (map (map came_back) pss)).
  { unfold loaded_polys. f_equal. rewrite !map_map. apply map_ext.
    intros ps. apply pairs_dump_clicked. }
  rewrite Hl in Hp.
  exists s3. split; [unfold step; rewrite Hm2; exact Hs3|].
  split; [exact Hm3|]. split; [exact Hp|].
  intros Hpos. rewrite Hp. f_equal. clear -Hpos.
  induction Hpos as [|ps pss Hps _ IH]; [reflexivity|].
  cbn [map]. rewrite IH, (came_back_nonneg ps Hps). reflexivity.
Qed.

Lemma committed_regions_load_back_witness :
  Forall (fun poly => 2 * Z.of_nat (length poly) <= UINT_MAX) [[(-1, -1)]]
  /\ exists s1,
       step (ExGui.world ExGui.disk_ok) ExSession.region_outside = Some s1
       /\ exists s3,
            step (ExGui.world ExGui.disk_ok) (ExKeep.later s1 IGNR_INIT)
            = Some s3
            /\ ignrPts (_input_data s3) = [[Point2d.of_ints 0 0]].
Proof.
  assert (Hlen : Forall (fun poly => 2 * Z.of_nat (length poly) <= UINT_MAX)
                   [[(-1, -1)]])
    by (repeat constructor; vm_compute; discriminate).
  split; [exact Hlen|].
  destruct (committed_regions_load_back [[(-1, -1)]] Hlen
              (ExGui.world ExGui.disk_ok) ExSession.region_outside
              (ExGui.press 10) [] eq_refl eq_refl eq_refl eq_refl
              ltac:(reflexivity))
    as (s1 & Hs1 & _ & _ & Hlater).
  exists s1. split; [exact Hs1|].
  destruct (Hlater (ExGui.world ExGui.disk_ok) (ExKeep.later s1 IGNR_INIT)
              [] eq_refl eq_refl eq_refl)
    as (s3 & Hs3 & _ & Hp & _).
  exists s3. split; [exact Hs3|]. rewrite Hp. reflexivity.
Defined.

End LoadBackFacts.
